(** * ComfyToGPU: the job orchestration core

    A shallow embedding of the orchestration code of the gateway:
    - [src/runpod.ts]: the workflow parameterizer ([buildWorkflow]), the
      two poll loops ([executeAsync], [waitForCompletion]) and the result
      normalizer ([processOutput]);
    - [src/server.ts]: the in-memory job store, its periodic sweep and the
      [/api/generate] handler with its background task.

    JSON data handled by the code (typed [any] in the source) is embedded
    as a tree of JavaScript values; exceptions are carried by an error
    monad; the remote executor, the clock and the random source are
    explicit inputs. *)

From Stdlib Require Import ZArith QArith List Ascii String Lia.
From Stdlib Require Floats.SpecFloat.
From stdpp Require Import base gmap strings list pretty.

Set Warnings "-register-all".

(** ** JavaScript values *)

Module Js.

(** An exception, by the [message] of the thrown [Error]. *)
Inductive outcome (A : Type) : Type :=
| Ok (a : A)
| Throw (msg : string).
Arguments Ok {A} a.
Arguments Throw {A} msg.

#[global] Instance outcome_ret : MRet outcome := λ A, Ok.
#[global] Instance outcome_bind : MBind outcome :=
  λ A B f m, match m with Ok a => f a | Throw e => Throw e end.


(** A value as [JSON.parse] builds it, plus [undefined]. The fields of an
    object are listed in the order [Object.keys] enumerates them. An array
    carries, next to its elements, the named properties assigned to it
    (none after [JSON.parse]). Numbers are the rationals they denote. *)
Inductive JsVal : Type :=
| JUndefined
| JNull
| JBool (b : bool)
| JNum (q : Q)
| JStr (s : string)
| JArr (elems : list JsVal) (extra : list (string * JsVal))
| JObj (fields : list (string * JsVal)).

(** [!!v] *)
Definition truthy (v : JsVal) : bool :=
  match v with
  | JUndefined | JNull => false
  | JBool b => b
  | JNum q => negb (Qeq_bool q 0)
  | JStr s => negb (String.eqb s EmptyString)
  | JArr _ _ | JObj _ => true
  end.

(** [a || b] *)
Definition js_or (a b : JsVal) : JsVal := if truthy a then a else b.

Definition nullish (v : JsVal) : bool :=
  match v with JUndefined | JNull => true | _ => false end.

(** [typeof v === 'string'] *)
Definition is_string (v : JsVal) : bool :=
  match v with JStr _ => true | _ => false end.

(** [Array.isArray(v)] *)
Definition is_array (v : JsVal) : bool :=
  match v with JArr _ _ => true | _ => false end.

(** [typeof v === 'object'] *)
Definition typeof_object (v : JsVal) : bool :=
  match v with JNull | JArr _ _ | JObj _ => true | _ => false end.

(** The elements [forEach] visits. *)
Definition array_elems (v : JsVal) : list JsVal :=
  match v with JArr elems _ => elems | _ => [] end.

Fixpoint assoc_get (k : string) (fs : list (string * JsVal)) : option JsVal :=
  match fs with
  | [] => None
  | (k', v) :: rest => if String.eqb k k' then Some v else assoc_get k rest
  end.

(** Assignment to a property of an object: an existing property keeps its
    place, a new one comes last. *)
Fixpoint assoc_set (k : string) (v : JsVal) (fs : list (string * JsVal))
  : list (string * JsVal) :=
  match fs with
  | [] => [(k, v)]
  | (k', v') :: rest =>
      if String.eqb k k' then (k, v) :: rest else (k', v') :: assoc_set k v rest
  end.

(** Array indices are written in decimal. *)
Definition digit_of (c : ascii) : option N :=
  let n := N_of_ascii c in
  if ((48 <=? n) && (n <=? 57))%N then Some (n - 48)%N else None.

Fixpoint parse_digits (s : string) (acc : N) : option N :=
  match s with
  | EmptyString => Some acc
  | String c rest => d ← digit_of c; parse_digits rest (10 * acc + d)%N
  end.

(** The position a key denotes in an array or string of length [len]: the
    key is the canonical decimal form of an index below [len]. *)
Definition index_of_key (len : nat) (k : string) : option nat :=
  match k with
  | EmptyString => None
  | _ =>
      i ← parse_digits k 0%N;
      if (i <? N.of_nat len)%N && bool_decide (pretty i = k)
      then Some (N.to_nat i) else None
  end.

Definition js_length (n : nat) : JsVal := JNum (inject_Z (Z.of_nat n)).

(** [v[k]] for a [v] that is neither [null] nor [undefined]. The names the
    program reads are own properties or absent: none of them is inherited
    from a prototype. *)
Definition get_prop (v : JsVal) (k : string) : JsVal :=
  match v with
  | JObj fs => default JUndefined (assoc_get k fs)
  | JArr elems extra =>
      match index_of_key (length elems) k with
      | Some i => default JUndefined (elems !! i)
      | None =>
          if String.eqb k "length" then js_length (length elems)
          else default JUndefined (assoc_get k extra)
      end
  | JStr s =>
      match index_of_key (String.length s) k with
      | Some i =>
          match String.get i s with
          | Some c => JStr (String c EmptyString)
          | None => JUndefined
          end
      | None =>
          if String.eqb k "length" then js_length (String.length s)
          else JUndefined
      end
  | _ => JUndefined
  end.

(** The message of the [TypeError] V8 throws on [null.k] and [undefined.k]. *)
Definition read_error (v : JsVal) (k : string) : string :=
  "Cannot read properties of "
  +:+ (match v with JNull => "null" | _ => "undefined" end)
  +:+ " (reading '" +:+ k +:+ "')".

(** [v.k], which throws on [null] and [undefined]. *)
Definition read_prop (v : JsVal) (k : string) : outcome JsVal :=
  if nullish v then Throw (read_error v k) else Ok (get_prop v k).

(** [Object.keys(v)] for an object or an array. *)
Definition own_keys (v : JsVal) : list string :=
  match v with
  | JObj fs => fst <$> fs
  | JArr elems extra =>
      ((λ i : nat, pretty (N.of_nat i)) <$> seq 0 (length elems)) ++ (fst <$> extra)
  | _ => []
  end.

(** [base[k] = v] on an object or an array; the elements of an array are
    its index properties. (An index beyond the end, or [length], would
    resize the array: the program writes neither, it writes the fixed
    names of [buildWorkflow] and writes back at keys it has just read.) *)
Definition put_prop (base : JsVal) (k : string) (v : JsVal) : JsVal :=
  match base with
  | JObj fs => JObj (assoc_set k v fs)
  | JArr elems extra =>
      match index_of_key (length elems) k with
      | Some i => JArr (<[i := v]> elems) extra
      | None => JArr elems (assoc_set k v extra)
      end
  | _ => base
  end.

(** An object or an array: what can hold properties. *)
Definition is_container (v : JsVal) : bool :=
  match v with JObj _ | JArr _ _ => true | _ => false end.

(** [base] has the own property [k], with value [v]. *)
Definition has_own (base : JsVal) (k : string) (v : JsVal) : Prop :=
  match base with
  | JObj fs => assoc_get k fs = Some v
  | JArr elems extra =>
      match index_of_key (length elems) k with
      | Some i => elems !! i = Some v
      | None => assoc_get k extra = Some v
      end
  | _ => False
  end.

(** [typeof v] *)
Definition js_typeof (v : JsVal) : string :=
  match v with
  | JUndefined => "undefined"
  | JNull | JArr _ _ | JObj _ => "object"
  | JBool _ => "boolean"
  | JNum _ => "number"
  | JStr _ => "string"
  end.

(** [l.forEach(x => body)] over an accumulator, leaving at the first
    exception. *)
Fixpoint forEach {A S : Type} (body : S → A → outcome S) (l : list A) (s : S)
  : outcome S :=
  match l with
  | [] => Ok s
  | x :: rest => s' ← body s x; forEach body rest s'
  end.

End Js.

(** ** The RunPod service ([src/runpod.ts]) *)

Module RunPod.
Import Js.

(** [interface GenerateResult]; [status] is [None] where the object
    literal has no such property. *)
Record GenerateResult : Type := {
  success : bool;
  jobId : JsVal;
  message : string;
  images : list JsVal;
  status : option JsVal
}.

(** *** [processOutput] *)

(** The callback of [data.output.images.forEach]. *)
Definition push_flat_image (images : list JsVal) (img : JsVal)
  : outcome (list JsVal) :=
  if is_string img then Ok (images ++ [img])
  else
    d ← read_prop img "data";
    if truthy d then Ok (images ++ [d]) else Ok images.

(** The callback of [nodeOutput.images.forEach]. *)
Definition push_node_image (images : list JsVal) (img : JsVal)
  : outcome (list JsVal) :=
  if is_string img then Ok (images ++ [img])
  else
    d ← read_prop img "data";
    if truthy d then Ok (images ++ [d])
    else
      let v := js_or (get_prop img "image") (get_prop img "base64") in
      if truthy v then Ok (images ++ [v]) else Ok images.

(** The callback of [Object.keys(data.output).forEach]. *)
Definition visit_node (output : JsVal) (images : list JsVal) (nodeId : string)
  : outcome (list JsVal) :=
  let nodeOutput := get_prop output nodeId in
  imgs ← read_prop nodeOutput "images";
  if truthy imgs && is_array imgs
  then forEach push_node_image (array_elems imgs) images
  else Ok images.

(** The search for images, from [if (data.output)] on. *)
Definition extract_images (data : JsVal) : outcome (list JsVal) :=
  output ← read_prop data "output";
  if truthy output then
    if is_array (get_prop output "images") then
      forEach push_flat_image (array_elems (get_prop output "images")) []
    else if truthy (get_prop output "image") then
      Ok [get_prop output "image"]
    else if typeof_object output then
      forEach (visit_node output) (own_keys output) []
    else Ok []
  else Ok [].

Definition success_message : string := "Image generation completed successfully".

(** The body of the [try]. *)
Definition processOutput_try (data : JsVal) : outcome GenerateResult :=
  imgs ← extract_images data;
  id ← read_prop data "id";
  st ← read_prop data "status";
  Ok {| success := true; jobId := id; message := success_message;
        images := imgs; status := Some st |}.

(** [processOutput]: the [catch] discards the images pushed so far. *)
Definition processOutput (data : JsVal) : outcome GenerateResult :=
  match processOutput_try data with
  | Ok r => Ok r
  | Throw msg =>
      id ← read_prop data "id";
      Ok {| success := false; jobId := id;
            message := "Failed to process output: " +:+ msg;
            images := []; status := None |}
  end.

(** *** The random seed

    [Math.random()] returns a double in [[0, 1)]; the product with
    [1000000000000000] is a double again, rounded to nearest, ties to
    even. A finite non-negative double is [mant * 2 ^ expo]. *)
Record Double : Type := { mant : Z; expo : Z }.

Definition double_valid (x : Double) : Prop :=
  (0 <= mant x < 2 ^ 53 ∧ -1074 <= expo x <= 971)%Z.

(** The value is below one. *)
Definition below_one (x : Double) : Prop :=
  (expo x < 0 ∧ mant x < 2 ^ (- expo x))%Z.

(** Rounding of the exact value [n * 2 ^ e], [0 <= n], to 53 significant
    bits and exponent at least [-1074]. The values rounded here are below
    [2 ^ 50], far from overflow. *)
Definition round_to_double (n e : Z) : Double :=
  let shift := Z.max (Z.log2 n + 1 - 53) (-1074 - e) in
  if (shift <=? 0)%Z then {| mant := n; expo := e |}
  else
    let q := (n / 2 ^ shift)%Z in
    let r := (n mod 2 ^ shift)%Z in
    let half := (2 ^ (shift - 1))%Z in
    let q' :=
      if (r <? half)%Z then q
      else if (half <? r)%Z then (q + 1)%Z
      else if Z.even q then q else (q + 1)%Z in
    {| mant := q'; expo := (e + shift)%Z |}.

(** [Math.floor] of a non-negative double. *)
Definition double_floor (x : Double) : Z :=
  if (0 <=? expo x)%Z then (mant x * 2 ^ expo x)%Z
  else (mant x / 2 ^ (- expo x))%Z.

(** [Math.floor(Math.random() * 1000000000000000)], from the value
    [Math.random()] returned. *)
Definition random_seed (draw : Double) : Z :=
  double_floor (round_to_double (mant draw * 1000000000000000) (expo draw)).

(** *** [buildWorkflow] *)

Section Parameterizer.

(** How JavaScript prints a number ([Number::toString]); it only shows in
    the message of one [TypeError]. *)
Variable number_to_string : Q → string.

(** [String(v)] for a primitive. *)
Definition display (v : JsVal) : string :=
  match v with
  | JStr s => s
  | JBool true => "true"
  | JBool false => "false"
  | JNum q => number_to_string q
  | JNull => "null"
  | _ => "undefined"
  end.

(** The messages of the [TypeError]s V8 throws on an assignment to a
    property of a primitive (the module is strict code) and of [null] or
    [undefined]. *)
Definition assign_error (base : JsVal) (k : string) : string :=
  if nullish base
  then "Cannot set properties of " +:+ display base +:+ " (setting '" +:+ k +:+ "')"
  else "Cannot create property '" +:+ k +:+ "' on " +:+ js_typeof base
       +:+ " '" +:+ display base +:+ "'".

(** [base.k = v] *)
Definition assign_prop (base : JsVal) (k : string) (v : JsVal) : outcome JsVal :=
  match base with
  | JObj _ | JArr _ _ => Ok (put_prop base k v)
  | _ => Throw (assign_error base k)
  end.

(** [workflow[n] && workflow[n].inputs] *)
Definition has_inputs (workflow : JsVal) (n : string) : bool :=
  truthy (get_prop workflow n) && truthy (get_prop (get_prop workflow n) "inputs").

(** [workflow[n].inputs[f]] *)
Definition input_of (workflow : JsVal) (n f : string) : JsVal :=
  get_prop (get_prop (get_prop workflow n) "inputs") f.

(** [workflow[n].inputs[f] = v]. The node and its [inputs] are the objects
    inside [workflow]: the assignment shows in [workflow], which the update
    of the path renders. *)
Definition set_input (workflow : JsVal) (n f : string) (v : JsVal) : outcome JsVal :=
  let node := get_prop workflow n in
  inputs' ← assign_prop (get_prop node "inputs") f v;
  Ok (put_prop workflow n (put_prop node "inputs" inputs')).

Definition load_error : string := "Failed to load ComfyUI workflow file".

(** The [try] that loads the template. [workflowData] is what
    [JSON.parse] returned, [None] when reading or parsing threw. *)
Definition load_workflow (workflowData : option JsVal) : outcome JsVal :=
  match workflowData with
  | None => Throw load_error
  | Some d =>
      if nullish d then Throw load_error
      else
        let input := get_prop d "input" in
        let w := if nullish input then JUndefined else get_prop input "workflow" in
        Ok (js_or w d)
  end.

(** Node 111, the positive prompt. *)
Definition patch_positive (prompt : string) (workflow : JsVal) : outcome JsVal :=
  if has_inputs workflow "111" then
    w ← set_input workflow "111" "text" (JStr prompt);
    set_input w "111" "prompt" (JStr prompt)
  else Ok workflow.

(** Node 110, the negative prompt. *)
Definition patch_negative (workflow : JsVal) : outcome JsVal :=
  if has_inputs workflow "110" then
    w ← set_input workflow "110" "text" (JStr EmptyString);
    set_input w "110" "prompt" (JStr EmptyString)
  else Ok workflow.

(** Node 37, UNETLoader. *)
Definition patch_unet (workflow : JsVal) : outcome JsVal :=
  if has_inputs workflow "37" && truthy (input_of workflow "37" "filename") then
    w ← set_input workflow "37" "unet_name" (input_of workflow "37" "filename");
    set_input w "37" "weight_dtype" (JStr "default")
  else Ok workflow.

(** Node 38, CLIPLoader. *)
Definition patch_clip (workflow : JsVal) : outcome JsVal :=
  if has_inputs workflow "38" && truthy (input_of workflow "38" "filename") then
    w ← set_input workflow "38" "clip_name" (input_of workflow "38" "filename");
    set_input w "38" "type" (JStr "qwen_image")
  else Ok workflow.

(** Node 39, VAELoader. *)
Definition patch_vae (workflow : JsVal) : outcome JsVal :=
  if has_inputs workflow "39" && truthy (input_of workflow "39" "filename") then
    set_input workflow "39" "vae_name" (input_of workflow "39" "filename")
  else Ok workflow.

(** [v !== undefined] *)
Definition defined (v : JsVal) : bool :=
  match v with JUndefined => false | _ => true end.

(** Node 66, ModelSamplingAuraFlow. *)
Definition patch_shift (workflow : JsVal) : outcome JsVal :=
  if has_inputs workflow "66" && defined (input_of workflow "66" "value") then
    set_input workflow "66" "shift" (input_of workflow "66" "value")
  else Ok workflow.

(** Node 75, CFGNorm. *)
Definition patch_strength (workflow : JsVal) : outcome JsVal :=
  if has_inputs workflow "75" && defined (input_of workflow "75" "value") then
    set_input workflow "75" "strength" (input_of workflow "75" "value")
  else Ok workflow.

(** Node 3, KSampler. *)
Definition patch_seed (randomSeed : Z) (workflow : JsVal) : outcome JsVal :=
  if has_inputs workflow "3" then
    set_input workflow "3" "seed" (JNum (inject_Z randomSeed))
  else Ok workflow.

(** The statements before [Math.random()] is called. *)
Definition patch_loaders (prompt : string) (workflow : JsVal) : outcome JsVal :=
  w ← patch_positive prompt workflow;
  w ← patch_negative w;
  w ← patch_unet w;
  w ← patch_clip w;
  w ← patch_vae w;
  w ← patch_shift w;
  patch_strength w.

(** [buildWorkflow(prompt, imageBase64)]. [random k] is the value the
    [k]-th call of [Math.random()] returns and [calls] counts the calls made
    so far; the function hands back the new count. The image is not used
    by the function. *)
Definition buildWorkflow (workflowData : option JsVal)
    (random : nat → Double) (calls : nat)
    (prompt : string) (imageBase64 : option string)
  : outcome JsVal * nat :=
  match load_workflow workflowData ≫= patch_loaders prompt with
  | Throw e => (Throw e, calls)
  | Ok w => (patch_seed (random_seed (random calls)) w, S calls)
  end.

End Parameterizer.

(** *** The remote job and the two poll loops *)

(** The statuses of [interface RunPodJob]. *)
Inductive RemoteStatus : Type :=
| IN_QUEUE | IN_PROGRESS | COMPLETED | FAILED | CANCELLED | TIMED_OUT.

#[global] Instance RemoteStatus_eq_dec : EqDecision RemoteStatus.
Proof. solve_decision. Defined.

Definition status_name (st : RemoteStatus) : string :=
  match st with
  | IN_QUEUE => "IN_QUEUE"
  | IN_PROGRESS => "IN_PROGRESS"
  | COMPLETED => "COMPLETED"
  | FAILED => "FAILED"
  | CANCELLED => "CANCELLED"
  | TIMED_OUT => "TIMED_OUT"
  end.

(** [interface RunPodJob] *)
Record RunPodJob : Type := {
  job_id : string;
  job_status : RemoteStatus;
  job_output : option JsVal;
  job_error : option string
}.

(** The object a [RunPodJob] is, as [processOutput] receives it. *)
Definition job_data (job : RunPodJob) : JsVal :=
  JObj ([("id", JStr (job_id job)); ("status", JStr (status_name (job_status job)))]
        ++ match job_output job with Some o => [("output", o)] | None => [] end
        ++ match job_error job with Some e => [("error", JStr e)] | None => [] end).

(** [job.error || 'Unknown error'] *)
Definition error_or_unknown (job : RunPodJob) : string :=
  match job_error job with
  | Some e => if String.eqb e EmptyString then "Unknown error" else e
  | None => "Unknown error"
  end.

(** [s.toLowerCase()] on ASCII text. *)
Definition lower_ascii (c : ascii) : ascii :=
  let n := nat_of_ascii c in
  if (65 <=? n)%nat && (n <=? 90)%nat then ascii_of_nat (n + 32) else c.

Fixpoint toLowerCase (s : string) : string :=
  match s with
  | EmptyString => EmptyString
  | String c rest => String (lower_ascii c) (toLowerCase rest)
  end.

(** What the remote side does at one status query, and how long the timer
    that follows overruns: the query takes [latency] ms and is answered by
    [reply] ([Throw] for a transport failure of [axios.get]); the
    [setTimeout] fires [oversleep] ms late. Time passes at the [await]s. *)
Record PollStep : Type := {
  latency : N;
  reply : outcome RunPodJob;
  oversleep : N
}.

(** What a poll loop does that shows outside it. *)
Inductive PollEvent : Type :=
| StatusRequest (jobId : JsVal)             (* GET {base}/status/{jobId} *)
| Observed (st : RemoteStatus) (now : Z)    (* the reply, and when it came *)
| ColdStartWarning.                         (* the cold-start console.log *)

Definition is_cold_start (e : PollEvent) : bool :=
  match e with ColdStartWarning => true | _ => false end.

Definition is_request (e : PollEvent) : bool :=
  match e with StatusRequest _ => true | _ => false end.

(** How an [async] function ends; [OutOfFuel] is the model's only. *)
Inductive Completion : Type :=
| Returned (r : GenerateResult)
| Thrown (msg : string)
| OutOfFuel.

Definition completion_of (m : outcome GenerateResult) : Completion :=
  match m with Ok r => Returned r | Throw e => Thrown e end.

(** [getJobStatus]: the [catch] rewraps the transport error. *)
Definition getJobStatus (step : PollStep) : outcome RunPodJob :=
  match reply step with
  | Ok job => Ok job
  | Throw e => Throw ("Failed to get job status: " +:+ e)
  end.

Definition timeout_message : string := "Job timed out waiting for completion".

(** The [while] loop of [executeAsync]: [maxWaitTime] is 10 minutes,
    [pollInterval] 5 seconds. [now] is [Date.now()] at the loop test and
    [i] counts the queries made. *)
Fixpoint executeAsync_loop (fuel : nat) (remote : nat → PollStep) (jobId : JsVal)
    (startTime : Z) (i : nat) (now : Z) : list PollEvent * Completion :=
  match fuel with
  | O => ([], OutOfFuel)
  | S fuel' =>
      if (now - startTime <? 10 * 60 * 1000)%Z then
        let now1 := (now + Z.of_N (latency (remote i)))%Z in
        match getJobStatus (remote i) with
        | Throw e => ([StatusRequest jobId], Thrown e)
        | Ok jobStatus =>
            let seen := [StatusRequest jobId; Observed (job_status jobStatus) now1] in
            if bool_decide (job_status jobStatus = COMPLETED) then
              (seen, completion_of (processOutput (job_data jobStatus)))
            else if bool_decide (job_status jobStatus = FAILED) then
              (seen, Thrown ("Job failed: " +:+ error_or_unknown jobStatus))
            else
              let cold :=
                if bool_decide (job_status jobStatus = IN_QUEUE)
                   && (15000 <? now1 - startTime)%Z
                then [ColdStartWarning] else [] in
              let now2 := (now1 + 5000 + Z.of_N (oversleep (remote i)))%Z in
              let '(rest, c) :=
                executeAsync_loop fuel' remote jobId startTime (S i) now2 in
              (seen ++ cold ++ rest, c)
        end
      else ([], Thrown timeout_message)
  end.

(** The same loop with the cold-start [if] taken out: what the loop is
    compared with to tell what the warning changes. *)
Fixpoint executeAsync_loop_silent (fuel : nat) (remote : nat → PollStep)
    (jobId : JsVal) (startTime : Z) (i : nat) (now : Z)
  : list PollEvent * Completion :=
  match fuel with
  | O => ([], OutOfFuel)
  | S fuel' =>
      if (now - startTime <? 10 * 60 * 1000)%Z then
        let now1 := (now + Z.of_N (latency (remote i)))%Z in
        match getJobStatus (remote i) with
        | Throw e => ([StatusRequest jobId], Thrown e)
        | Ok jobStatus =>
            let seen := [StatusRequest jobId; Observed (job_status jobStatus) now1] in
            if bool_decide (job_status jobStatus = COMPLETED) then
              (seen, completion_of (processOutput (job_data jobStatus)))
            else if bool_decide (job_status jobStatus = FAILED) then
              (seen, Thrown ("Job failed: " +:+ error_or_unknown jobStatus))
            else
              let now2 := (now1 + 5000 + Z.of_N (oversleep (remote i)))%Z in
              let '(rest, c) :=
                executeAsync_loop_silent fuel' remote jobId startTime (S i) now2 in
              (seen ++ rest, c)
        end
      else ([], Thrown timeout_message)
  end.

(** The [catch] of [executeAsync] and [executeSync]. *)
Definition execution_failed (c : Completion) : Completion :=
  match c with
  | Thrown e => Thrown ("RunPod execution failed: " +:+ e)
  | _ => c
  end.

(** The [try] of [executeAsync]. [post] is [response.data] of the POST to
    [/run], [Throw] when [axios.post] failed; [startTime] is [Date.now()]
    once it has returned. *)
Definition executeAsync_try (fuel : nat) (post : outcome JsVal)
    (remote : nat → PollStep) (startTime : Z) : list PollEvent * Completion :=
  match post ≫= (λ data, read_prop data "id") with
  | Throw e => ([], Thrown e)
  | Ok jobId => executeAsync_loop fuel remote jobId startTime 0 startTime
  end.

(** [waitForCompletion(jobId, maxWaitTime)]: [pollInterval] is 2 seconds;
    [startTime] is [Date.now()] at the call. *)
Fixpoint waitForCompletion_loop (fuel : nat) (remote : nat → PollStep)
    (jobId : JsVal) (maxWaitTime startTime : Z) (i : nat) (now : Z)
  : list PollEvent * Completion :=
  match fuel with
  | O => ([], OutOfFuel)
  | S fuel' =>
      if (now - startTime <? maxWaitTime)%Z then
        let now1 := (now + Z.of_N (latency (remote i)))%Z in
        match getJobStatus (remote i) with
        | Throw e => ([StatusRequest jobId], Thrown e)
        | Ok job =>
            let seen := [StatusRequest jobId; Observed (job_status job) now1] in
            if bool_decide (job_status job = COMPLETED) then
              (seen, completion_of (processOutput (job_data job)))
            else if bool_decide (job_status job = FAILED)
                    || bool_decide (job_status job = CANCELLED)
                    || bool_decide (job_status job = TIMED_OUT) then
              (seen, Thrown ("Job " +:+ toLowerCase (status_name (job_status job))
                             +:+ ": " +:+ error_or_unknown job))
            else
              let now2 := (now1 + 2000 + Z.of_N (oversleep (remote i)))%Z in
              let '(rest, c) :=
                waitForCompletion_loop fuel' remote jobId maxWaitTime startTime (S i) now2 in
              (seen ++ rest, c)
        end
      else ([], Thrown timeout_message)
  end.

Definition waitForCompletion (fuel : nat) (remote : nat → PollStep)
    (jobId : JsVal) (maxWaitTime startTime : Z) : list PollEvent * Completion :=
  waitForCompletion_loop fuel remote jobId maxWaitTime startTime 0 startTime.

(** [executeAsync(prompt, imageBase64)], which [execute] calls: the
    workflow is built before the [try]. *)
Definition executeAsync (number_to_string : Q → string) (fuel : nat)
    (workflowData : option JsVal) (random : nat → Double) (calls : nat)
    (prompt : string) (imageBase64 : option string)
    (post : outcome JsVal) (remote : nat → PollStep) (startTime : Z)
  : list PollEvent * Completion * nat :=
  match buildWorkflow number_to_string workflowData random calls prompt imageBase64 with
  | (Throw e, calls') => ([], Thrown e, calls')
  | (Ok workflow, calls') =>
      let '(events, c) := executeAsync_try fuel post remote startTime in
      (events, execution_failed c, calls')
  end.

End RunPod.

(** ** The job store of the server ([src/server.ts]) *)

Module Server.
Import Js.

(** [interface JobRecord] *)
Inductive JobStatus : Type := pending | processing | completed | failed.

#[global] Instance JobStatus_eq_dec : EqDecision JobStatus.
Proof. solve_decision. Defined.

(** The [result] object the background task stores. *)
Record JobResult : Type := {
  res_success : bool;
  res_jobId : JsVal;
  res_runpodJobId : JsVal;
  res_message : string;
  res_images : list JsVal
}.

Record JobRecord : Type := {
  status : JobStatus;
  result : option JobResult;
  error : option string;
  startedAt : Z
}.

(** [jobStore.set(tempJobId, {status: 'pending', startedAt: Date.now()})] *)
Definition set_pending (tempJobId : string) (now : Z)
    (jobStore : gmap string JobRecord) : gmap string JobRecord :=
  <[tempJobId := {| status := pending; result := None; error := None;
                    startedAt := now |}]> jobStore.

(** The first statement of the background task. *)
Definition set_processing (tempJobId : string) (now : Z)
    (jobStore : gmap string JobRecord) : gmap string JobRecord :=
  <[tempJobId := {| status := processing; result := None; error := None;
                    startedAt := now |}]> jobStore.

Definition completed_result (r : RunPod.GenerateResult) : JobResult :=
  {| res_success := true;
     res_jobId := RunPod.jobId r;
     res_runpodJobId := RunPod.jobId r;
     res_message := "✅ Image generation completed!";
     res_images := RunPod.images r |}.

(** One write of the background task, at time [now]: the [jobStore.set]
    that follows the [await], for a fulfilled promise of
    [runpodService.execute] ([Ok]), or the one of the [catch] ([Throw]),
    with the [message] of what was thrown. What the task does between
    the two, and how the second can follow the first, is [resume]
    below. *)
Definition settle (tempJobId : string) (now : Z) (r : outcome RunPod.GenerateResult)
    (jobStore : gmap string JobRecord) : gmap string JobRecord :=
  match r with
  | Ok r =>
      <[tempJobId := {| status := completed; result := Some (completed_result r);
                        error := None; startedAt := now |}]> jobStore
  | Throw msg =>
      <[tempJobId := {| status := failed; result := None; error := Some msg;
                        startedAt := now |}]> jobStore
  end.

(** The promise of [execute], from how the model of it ended. *)
Definition promise_of (c : RunPod.Completion) : option (outcome RunPod.GenerateResult) :=
  match c with
  | RunPod.Returned r => Some (Ok r)
  | RunPod.Thrown msg => Some (Throw msg)
  | RunPod.OutOfFuel => None
  end.

(** The callback of [setInterval]: the loop over [jobStore.entries()]. *)
Definition sweep (now : Z) (jobStore : gmap string JobRecord)
  : gmap string JobRecord :=
  let oneHourAgo := (now - 60 * 60 * 1000)%Z in
  map_fold (λ jobId job store,
              if (startedAt job <? oneHourAgo)%Z then delete jobId store else store)
           jobStore jobStore.

(** The period of [setInterval]. *)
Definition sweep_period : Z := 10 * 60 * 1000.

(** When the [k]-th sweep is due, for a server started at [boot]. *)
Definition sweep_due (boot : Z) (k : nat) : Z :=
  (boot + Z.of_nat (S k) * sweep_period)%Z.

(** The temporary identifier of [/api/generate]; [suffix] is
    [Math.random().toString(36).substr(2, 9)]. *)
Definition mint_job_id (now : Z) (suffix : string) : string :=
  "job_" +:+ pretty now +:+ "_" +:+ suffix.

(** Everything that writes to [jobStore]. *)
Inductive StoreEvent : Type :=
| Submitted (tempJobId : string) (now : Z)
| Started (tempJobId : string) (now : Z)
| Settled (tempJobId : string) (now : Z) (r : outcome RunPod.GenerateResult)
| Swept (now : Z).

Definition step (jobStore : gmap string JobRecord) (e : StoreEvent)
  : gmap string JobRecord :=
  match e with
  | Submitted tempJobId now => set_pending tempJobId now jobStore
  | Started tempJobId now => set_processing tempJobId now jobStore
  | Settled tempJobId now r => settle tempJobId now r jobStore
  | Swept now => sweep now jobStore
  end.

Definition run (events : list StoreEvent) (jobStore : gmap string JobRecord)
  : gmap string JobRecord :=
  fold_left step events jobStore.

(** The background task from its [await] on, once the promise of
    [runpodService.execute] has settled with [r]. For a fulfilled promise
    the task stores the completed record at [t_done] and then, still
    inside the [try], calls [incrementKeyUsage] when the request carries a
    key: [counted] is how that call ends ([Ok] also when it is not made).
    When it throws, the [catch] stores the record again, as failed, at
    [t_failed]. For a rejected promise the [catch] stores the failed
    record at [t_done]. Nothing in it awaits: the writes belong to one
    turn. *)
Definition resume (tempJobId : string) (t_done t_failed : Z)
    (r : outcome RunPod.GenerateResult) (counted : outcome unit)
    (jobStore : gmap string JobRecord) : gmap string JobRecord :=
  match r with
  | Ok g =>
      let jobStore := settle tempJobId t_done (Ok g) jobStore in
      match counted with
      | Ok _ => jobStore
      | Throw e => settle tempJobId t_failed (Throw e) jobStore
      end
  | Throw msg => settle tempJobId t_done (Throw msg) jobStore
  end.

(** The job an event writes. *)
Definition written (e : StoreEvent) : option string :=
  match e with
  | Submitted j _ | Started j _ | Settled j _ _ => Some j
  | Swept _ => None
  end.

(** The record an event stores. *)
Definition record_written (e : StoreEvent) : option JobRecord :=
  match e with
  | Submitted _ now =>
      Some {| status := pending; result := None; error := None; startedAt := now |}
  | Started _ now =>
      Some {| status := processing; result := None; error := None; startedAt := now |}
  | Settled _ now (Ok r) =>
      Some {| status := completed; result := Some (completed_result r);
              error := None; startedAt := now |}
  | Settled _ now (Throw msg) =>
      Some {| status := failed; result := None; error := Some msg; startedAt := now |}
  | Swept _ => None
  end.

(** The order [PENDING -> PROCESSING -> (COMPLETED | FAILED)]. *)
Inductive advances : JobStatus → JobStatus → Prop :=
| pending_processing : advances pending processing
| processing_completed : advances processing completed
| processing_failed : advances processing failed.

End Server.

(** ** What the properties are stated with *)

Module Shapes.
Import Js RunPod.




(** A response [{id, status, output}]. *)
Definition response (id : string) (output : JsVal) : JsVal :=
  JObj [("id", JStr id); ("status", JStr "COMPLETED"); ("output", output)].




End Shapes.

(** What [buildWorkflow] writes. *)
Module Targets.
Import Js RunPod.

(** The nodes [buildWorkflow] names. *)
Definition targeted_nodes : list string :=
  ["111"; "110"; "37"; "38"; "39"; "66"; "75"; "3"].

(** The fields of [inputs] it assigns, by node. *)
Definition assigned : list (string * string) :=
  [("111", "text"); ("111", "prompt"); ("110", "text"); ("110", "prompt");
   ("37", "unet_name"); ("37", "weight_dtype");
   ("38", "clip_name"); ("38", "type"); ("39", "vae_name");
   ("66", "shift"); ("75", "strength"); ("3", "seed")].

(** [w'] differs from [w] at most in the fields [allowed] of [inputs]: the
    same node identifiers in the same order, every node not listed
    identical, every node with the same field names and the same fields
    beside [inputs], and inside [inputs] every field not listed as it
    was. *)
Definition changes_only (allowed : list (string * string)) (w w' : JsVal) : Prop :=
  own_keys w' = own_keys w
  ∧ (∀ n, n ∉ allowed.*1 → get_prop w' n = get_prop w n)
  ∧ (∀ n, own_keys (get_prop w' n) = own_keys (get_prop w n))
  ∧ (∀ n f, f ≠ "inputs" →
       get_prop (get_prop w' n) f = get_prop (get_prop w n) f)
  ∧ (∀ n f, (n, f) ∉ allowed → input_of w' n f = input_of w n f).

(** The patches of [buildWorkflow] between the two prompts and the seed,
    as one step. *)
Definition patch_rest (number_to_string : Q → string) (w : JsVal) : outcome JsVal :=
  w ← patch_unet number_to_string w;
  w ← patch_clip number_to_string w;
  w ← patch_vae number_to_string w;
  w ← patch_shift number_to_string w;
  patch_strength number_to_string w.

End Targets.

(** What the poll loops are compared with. *)
Module Signals.
Import Js RunPod.

(** The statuses after which the remote job changes no more. *)
Definition terminal (st : RemoteStatus) : bool :=
  match st with
  | COMPLETED | FAILED | CANCELLED | TIMED_OUT => true
  | IN_QUEUE | IN_PROGRESS => false
  end.

(** A reply that finds the job still queued more than 15 seconds after
    [startTime]. *)
Definition queued_late (startTime : Z) (e : PollEvent) : bool :=
  match e with
  | Observed IN_QUEUE now => (15000 <? now - startTime)%Z
  | _ => false
  end.

(** A trace without warnings, with a warning put after every such reply. *)
Definition with_warnings (startTime : Z) (events : list PollEvent) : list PollEvent :=
  flat_map (λ e, e :: if queued_late startTime e then [ColdStartWarning] else [])
           events.

(** The status queries of a trace. *)
Definition requests (events : list PollEvent) : list PollEvent :=
  filter (λ e, is_request e = true) events.

(** What follows the first reply with a terminal status. *)
Fixpoint after_terminal (events : list PollEvent) : option (RemoteStatus * list PollEvent) :=
  match events with
  | [] => None
  | Observed st now :: rest =>
      if terminal st then Some (st, rest) else after_terminal rest
  | _ :: rest => after_terminal rest
  end.

(** A remote side that answers every query at once with the same job. *)
Definition steady (job : RunPodJob) (i : nat) : PollStep :=
  {| latency := 0; reply := Ok job; oversleep := 0 |}.

Definition cancelled_job : RunPodJob :=
  {| job_id := "r1"; job_status := CANCELLED; job_output := None;
     job_error := Some "cancelled by user" |}.

Definition queued_job : RunPodJob :=
  {| job_id := "r1"; job_status := IN_QUEUE; job_output := None;
     job_error := None |}.

End Signals.

(** Sample inputs, and the reference the rounding is checked against. *)
Module Samples.
Import Js RunPod Signals.

Local Open Scope Z_scope.

(** The product of a double with [1000000000000000], by the multiplication
    of the Standard Library's IEEE 754 model at binary64. *)
Definition stdlib_product (m : positive) (e : Z) : SpecFloat.spec_float :=
  SpecFloat.SFmul 53 1024 (SpecFloat.S754_finite false m e)
                          (SpecFloat.S754_finite false 1000000000000000 0).

Definition same_value (x : Double) (y : SpecFloat.spec_float) : bool :=
  match y with
  | SpecFloat.S754_zero _ => mant x =? 0
  | SpecFloat.S754_finite false m e =>
      let low := Z.min (expo x) e in
      mant x * 2 ^ (expo x - low) =? Z.pos m * 2 ^ (e - low)
  | _ => false
  end.

(** A template with a sampler, a negative prompt and a node the function
    does not name; [Math.random()] returns [1 - 2^-53], then [1/2]. *)
Definition sample_template : JsVal :=
  JObj [("3", JObj [("class_type", JStr "KSampler");
                    ("inputs", JObj [("seed", JNum (inject_Z 42));
                                     ("steps", JNum (inject_Z 4))])]);
        ("110", JObj [("class_type", JStr "CLIPTextEncode");
                      ("inputs", JObj [("text", JStr "blurry")])]);
        ("111", JObj [("class_type", JStr "CLIPTextEncode");
                      ("inputs", JObj [("text", JStr "a dog")])]);
        ("60", JObj [("class_type", JStr "SaveImage");
                     ("inputs", JObj [("filename_prefix", JStr "out")])])].

Definition sample_random (k : nat) : Double :=
  match k with
  | O => {| mant := 2 ^ 53 - 1; expo := -53 |}
  | _ => {| mant := 2 ^ 52; expo := -53 |}
  end.

Definition sample_number_format (q : Q) : string := pretty (Qnum q).

(** A template in the format of the editor: three loaders with a
    [filename], a sampling node whose [value] is 0, and a node 75 whose
    [inputs] is a string. *)
Definition loader_template : JsVal :=
  JObj [("37", JObj [("inputs", JObj [("filename", JStr "qwen_edit.safetensors")])]);
        ("38", JObj [("inputs", JObj [("filename", JStr "qwen_vl.safetensors")])]);
        ("39", JObj [("inputs", JObj [("filename", JStr "qwen_vae.safetensors")])]);
        ("66", JObj [("inputs", JObj [("value", JNum (inject_Z 0))])])].

Definition broken_template : JsVal :=
  JObj [("111", JObj [("inputs", JStr "text")])].

Definition sample_build : outcome JsVal * nat :=
  buildWorkflow sample_number_format (Some sample_template) sample_random 0
    "a red cat" None.

Definition sample_built : JsVal :=
  match sample_build.1 with Ok w => w | Throw _ => JUndefined end.

(** The outcome of a job of one image. *)
Definition sample_result : RunPod.GenerateResult :=
  {| RunPod.success := true; RunPod.jobId := JStr "r1";
     RunPod.message := "Image generation completed successfully";
     RunPod.images := [JStr "aGVsbG8="];
     RunPod.status := Some (JStr "COMPLETED") |}.

(** A job submitted at 0 and completed after 30 minutes. *)
Definition sample_events : list Server.StoreEvent :=
  [Server.Submitted "job_0_k3x9" 0; Server.Started "job_0_k3x9" 0;
   Server.Settled "job_0_k3x9" 1800000 (Ok sample_result)].

(** The scenarios of the specification: queued once, then completed with
    one image; failed at the first poll. *)
Definition completes_second (i : nat) : PollStep :=
  {| latency := 0; oversleep := 0;
     reply := Ok match i with
                 | O => queued_job
                 | _ => {| job_id := "r1"; job_status := COMPLETED;
                           job_output := Some (JObj [("images", JArr [JStr "aGVsbG8="] [])]);
                           job_error := None |}
                 end |}.

Definition fails_first (i : nat) : PollStep :=
  {| latency := 0; oversleep := 0;
     reply := Ok {| job_id := "r1"; job_status := FAILED; job_output := None;
                    job_error := Some "OOM" |} |}.

(** What the background task leaves in the store for a remote side, from
    an empty store: [execute] on the sample template with the prompt
    ["a red cat"] and no image. *)
Definition background (remote : nat → PollStep) : option Server.JobRecord :=
  let run := executeAsync sample_number_format 200 (Some sample_template)
               sample_random 0 "a red cat" None
               (Ok (JObj [("id", JStr "r1")])) remote 0 in
  r ← Server.promise_of run.1.2;
  Server.settle "job_0_k3x9" 5000 r
    (Server.set_processing "job_0_k3x9" 0 (Server.set_pending "job_0_k3x9" 0 ∅))
  !! "job_0_k3x9".

(** A request to [/api/generate], and a [key-limits.json] in which the
    entry of the key [k1] is a number. *)
Definition generate_body : JsVal := JObj [("prompt", JStr "a red cat")].

Definition number_limits : JsVal := JObj [("k1", JNum (inject_Z 5))].

End Samples.

(** What the traces of the poll loops are measured with. *)
Module Traces.
Import Js RunPod.

(** The statuses the loop of [executeAsync] ends on. *)
Definition settles (st : RemoteStatus) : bool :=
  match st with COMPLETED | FAILED => true | _ => false end.

(** The status of the first reply that [stops], and what follows it. *)
Fixpoint after_status (stops : RemoteStatus → bool) (events : list PollEvent)
  : option (RemoteStatus * list PollEvent) :=
  match events with
  | [] => None
  | Observed st now :: rest =>
      if stops st then Some (st, rest) else after_status stops rest
  | _ :: rest => after_status stops rest
  end.

(** When the replies of a trace came. *)
Definition observed_times (events : list PollEvent) : list Z :=
  omap (λ e, match e with Observed _ now => Some now | _ => None end) events.

(** How many polls, one every [interval] ms, fit into what is left of
    [budget] ms once [elapsed] ms are over. *)
Definition polls_left (budget interval elapsed : Z) : nat :=
  Z.to_nat ((budget - elapsed + interval - 1) / interval).

End Traces.

(** What the seed is measured with. *)
Module Draws.
Import RunPod.

Local Open Scope Z_scope.

(** [seed] is within [17/16] of the exact product of [draw], a double
    below one, and [10^15]: [seed <= draw * 10^15 + 1/16] and
    [draw * 10^15 < seed + 1 + 1/16], written without fractions. *)
Definition near_product (seed : Z) (draw : Double) : Prop :=
  let unit := 2 ^ (- expo draw) in
  16 * seed * unit <= 16 * (mant draw * 1000000000000000) + unit
  ∧ 16 * (mant draw * 1000000000000000) < 16 * (seed + 1) * unit + unit.

(** [high - low >= 3 / 10^15], for two doubles below one. *)
Definition apart (low high : Double) : Prop :=
  3 * (2 ^ (- expo low) * 2 ^ (- expo high))
  <= (mant high * 2 ^ (- expo low) - mant low * 2 ^ (- expo high))
     * 1000000000000000.

End Draws.

(** What the callbacks of the normalizer take from one element. *)
Module Picks.
Import Js RunPod.

(** From an element of [output.images]: the string itself, or the truthy
    [data] of anything else. *)
Definition flat_pick (img : JsVal) : option JsVal :=
  if is_string img then Some img
  else if truthy (get_prop img "data") then Some (get_prop img "data")
  else None.

(** From an element of the [images] of a node: as above, or else the
    truthy [image], or else the truthy [base64]. *)
Definition node_pick (img : JsVal) : option JsVal :=
  if is_string img then Some img
  else if truthy (get_prop img "data") then Some (get_prop img "data")
  else if truthy (js_or (get_prop img "image") (get_prop img "base64"))
       then Some (js_or (get_prop img "image") (get_prop img "base64"))
  else None.

(** The first element that is [null] or [undefined]. *)
Definition first_nullish (elems : list JsVal) : option JsVal :=
  snd <$> list_find (λ v, nullish v = true) elems.





End Picks.

(** ** The rest of the RunPod service ([src/runpod.ts]) *)

Module Service.
Import Js RunPod.

(** [Partial<RunPodConfig>], the argument of the constructor. *)
Record PartialConfig : Type := {
  given_apiKey : option string;
  given_endpointId : option string;
  given_baseUrl : option string
}.

(** The variables of [process.env] the constructor reads. *)
Record Environment : Type := {
  RUNPOD_API_KEY : option string;
  RUNPOD_ENDPOINT_ID : option string;
  RUNPOD_API_URL : option string
}.

(** [interface RunPodConfig], every field set. *)
Record RunPodConfig : Type := {
  apiKey : string;
  endpointId : string;
  baseUrl : string
}.

(** The fields of [class RunPodService]. *)
Record RunPodService : Type := {
  config : RunPodConfig;
  service_baseUrl : string;
  workflowPath : string
}.

(** [a || b] for a string that may be [undefined]: the empty string is
    falsy. *)
Definition or_string (a : option string) (b : string) : string :=
  match a with
  | Some s => if String.eqb s EmptyString then b else s
  | None => b
  end.

(** [config?.field] *)
Definition given {A : Type} (config : option PartialConfig)
    (field : PartialConfig → option A) : option A :=
  config ≫= field.

(** [new RunPodService(config, workflowPath)]; [default_path] is
    [path.join(__dirname, '../workflow-image-edit.json')]. *)
Definition constructor (env : Environment) (default_path : string)
    (config : option PartialConfig) (workflowPath : option string)
  : outcome RunPodService :=
  let cfg :=
    {| apiKey := or_string (given config given_apiKey)
                   (or_string (RUNPOD_API_KEY env) EmptyString);
       endpointId := or_string (given config given_endpointId)
                       (or_string (RUNPOD_ENDPOINT_ID env) EmptyString);
       baseUrl := or_string (given config given_baseUrl)
                    (or_string (RUNPOD_API_URL env) "https://api.runpod.ai/v2") |} in
  if String.eqb (apiKey cfg) EmptyString then Throw "RunPod API key is required"
  else if String.eqb (endpointId cfg) EmptyString
  then Throw "RunPod endpoint ID is required"
  else Ok {| config := cfg;
             service_baseUrl := baseUrl cfg +:+ "/" +:+ endpointId cfg;
             workflowPath := or_string workflowPath default_path |}.

(** [init()] *)
Definition init (service : RunPodService) : outcome bool :=
  if String.eqb (apiKey (config service)) EmptyString
     || String.eqb (endpointId (config service)) EmptyString
  then Throw "RunPod API key and Endpoint ID are required"
  else Ok true.

(** [getHeaders()] *)
Definition getHeaders (service : RunPodService) : list (string * string) :=
  [("Authorization", "Bearer " +:+ apiKey (config service));
   ("Content-Type", "application/json")].

(** The address [getJobStatus] asks. *)
Definition status_url (service : RunPodService) (jobId : string) : string :=
  service_baseUrl service +:+ "/status/" +:+ jobId.

Definition image_name : string := "image_qwen_image_edit_2509_input_image.png".

(** [imageBase64.startsWith('data:') ? imageBase64 : `data:image/png;base64,${imageBase64}`] *)
Definition data_uri (imageBase64 : string) : string :=
  if String.prefix "data:" imageBase64 then imageBase64
  else "data:image/png;base64," +:+ imageBase64.

(** The body [executeSync] posts to [/runsync]: the image is there when
    the argument is a string that is not empty. *)
Definition executeSync_payload (workflow : JsVal) (imageBase64 : option string)
  : JsVal :=
  let payload := JObj [("input", JObj [("workflow", workflow)])] in
  match imageBase64 with
  | Some img =>
      if String.eqb img EmptyString then payload
      else
        put_prop payload "input"
          (put_prop (get_prop payload "input") "images"
             (JArr [JObj [("name", JStr image_name);
                          ("image", JStr (data_uri img))]] []))
  | None => payload
  end.

(** The body [executeAsync] posts to [/run]. *)
Definition executeAsync_payload (workflow : JsVal) (imageBase64 : option string)
  : JsVal :=
  JObj [("input",
         JObj [("workflow", workflow);
               ("images",
                match imageBase64 with
                | Some img =>
                    if String.eqb img EmptyString then JUndefined
                    else JArr [JObj [("name", JStr image_name);
                                     ("image", JStr img)]] []
                | None => JUndefined
                end)])].

(** The image of a body: the [image] of the first of [input.images]. *)
Definition posted_image (payload : JsVal) : JsVal :=
  get_prop (get_prop (get_prop (get_prop payload "input") "images") "0") "image".

(** The [try] of [executeSync] once the body is built: [post] is
    [response.data], [Throw] when [axios.post] failed. The logging reads
    [data.id] before the normalizer is called. *)
Definition executeSync_try (post : outcome JsVal) : Completion :=
  match post with
  | Throw e => Thrown e
  | Ok data =>
      match read_prop data "id" with
      | Throw e => Thrown e
      | Ok _ => completion_of (processOutput data)
      end
  end.

(** [executeSync(prompt, imageBase64)]: what is posted, how the call
    ends, and the calls of [Math.random()] so far. *)
Definition executeSync (number_to_string : Q → string)
    (workflowData : option JsVal) (random : nat → Double) (calls : nat)
    (prompt : string) (imageBase64 : option string) (post : outcome JsVal)
  : option JsVal * Completion * nat :=
  match buildWorkflow number_to_string workflowData random calls prompt imageBase64 with
  | (Throw e, calls') => (None, Thrown e, calls')
  | (Ok workflow, calls') =>
      (Some (executeSync_payload workflow imageBase64),
       execution_failed (executeSync_try post), calls')
  end.

(** What [executeAsync] posts, beside how it ends. *)
Definition executeAsync_posted (number_to_string : Q → string)
    (workflowData : option JsVal) (random : nat → Double) (calls : nat)
    (prompt : string) (imageBase64 : option string) : option JsVal :=
  match buildWorkflow number_to_string workflowData random calls prompt imageBase64 with
  | (Throw _, _) => None
  | (Ok workflow, _) => Some (executeAsync_payload workflow imageBase64)
  end.

(** [editImage(imageBase64, editPrompt)] calls [execute], which calls
    [executeAsync], with the arguments swapped round. *)
Definition editImage (number_to_string : Q → string) (fuel : nat)
    (workflowData : option JsVal) (random : nat → Double) (calls : nat)
    (imageBase64 editPrompt : string)
    (post : outcome JsVal) (remote : nat → PollStep) (startTime : Z)
  : list PollEvent * Completion * nat :=
  executeAsync number_to_string fuel workflowData random calls editPrompt
    (Some imageBase64) post remote startTime.

End Service.

(** [buildWorkflow] seen from one node. *)
Module NodeView.
Import Js RunPod.

(** [node && node.inputs] *)
Definition node_has_inputs (node : JsVal) : bool :=
  truthy node && truthy (get_prop node "inputs").

(** [node.inputs[f]] *)
Definition node_input (node : JsVal) (f : string) : JsVal :=
  get_prop (get_prop node "inputs") f.

(** The node after [node.inputs[f] = v]. *)
Definition assign_inputs (node : JsVal) (f : string) (v : JsVal) : JsVal :=
  put_prop node "inputs" (put_prop (get_prop node "inputs") f v).

(** Whether [buildWorkflow] assigns to the node with identifier [n]: the
    condition of the [if] that names [n], none for other identifiers. *)
Definition patched (n : string) (node : JsVal) : bool :=
  if String.eqb n "111" || String.eqb n "110" || String.eqb n "3"
  then node_has_inputs node
  else if String.eqb n "37" || String.eqb n "38" || String.eqb n "39"
  then node_has_inputs node && truthy (node_input node "filename")
  else if String.eqb n "66" || String.eqb n "75"
  then node_has_inputs node && defined (node_input node "value")
  else false.

(** What [buildWorkflow] makes of the node with identifier [n]. *)
Definition built_node (prompt : string) (seed : Z) (n : string) (node : JsVal)
  : JsVal :=
  if negb (patched n node) then node
  else if String.eqb n "111" then
    assign_inputs (assign_inputs node "text" (JStr prompt)) "prompt" (JStr prompt)
  else if String.eqb n "110" then
    assign_inputs (assign_inputs node "text" (JStr EmptyString))
      "prompt" (JStr EmptyString)
  else if String.eqb n "37" then
    assign_inputs (assign_inputs node "unet_name" (node_input node "filename"))
      "weight_dtype" (JStr "default")
  else if String.eqb n "38" then
    assign_inputs (assign_inputs node "clip_name" (node_input node "filename"))
      "type" (JStr "qwen_image")
  else if String.eqb n "39" then
    assign_inputs node "vae_name" (node_input node "filename")
  else if String.eqb n "66" then
    assign_inputs node "shift" (node_input node "value")
  else if String.eqb n "75" then
    assign_inputs node "strength" (node_input node "value")
  else
    assign_inputs node "seed" (JNum (inject_Z seed)).

End NodeView.

(** ** The handlers of the server ([src/server.ts]) *)

Module Handlers.
Import Js RunPod Server.

(** What [GET /api/status/:jobId] sends: the record of the store, else what
    RunPod says of the identifier, else status 500 with the message. *)
Inductive StatusAnswer : Type :=
| FromStore (jobId : string) (st : JobStatus) (result : option JobResult)
    (error : option string)
| FromRunPod (job : RunPodJob)
| StatusFailed (details : string).

(** The handler of [/api/status/:jobId]; [remote] is the reply RunPod
    would give. *)
Definition status_handler (jobId : string) (jobStore : gmap string JobRecord)
    (remote : PollStep) : StatusAnswer :=
  match jobStore !! jobId with
  | Some job => FromStore jobId (status job) (result job) (error job)
  | None =>
      match getJobStatus remote with
      | Ok job => FromRunPod job
      | Throw e => StatusFailed e
      end
  end.

(** What [POST /api/generate] sends. *)
Inductive GenerateAnswer : Type :=
| PromptRequired
| StartFailed (details : string)
| JobStarted (jobId : string) (status : string).

(** The call [runpodService.execute(prompt, image)] the handler leaves
    running. *)
Record Background : Type := {
  bg_job : string;
  bg_prompt : JsVal;
  bg_image : JsVal
}.

(** [v.substring(0, 50)] for a truthy value [v] of a JSON body, where
    [name] is the variable that holds it. *)
Definition substring_50 (name : string) (v : JsVal) : outcome string :=
  match v with
  | JStr s => Ok (String.substring 0 50 s)
  | _ => Throw (name +:+ ".substring is not a function")
  end.

(** The statements of the handler of [/api/generate] and of the
    background task it starts, as far as the call of
    [runpodService.execute]: the destructuring of [req.body], the two
    answers that start nothing, then the identifier, the pending record,
    the answer, and the first write of the background task. [t_id],
    [t_pending] and [t_processing] are what the three calls of
    [Date.now()] return; [suffix] is
    [Math.random().toString(36).substr(2, 9)]. What the call of [execute]
    adds to the same turn is in [generate_turn] below. *)
Definition generate_handler (body : JsVal) (t_id t_pending t_processing : Z)
    (suffix : string) (jobStore : gmap string JobRecord)
  : outcome (GenerateAnswer * gmap string JobRecord * option Background) :=
  prompt ← read_prop body "prompt";
  image ← read_prop body "image";
  if negb (truthy prompt) then Ok (PromptRequired, jobStore, None)
  else
    match substring_50 "prompt" prompt with
    | Throw e => Ok (StartFailed e, jobStore, None)
    | Ok _ =>
        let tempJobId := mint_job_id t_id suffix in
        let jobStore := set_pending tempJobId t_pending jobStore in
        let answer := JobStarted tempJobId "pending" in
        let jobStore := set_processing tempJobId t_processing jobStore in
        Ok (answer, jobStore,
            Some {| bg_job := tempJobId; bg_prompt := prompt; bg_image := image |})
    end.

(** The rejection of [execute] that waits for nothing: [buildWorkflow],
    the first thing [executeAsync] does and outside its [try], throws, and
    the promise is rejected with that error as it is. [built] is what
    [buildWorkflow] gives. *)
Definition rejected_at_once (built : outcome JsVal * nat) : option string :=
  match built.1 with
  | Throw e => Some e
  | Ok _ => None
  end.

(** The whole turn of a request to [/api/generate], up to the point where
    another request can be served: the statements above, then the call
    [runpodService.execute(prompt, image)], which begins with
    [buildWorkflow(prompt, image)] (the image is not used by it). When the
    promise of [execute] is rejected at once, the [await] of the
    background task throws in the microtasks of the same turn and its
    [catch] stores the record as failed, at [t_failed]; otherwise the task
    waits for the answer of RunPod and the turn ends on the processing
    record. The handler starts the task for a prompt that is a string
    only. *)
Definition generate_turn (number_to_string : Q → string)
    (workflowData : option JsVal) (random : nat → Double) (calls : nat)
    (body : JsVal) (t_id t_pending t_processing t_failed : Z)
    (suffix : string) (jobStore : gmap string JobRecord)
  : outcome (GenerateAnswer * gmap string JobRecord * option Background) :=
  started ← generate_handler body t_id t_pending t_processing suffix jobStore;
  match started.2 with
  | Some background =>
      match bg_prompt background with
      | JStr prompt =>
          match rejected_at_once
                  (buildWorkflow number_to_string workflowData random calls
                     prompt None) with
          | Some e =>
              Ok (started.1.1,
                  settle (bg_job background) t_failed (Throw e) started.1.2,
                  None)
          | None => Ok started
          end
      | _ => Ok started
      end
  | None => Ok started
  end.

(** The statement [limits[apiKey].used += 1] of [incrementKeyUsage]
    ([src/auth.ts]), on the parsed file as it is; [sum] is the value of
    [limits[apiKey].used + 1]. The module is strict code: the assignment
    throws when the entry of the key is a number, a string or [true]. *)
Definition count_use (number_to_string : Q → string) (limits : JsVal)
    (apiKey : string) (sum : JsVal) : outcome unit :=
  let entry := get_prop limits apiKey in
  if truthy entry then
    _ ← assign_prop number_to_string entry "used" sum; Ok ()
  else Ok ().

(** What the handler of [/api/generate-dual] does before it awaits:
    it answers 400, or 500 for a prompt that is not a string, or calls
    [runpodService.execute(prompt1, prompt2)]. *)
Inductive DualStart : Type :=
| BothRequired
| DualFailed (details : string)
| DualExecute (prompt imageBase64 : JsVal).

Definition generate_dual_handler (body : JsVal) : outcome DualStart :=
  prompt1 ← read_prop body "prompt1";
  prompt2 ← read_prop body "prompt2";
  if negb (truthy prompt1) || negb (truthy prompt2) then Ok BothRequired
  else
    match substring_50 "prompt1" prompt1 with
    | Throw e => Ok (DualFailed e)
    | Ok _ =>
        match substring_50 "prompt2" prompt2 with
        | Throw e => Ok (DualFailed e)
        | Ok _ => Ok (DualExecute prompt1 prompt2)
        end
    end.

End Handlers.

(** ** The keys and their quota ([src/auth.ts])

    [key-limits.json] holds one entry [{name, limit, used}] per key, with
    whole numbers, which [JSON.parse] reads as doubles; a limit of [-1]
    means no limit. *)

Module Auth.
Import Js.

Local Open Scope Z_scope.

Record KeyData : Type := {
  name : string;
  limit : Z;
  used : Z
}.

(** The double a sum or a difference of two whole doubles is rounded to:
    the nearest, ties to even. Up to [2 ^ 53] every whole number is a
    double. *)
Definition nearest_double (x : Z) : Z :=
  Z.sgn x * RunPod.double_floor (RunPod.round_to_double (Z.abs x) 0).

(** The file on disk: not there; there, but reading it or [JSON.parse]
    throws; or an object of entries. *)
Inductive LimitsFile : Type :=
| Missing
| Unreadable
| Parsed (limits : gmap string KeyData).

(** [loadKeyLimits()] *)
Definition loadKeyLimits (file : LimitsFile) : gmap string KeyData :=
  match file with
  | Parsed limits => limits
  | Missing | Unreadable => ∅
  end.

(** [saveKeyLimits(limits)]; [written] tells whether [writeFileSync]
    returned, the [catch] drops the error when it did not. *)
Definition saveKeyLimits (written : bool) (limits : gmap string KeyData)
    (file : LimitsFile) : LimitsFile :=
  if written then Parsed limits else file.

(** The names every object inherits: [limits[apiKey]] is truthy for them
    although the file has no such entry. *)
Definition object_prototype : list string :=
  ["constructor"; "__defineGetter__"; "__defineSetter__"; "hasOwnProperty";
   "__lookupGetter__"; "__lookupSetter__"; "isPrototypeOf";
   "propertyIsEnumerable"; "toString"; "valueOf"; "__proto__";
   "toLocaleString"].

(** [limits[apiKey]] *)
Inductive Entry : Type :=
| Own (keyData : KeyData)
| Inherited
| Absent.

Definition entry (limits : gmap string KeyData) (apiKey : string) : Entry :=
  match limits !! apiKey with
  | Some keyData => Own keyData
  | None => if bool_decide (apiKey ∈ object_prototype) then Inherited else Absent
  end.

(** The result of [checkKeyLimit]; [remaining] is [None] for [NaN]. *)
Record LimitCheck : Type := {
  allowed : bool;
  remaining : option Z;
  message : option string
}.

(** [checkKeyLimit(apiKey)] *)
Definition checkKeyLimit (file : LimitsFile) (apiKey : string) : LimitCheck :=
  match entry (loadKeyLimits file) apiKey with
  | Absent => {| allowed := true; remaining := Some (-1); message := None |}
  | Inherited => {| allowed := true; remaining := None; message := None |}
  | Own keyData =>
      if limit keyData =? -1 then
        {| allowed := true; remaining := Some (-1); message := None |}
      else if used keyData >=? limit keyData then
        {| allowed := false; remaining := Some 0;
           message := Some ("API key limit exceeded. Used " +:+ pretty (used keyData)
                            +:+ "/" +:+ pretty (limit keyData) +:+ " requests.") |}
      else
        {| allowed := true;
           remaining := Some (nearest_double (limit keyData - used keyData));
           message := None |}
  end.

(** [incrementKeyUsage(apiKey)] *)
Definition incrementKeyUsage (written : bool) (apiKey : string)
    (file : LimitsFile) : LimitsFile :=
  let limits := loadKeyLimits file in
  match entry limits apiKey with
  | Own keyData =>
      saveKeyLimits written
        (<[apiKey := {| name := name keyData; limit := limit keyData;
                        used := nearest_double (used keyData + 1) |}]> limits)
        file
  | Inherited => saveKeyLimits written limits file
  | Absent => file
  end.

(** How the middleware ends: [next()], with what it attached to the
    request, or an answer. *)
Inductive AuthOutcome : Type :=
| Next (apiKey : option string) (remainingQuota : option (option Z))
| Denied (code : nat) (error : string) (message : option string).

(** [authenticateApiKey(req, res, next)]: [path] is [req.path], [header]
    is [req.headers['x-api-key']] and [query_key] is [req.query.key]. *)
Definition authenticateApiKey (VALID_API_KEYS : gset string) (file : LimitsFile)
    (path : string) (header query_key : JsVal) : AuthOutcome :=
  if String.eqb path "/api/health" then Next None None
  else
    let apiKey := js_or header query_key in
    match apiKey with
    | JStr key =>
        if negb (truthy apiKey) then
          Denied 401 "Authentication required" (Some "Please provide x-api-key header")
        else if negb (bool_decide (key ∈ VALID_API_KEYS)) then
          Denied 403 "Invalid API Key" (Some "Access denied")
        else
          let isStatusOrQuotaCheck :=
            String.prefix "/api/status" path || String.eqb path "/api/quota" in
          if negb isStatusOrQuotaCheck then
            let limitCheck := checkKeyLimit file key in
            if negb (allowed limitCheck) then
              Denied 429 "Rate limit exceeded" (message limitCheck)
            else Next (Some key) (Some (remaining limitCheck))
          else Next (Some key) None
    | _ => Denied 401 "Authentication required" (Some "Please provide x-api-key header")
    end.

(** What [GET /api/quota] sends. *)
Inductive QuotaAnswer : Type :=
| NoKey
| QuotaFailed
| Quota (apiKeyName : string) (limit used remaining : Z) (unlimited : bool)
| QuotaOfInherited.

(** The handler of [/api/quota], which reads the file on its own;
    [apiKey] is what the middleware attached. *)
Definition quota_handler (file : LimitsFile) (apiKey : option string)
  : QuotaAnswer :=
  match apiKey with
  | None => NoKey
  | Some key =>
      if String.eqb key EmptyString then NoKey
      else
        match file with
        | Unreadable => QuotaFailed
        | Missing => Quota "Unknown" (-1) 0 (-1) true
        | Parsed limits =>
            match entry limits key with
            | Absent => Quota "Unknown" (-1) 0 (-1) true
            | Inherited => QuotaOfInherited
            | Own keyData =>
                Quota (name keyData) (limit keyData) (used keyData)
                  (if limit keyData =? -1 then -1
                   else nearest_double (limit keyData - used keyData))
                  (limit keyData =? -1)
            end
        end
  end.



End Auth.

(** ** Properties and assignment *)

Module JsFacts.
Import Js.

Lemma assoc_get_set_eq (k : string) (v : JsVal) (fs : list (string * JsVal)) :
  assoc_get k (assoc_set k v fs) = Some v.
Proof.
  induction fs as [|[k' v'] fs IH]; simpl.
  - by rewrite String.eqb_refl.
  - destruct (String.eqb_spec k k') as [->|Hne]; simpl.
    + by rewrite String.eqb_refl.
    + destruct (String.eqb_spec k k'); [done | exact IH].
Qed.

Lemma assoc_get_set_ne (k k' : string) (v : JsVal) (fs : list (string * JsVal)) :
  k ≠ k' → assoc_get k' (assoc_set k v fs) = assoc_get k' fs.
Proof.
  intros Hne. induction fs as [|[k0 v0] fs IH]; simpl.
  - destruct (String.eqb_spec k' k); [congruence | done].
  - destruct (String.eqb_spec k k0) as [->|Hk]; simpl.
    + destruct (String.eqb_spec k' k0); [congruence | done].
    + destruct (String.eqb_spec k' k0); [done | exact IH].
Qed.

Lemma assoc_set_same (k : string) (v : JsVal) (fs : list (string * JsVal)) :
  assoc_get k fs = Some v → assoc_set k v fs = fs.
Proof.
  induction fs as [|[k' v'] fs IH]; simpl; [done|].
  destruct (String.eqb_spec k k') as [->|Hne].
  - by intros [= ->].
  - intros H. by rewrite IH.
Qed.

Lemma assoc_set_keys (k : string) (v v0 : JsVal) (fs : list (string * JsVal)) :
  assoc_get k fs = Some v0 → fst <$> assoc_set k v fs = fst <$> fs.
Proof.
  induction fs as [|[k' v'] fs IH]; simpl; [done|].
  destruct (String.eqb_spec k k') as [->|Hne].
  - done.
  - intros H. rewrite !fmap_cons. f_equal. by apply IH.
Qed.

Lemma index_of_key_Some (len : nat) (k : string) (i : nat) :
  index_of_key len k = Some i → pretty (N.of_nat i) = k ∧ i < len.
Proof.
  unfold index_of_key. destruct k as [|c k]; [done|].
  destruct (parse_digits (String c k) 0) as [n|]; simpl; [|done].
  destruct (N.ltb_spec n (N.of_nat len)) as [Hlt|]; simpl; [|done].
  case_bool_decide as Hp; [|done].
  intros [= <-]. rewrite N2Nat.id. split; [done | lia].
Qed.

Lemma index_of_key_inj (len len' : nat) (k k' : string) (i : nat) :
  index_of_key len k = Some i → index_of_key len' k' = Some i → k = k'.
Proof.
  intros [H1 _]%index_of_key_Some [H2 _]%index_of_key_Some. congruence.
Qed.

Lemma index_of_key_insert (elems : list JsVal) (i : nat) (v : JsVal) (k : string) :
  index_of_key (length (<[i := v]> elems)) k = index_of_key (length elems) k.
Proof. by rewrite length_insert. Qed.

Lemma get_container_base (b : JsVal) (k : string) :
  is_container (get_prop b k) = true → is_container b = true.
Proof.
  destruct b; simpl; try done.
  destruct (index_of_key _ k).
  - by destruct (String.get _ _).
  - by destruct (String.eqb k "length").
Qed.

Lemma get_has_own (b : JsVal) (k : string) :
  is_container (get_prop b k) = true → has_own b k (get_prop b k).
Proof.
  destruct b as [| | | |s|elems extra|fs]; simpl; try done.
  - destruct (index_of_key _ k).
    + by destruct (String.get _ _).
    + by destruct (String.eqb k "length").
  - destruct (index_of_key _ k) as [i|].
    + by destruct (elems !! i).
    + destruct (String.eqb k "length"); [done|].
      by destruct (assoc_get k extra).
  - by destruct (assoc_get k fs).
Qed.

Lemma has_own_get (b : JsVal) (k : string) (v : JsVal) :
  has_own b k v → k ≠ "length" → get_prop b k = v.
Proof.
  destruct b as [| | | |s|elems extra|fs]; simpl; try done.
  - destruct (index_of_key _ k) as [i|]; [by intros ->|].
    intros -> Hk. by destruct (String.eqb_spec k "length").
  - by intros ->.
Qed.

Lemma has_own_put (b : JsVal) (k : string) (v : JsVal) :
  is_container b = true → has_own (put_prop b k v) k v.
Proof.
  destruct b as [| | | | |elems extra|fs]; simpl; try done; intros _.
  - destruct (index_of_key (length elems) k) as [i|] eqn:Hi; simpl.
    + rewrite length_insert, Hi. apply list_lookup_insert_eq.
      by apply index_of_key_Some in Hi as [_ ?].
    + rewrite Hi. apply assoc_get_set_eq.
  - apply assoc_get_set_eq.
Qed.

Lemma has_own_put_ne (b : JsVal) (k k' : string) (v v' : JsVal) :
  k ≠ k' → has_own b k' v' → has_own (put_prop b k v) k' v'.
Proof.
  intros Hne. destruct b as [| | | | |elems extra|fs]; simpl; try done.
  - destruct (index_of_key (length elems) k) as [i|] eqn:Hi; simpl.
    + rewrite length_insert.
      destruct (index_of_key (length elems) k') as [j|] eqn:Hj; [|done].
      intros H. rewrite list_lookup_insert_ne; [done|].
      intros ->. by apply Hne, (index_of_key_inj _ _ _ _ _ Hi Hj).
    + destruct (index_of_key (length elems) k'); [done|].
      by rewrite assoc_get_set_ne.
  - by rewrite assoc_get_set_ne.
Qed.

Lemma put_has_own (b : JsVal) (k : string) (v : JsVal) :
  has_own b k v → put_prop b k v = b.
Proof.
  destruct b as [| | | | |elems extra|fs]; simpl; try done.
  - destruct (index_of_key (length elems) k) as [i|].
    + intros H. by rewrite list_insert_id.
    + intros H. by rewrite assoc_set_same.
  - intros H. by rewrite assoc_set_same.
Qed.

Lemma get_put_ne (b : JsVal) (k k' : string) (v : JsVal) :
  k ≠ k' → get_prop (put_prop b k v) k' = get_prop b k'.
Proof.
  intros Hne. destruct b as [| | | | |elems extra|fs]; simpl; try done.
  - destruct (index_of_key (length elems) k) as [i|] eqn:Hi; simpl.
    + rewrite length_insert.
      destruct (index_of_key (length elems) k') as [j|] eqn:Hj; [|done].
      rewrite list_lookup_insert_ne; [done|].
      intros ->. by apply Hne, (index_of_key_inj _ _ _ _ _ Hi Hj).
    + destruct (index_of_key (length elems) k'); [done|].
      by rewrite assoc_get_set_ne.
  - by rewrite assoc_get_set_ne.
Qed.

Lemma get_put_eq (b : JsVal) (k : string) (v : JsVal) :
  is_container b = true → k ≠ "length" → get_prop (put_prop b k v) k = v.
Proof.
  intros Hb Hk. apply has_own_get; [by apply has_own_put | done].
Qed.

Lemma get_put_back (b : JsVal) (k : string) (v : JsVal) :
  is_container (get_prop b k) = true → get_prop (put_prop b k v) k = v.
Proof.
  intros Hc. pose proof (get_container_base _ _ Hc) as Hb.
  destruct b as [| | | | |elems extra|fs]; simpl in *; try done.
  - destruct (index_of_key (length elems) k) as [i|] eqn:Hi; simpl.
    + rewrite length_insert, Hi. rewrite list_lookup_insert_eq; [done|].
      by apply index_of_key_Some in Hi as [_ ?].
    + rewrite Hi. destruct (String.eqb k "length"); [done|].
      by rewrite assoc_get_set_eq.
  - by rewrite assoc_get_set_eq.
Qed.

Lemma keys_put (b : JsVal) (k : string) (v v0 : JsVal) :
  has_own b k v0 → own_keys (put_prop b k v) = own_keys b.
Proof.
  destruct b as [| | | | |elems extra|fs]; simpl; try done.
  - destruct (index_of_key (length elems) k) as [i|]; simpl.
    + intros _. by rewrite length_insert.
    + intros H. by rewrite (assoc_set_keys _ _ v0).
  - intros H. by rewrite (assoc_set_keys _ _ v0).
Qed.

Lemma container_put (b : JsVal) (k : string) (v : JsVal) :
  is_container (put_prop b k v) = is_container b.
Proof.
  destruct b as [| | | | |elems extra|fs]; simpl; try done.
  by destruct (index_of_key (length elems) k).
Qed.

Lemma container_truthy (v : JsVal) : is_container v = true → truthy v = true.
Proof. by destruct v. Qed.

End JsFacts.

(** ** The result normalizer *)

Module Normalizer.
Import Js RunPod Shapes.

Lemma forEach_app {A S : Type} (body : S → A → outcome S) (l1 l2 : list A) (s : S) :
  forEach body (l1 ++ l2) s = forEach body l1 s ≫= forEach body l2.
Proof.
  revert s. induction l1 as [|x l1 IH]; intros s; simpl; [done|].
  destruct (body s x) as [s'|e]; simpl; [apply IH | done].
Qed.














(** C10. For a response that is an object (any value but [null] and
    [undefined]): when the search for images raises nothing the result is
    a success with the fixed message and the images found, none when there
    is no [output] or nothing in it is an image; when the search throws the
    result is a failure with no images and the message of the exception;
    and [success] is false exactly in that case. *)
Theorem processOutput_success_unless_thrown (data : JsVal) :
  nullish data = false →
  (∀ imgs, extract_images data = Ok imgs →
     processOutput data
     = Ok {| success := true; jobId := get_prop data "id";
             message := "Image generation completed successfully";
             images := imgs; status := Some (get_prop data "status") |})
  ∧ (∀ msg, extract_images data = Throw msg →
       processOutput data
       = Ok {| success := false; jobId := get_prop data "id";
               message := "Failed to process output: " +:+ msg;
               images := []; status := None |})
  ∧ (truthy (get_prop data "output") = false → extract_images data = Ok [])
  ∧ (get_prop data "output" = JObj [] → extract_images data = Ok [])
  ∧ (∃ r, processOutput data = Ok r
          ∧ (success r = false ↔ ∃ msg, extract_images data = Throw msg)).
Proof.
  intros Hn.
  assert (Hread : ∀ k, read_prop data k = Ok (get_prop data k)).
  { intros k. unfold read_prop. by rewrite Hn. }
  assert (Hok : ∀ imgs, extract_images data = Ok imgs →
     processOutput data
     = Ok {| success := true; jobId := get_prop data "id";
             message := "Image generation completed successfully";
             images := imgs; status := Some (get_prop data "status") |}).
  { intros imgs He. unfold processOutput, processOutput_try.
    rewrite He. simpl. by rewrite !Hread. }
  assert (Hthrow : ∀ msg, extract_images data = Throw msg →
       processOutput data
       = Ok {| success := false; jobId := get_prop data "id";
               message := "Failed to process output: " +:+ msg;
               images := []; status := None |}).
  { intros msg He. unfold processOutput, processOutput_try.
    rewrite He. simpl. by rewrite Hread. }
  split; [exact Hok|]. split; [exact Hthrow|]. split; [|split].
  - intros Hf. unfold extract_images. rewrite Hread. simpl. by rewrite Hf.
  - intros Ho. unfold extract_images. rewrite Hread. simpl. by rewrite Ho.
  - destruct (extract_images data) as [imgs|msg] eqn:He.
    + eexists. split; [by apply Hok|]. simpl. split; [done | by intros [? ?]].
    + eexists. split; [by apply Hthrow|]. simpl. split; [by exists msg | done].
Qed.

(** A response without [output], and one whose second image is [null]:
    the image pushed before the exception is not returned. *)
Lemma processOutput_success_unless_thrown_witness :
  processOutput (JObj [("id", JStr "r1"); ("status", JStr "COMPLETED")])
  = Ok {| success := true; jobId := JStr "r1";
          message := "Image generation completed successfully";
          images := []; status := Some (JStr "COMPLETED") |}
  ∧ processOutput (response "r1" (JObj [("images", JArr [JStr "a"; JNull] [])]))
    = Ok {| success := false; jobId := JStr "r1";
            message := "Failed to process output: Cannot read properties of null (reading 'data')";
            images := []; status := None |}.
Proof.
  split.
  - apply (proj1 (processOutput_success_unless_thrown
                    (JObj [("id", JStr "r1"); ("status", JStr "COMPLETED")])
                    eq_refl)).
    reflexivity.
  - apply (proj1 (proj2 (processOutput_success_unless_thrown
                    (response "r1" (JObj [("images", JArr [JStr "a"; JNull] [])]))
                    eq_refl))).
    reflexivity.
Defined.

End Normalizer.

(** ** The random seed *)

Module Seed.
Import Js RunPod Samples.

Local Open Scope Z_scope.

(** [round_to_double] agrees with that multiplication on a sample of
    doubles below one: the largest, ties, a subnormal, small ones. *)
Example round_to_double_agrees :
  forallb (λ '(m, e), same_value (round_to_double (Z.pos m * 1000000000000000) e)
                                 (stdlib_product m e))
    [(9007199254740991%positive, -53); (9007199254740990%positive, -53);
     (4503599627370496%positive, -53); (4503599627370497%positive, -53);
     (1%positive, -1074); (3%positive, -60); (6004799503160661%positive, -54);
     (7205759403792794%positive, -56); (123456789%positive, -30);
     (4503599627370496%positive, -1074); (8106479329266893%positive, -53);
     (5%positive, -55); (4503599627370499%positive, -100);
     (9007199254740991%positive, -54); (6369051672525773%positive, -53)]
  = true.
Proof. vm_compute. reflexivity. Qed.

Lemma rounded_up_below (P H T q r n : Z) :
  0 < H -> P = 2 * H -> 0 < T -> H <= 2 ^ 49 ->
  n = q * P + r -> 0 <= r < P -> H <= r ->
  n <= (P * T - 1) * 1000000000000000 ->
  q + 1 < 1000000000000000 * T.
Proof.
  intros HH HP HT Hb Hn Hr Hhr Hle.
  assert (E49 : 2 ^ 49 = 562949953421312) by reflexivity.
  destruct (Z_lt_le_dec (q + 1) (1000000000000000 * T)) as [|Hge]; [assumption|].
  exfalso.
  assert ((1000000000000000 * T - 1) * P <= q * P) by (apply Z.mul_le_mono_nonneg_r; lia).
  nia.
Qed.

Lemma rounded_down_below (P T q r n : Z) :
  0 < P -> 0 < T -> n = q * P + r -> 0 <= r < P ->
  n <= (P * T - 1) * 1000000000000000 ->
  q < 1000000000000000 * T.
Proof.
  intros HP HT Hn Hr Hle.
  destruct (Z_lt_le_dec q (1000000000000000 * T)) as [|Hge]; [assumption|].
  exfalso.
  assert ((1000000000000000 * T) * P <= q * P) by (apply Z.mul_le_mono_nonneg_r; lia).
  nia.
Qed.

Lemma random_seed_range (draw : Double) :
  double_valid draw -> below_one draw ->
  0 <= random_seed draw < 1000000000000000.
Proof.
  intros [[Hm0 Hm53] [He1 He2]] [He Hm].
  unfold random_seed, round_to_double, double_floor.
  set (m := mant draw) in *. set (e := expo draw) in *.
  set (n := m * 1000000000000000).
  set (E := - e) in *.
  assert (HE : 0 < E <= 1074) by (unfold E; lia).
  assert (HpE : 0 < 2 ^ E) by (apply Z.pow_pos_nonneg; lia).
  assert (Hn0 : 0 <= n) by (unfold n; lia).
  assert (HnE : n <= (2 ^ E - 1) * 1000000000000000) by (unfold n; nia).
  set (s := Z.max (Z.log2 n + 1 - 53) (-1074 - e)).
  destruct (Z.leb_spec s 0) as [Hs|Hs]; cbn [mant expo].
  - destruct (Z.leb_spec 0 e) as [|_]; [lia|]. fold E.
    split; [apply Z.div_pos; lia|].
    apply Z.div_lt_upper_bound; [lia|]. nia.
  - assert (Hse : s = Z.log2 n - 52) by (unfold s, E in *; lia).
    assert (Hnpos : 0 < n).
    { destruct (Z.eq_dec n 0) as [Hz|]; [|lia]. rewrite Hz in Hse. simpl in Hse. lia. }
    assert (Hl1 : Z.log2 n < 103).
    { apply Z.log2_lt_pow2; [lia|].
      assert (2 ^ 103 = 2 ^ 53 * 2 ^ 50) by reflexivity.
      assert (1000000000000000 < 2 ^ 50) by reflexivity. unfold n. nia. }
    assert (Hl2 : Z.log2 n < E + 50).
    { apply Z.log2_lt_pow2; [lia|].
      rewrite Z.pow_add_r by lia.
      assert (1000000000000000 < 2 ^ 50) by reflexivity. nia. }
    assert (Hs50 : s <= 50) by lia.
    assert (HsE : s <= E - 3) by lia.
    destruct (Z.leb_spec 0 (e + s)) as [|_]; [unfold E in *; lia|].
    replace (- (e + s)) with (E - s) by (unfold E; lia).
    set (P := 2 ^ s). set (T := 2 ^ (E - s)). set (H := 2 ^ (s - 1)).
    assert (HP : P = 2 * H).
    { unfold P, H. replace s with (1 + (s - 1)) at 1 by lia.
      rewrite Z.pow_add_r by lia. reflexivity. }
    assert (HH : 0 < H) by (apply Z.pow_pos_nonneg; lia).
    assert (HT : 0 < T) by (apply Z.pow_pos_nonneg; lia).
    assert (HPT : 2 ^ E = P * T).
    { unfold P, T. rewrite <- Z.pow_add_r by lia. f_equal. lia. }
    assert (HH49 : H <= 2 ^ 49) by (apply Z.pow_le_mono_r; lia).
    assert (Hdiv : n = (n / P) * P + n mod P).
    { rewrite Z.mul_comm. apply Z.div_mod. lia. }
    assert (Hmod : 0 <= n mod P < P) by (apply Z.mod_pos_bound; lia).
    assert (Hq0 : 0 <= n / P) by (apply Z.div_pos; lia).
    rewrite HPT in HnE.
    assert (Hdown : n / P < 1000000000000000 * T)
      by (apply (rounded_down_below P T (n / P) (n mod P) n); [lia|lia|exact Hdiv|exact Hmod|exact HnE]).
    assert (Hup : H <= n mod P -> n / P + 1 < 1000000000000000 * T)
      by (intros; apply (rounded_up_below P H T (n / P) (n mod P) n); [lia|exact HP|lia|exact HH49|exact Hdiv|exact Hmod|assumption|exact HnE]).
    assert (Hfin : forall q', 0 <= q' < 1000000000000000 * T ->
                              0 <= q' / T < 1000000000000000).
    { intros q' [? ?]. split; [apply Z.div_pos; lia|].
      apply Z.div_lt_upper_bound; lia. }
    apply Hfin.
    destruct (Z.ltb_spec (n mod P) H); [lia|].
    destruct (Z.ltb_spec H (n mod P)); [lia|].
    destruct (Z.even (n / P)); lia.
Qed.

(** The seed is the exact product up to the rounding of the product,
    at most [1/16] below [2 ^ 50], and the floor. *)
Lemma random_seed_near (draw : Double) :
  double_valid draw -> below_one draw ->
  Draws.near_product (random_seed draw) draw.
Proof.
  intros [[Hm0 Hm53] [He1 He2]] [He Hm].
  unfold Draws.near_product, random_seed, round_to_double, double_floor.
  set (m := mant draw) in *. set (e := expo draw) in *.
  set (n := m * 1000000000000000).
  set (E := - e) in *.
  assert (HE : 0 < E <= 1074) by (unfold E; lia).
  assert (HpE : 0 < 2 ^ E) by (apply Z.pow_pos_nonneg; lia).
  assert (Hn0 : 0 <= n) by (unfold n; lia).
  set (s := Z.max (Z.log2 n + 1 - 53) (-1074 - e)).
  cbv zeta.
  destruct (Z.leb_spec s 0) as [Hs|Hs]; cbn [mant expo].
  - destruct (Z.leb_spec 0 e) as [|_]; [lia|]. fold E.
    pose proof (Z.mul_div_le n (2 ^ E) HpE).
    pose proof (Z.mul_succ_div_gt n (2 ^ E) HpE).
    split; nia.
  - assert (Hse : s = Z.log2 n - 52) by (unfold s, E in *; lia).
    assert (Hnpos : 0 < n).
    { destruct (Z.eq_dec n 0) as [Hz|]; [|lia]. rewrite Hz in Hse. simpl in Hse. lia. }
    assert (Hl2 : Z.log2 n < E + 50).
    { apply Z.log2_lt_pow2; [lia|].
      rewrite Z.pow_add_r by lia.
      assert (1000000000000000 < 2 ^ 50) by reflexivity. unfold n. nia. }
    assert (HsE : s <= E - 3) by lia.
    destruct (Z.leb_spec 0 (e + s)) as [|_]; [unfold E in *; lia|].
    replace (- (e + s)) with (E - s) by (unfold E; lia).
    set (P := 2 ^ s). set (T := 2 ^ (E - s)). set (H := 2 ^ (s - 1)).
    assert (HP : P = 2 * H).
    { unfold P, H. replace s with (1 + (s - 1)) at 1 by lia.
      rewrite Z.pow_add_r by lia. reflexivity. }
    assert (HH : 0 < H) by (apply Z.pow_pos_nonneg; lia).
    assert (HT : 0 < T) by (apply Z.pow_pos_nonneg; lia).
    assert (HPT : 2 ^ E = P * T).
    { unfold P, T. rewrite <- Z.pow_add_r by lia. f_equal. lia. }
    assert (H16 : 16 * H <= 2 ^ E).
    { unfold H. change 16 with (2 ^ 4). rewrite <- Z.pow_add_r by lia.
      apply Z.pow_le_mono_r; lia. }
    assert (Hdiv : n = (n / P) * P + n mod P).
    { rewrite Z.mul_comm. apply Z.div_mod. lia. }
    assert (Hmod : 0 <= n mod P < P) by (apply Z.mod_pos_bound; lia).
    set (q := n / P) in *. set (r := n mod P) in *.
    assert (Hnear : forall q', q' * P <= n + H -> n <= q' * P + H ->
              16 * (q' / T) * 2 ^ E <= 16 * n + 2 ^ E
              /\ 16 * n < 16 * (q' / T + 1) * 2 ^ E + 2 ^ E).
    { intros q' Hup Hdown.
      pose proof (Z.mul_div_le q' T HT) as Hlow.
      pose proof (Z.mul_succ_div_gt q' T HT) as Hhigh.
      rewrite HPT in *.
      assert (q' / T * (P * T) <= q' * P) by nia.
      assert ((q' + 1) * P <= (q' / T + 1) * (P * T)) by nia.
      split; nia. }
    apply Hnear.
    + destruct (Z.ltb_spec r H); [lia|].
      destruct (Z.ltb_spec H r); [lia|].
      destruct (Z.even q); lia.
    + destruct (Z.ltb_spec r H); [lia|].
      destruct (Z.ltb_spec H r); [lia|].
      destruct (Z.even q); lia.
Qed.

(** Draws that are [3 / 10^15] apart give different seeds, in their
    order. *)
Lemma seeds_of_draws_apart (low high : Double) (seed seed' : Z) :
  expo low < 0 -> expo high < 0 ->
  Draws.near_product seed low -> Draws.near_product seed' high ->
  Draws.apart low high -> seed < seed'.
Proof.
  unfold Draws.near_product, Draws.apart. cbv zeta.
  intros Hl Hh [Hup _] [_ Hdown] Hapart.
  set (K1 := 2 ^ (- expo low)) in *. set (K2 := 2 ^ (- expo high)) in *.
  assert (H1 : 0 < K1) by (apply Z.pow_pos_nonneg; lia).
  assert (H2 : 0 < K2) by (apply Z.pow_pos_nonneg; lia).
  set (a := mant low * 1000000000000000) in *.
  set (b := mant high * 1000000000000000) in *.
  assert (Ha : 16 * seed * (K1 * K2) <= 16 * a * K2 + K1 * K2) by nia.
  assert (Hb : 16 * b * K1 < 16 * (seed' + 1) * (K1 * K2) + K1 * K2) by nia.
  assert (Hab : 48 * (K1 * K2) <= 16 * b * K1 - 16 * a * K2) by (unfold a, b; nia).
  assert (HK : 0 < K1 * K2) by nia.
  destruct (Z_lt_le_dec seed seed') as [|Hge]; [assumption|]. exfalso.
  assert (16 * seed' * (K1 * K2) <= 16 * seed * (K1 * K2)) by nia.
  nia.
Qed.

End Seed.

(** ** The workflow parameterizer *)

Module Parameterizer.
Import Js RunPod Targets JsFacts Samples.

Section WithNumberFormat.

Variable number_to_string : Q → string.

#[local] Abbreviation set_input := (set_input number_to_string).
#[local] Abbreviation patch_positive := (patch_positive number_to_string).
#[local] Abbreviation patch_negative := (patch_negative number_to_string).
#[local] Abbreviation patch_unet := (patch_unet number_to_string).
#[local] Abbreviation patch_clip := (patch_clip number_to_string).
#[local] Abbreviation patch_vae := (patch_vae number_to_string).
#[local] Abbreviation patch_shift := (patch_shift number_to_string).
#[local] Abbreviation patch_strength := (patch_strength number_to_string).
#[local] Abbreviation patch_seed := (patch_seed number_to_string).
#[local] Abbreviation patch_loaders := (patch_loaders number_to_string).
#[local] Abbreviation buildWorkflow := (buildWorkflow number_to_string).

Lemma set_input_Ok (w : JsVal) (n f : string) (v : JsVal) (w' : JsVal) :
  set_input w n f v = Ok w' →
  is_container (get_prop (get_prop w n) "inputs") = true
  ∧ w' = put_prop w n (put_prop (get_prop w n) "inputs"
                         (put_prop (get_prop (get_prop w n) "inputs") f v)).
Proof.
  unfold RunPod.set_input, assign_prop.
  destruct (get_prop (get_prop w n) "inputs") eqn:Hi; simpl; try done;
    by intros [= <-].
Qed.

Lemma changes_only_refl (allowed : list (string * string)) (w : JsVal) :
  changes_only allowed w w.
Proof. by repeat split. Qed.

Lemma changes_only_trans (allowed : list (string * string)) (w1 w2 w3 : JsVal) :
  changes_only allowed w1 w2 → changes_only allowed w2 w3 →
  changes_only allowed w1 w3.
Proof.
  intros (A1 & A2 & A3 & A4 & A5) (B1 & B2 & B3 & B4 & B5).
  repeat split.
  - by rewrite B1.
  - intros n Hn. by rewrite B2, A2.
  - intros n. by rewrite B3.
  - intros n f Hf. by rewrite B4, A4.
  - intros n f Hf. by rewrite B5, A5.
Qed.

(** What one assignment [workflow[n].inputs[f] = v] does. *)
Lemma set_input_effect (w : JsVal) (n f : string) (v : JsVal) (w' : JsVal) :
  set_input w n f v = Ok w' →
  own_keys w' = own_keys w
  ∧ (∀ m, m ≠ n → get_prop w' m = get_prop w m)
  ∧ (∀ m, own_keys (get_prop w' m) = own_keys (get_prop w m))
  ∧ (∀ m g, g ≠ "inputs" → get_prop (get_prop w' m) g = get_prop (get_prop w m) g)
  ∧ (∀ m g, (m, g) ≠ (n, f) → input_of w' m g = input_of w m g)
  ∧ (f ≠ "length" → input_of w' n f = v)
  ∧ (∀ m, has_inputs w' m = has_inputs w m)
  ∧ has_inputs w n = true.
Proof.
  intros [Hc ->]%set_input_Ok.
  set (node := get_prop w n) in *. set (inputs := get_prop node "inputs") in *.
  assert (Hnode : is_container node = true) by by apply (get_container_base _ "inputs").
  assert (Hown : has_own w n node) by by apply get_has_own.
  assert (Hiown : has_own node "inputs" inputs) by by apply get_has_own.
  set (inputs' := put_prop inputs f v).
  set (node' := put_prop node "inputs" inputs').
  assert (Hn' : get_prop (put_prop w n node') n = node') by by apply get_put_back.
  assert (Hi' : get_prop node' "inputs" = inputs') by by apply get_put_back.
  assert (Hci : is_container inputs' = true) by (unfold inputs'; by rewrite container_put).
  assert (Hcn : is_container node' = true) by (unfold node'; by rewrite container_put).
  assert (Hother : ∀ m, m ≠ n → get_prop (put_prop w n node') m = get_prop w m).
  { intros m Hm. by apply get_put_ne. }
  repeat split.
  - by apply (keys_put _ _ _ node).
  - exact Hother.
  - intros m. destruct (decide (m = n)) as [->|Hm]; [|by rewrite Hother].
    rewrite Hn'. by apply (keys_put _ _ _ inputs).
  - intros m g Hg. destruct (decide (m = n)) as [->|Hm]; [|by rewrite Hother].
    rewrite Hn'. by apply get_put_ne.
  - intros m g Hmg. unfold input_of.
    destruct (decide (m = n)) as [->|Hm]; [|by rewrite Hother].
    rewrite Hn', Hi'. apply get_put_ne. congruence.
  - intros Hf. unfold input_of. rewrite Hn', Hi'. by apply get_put_eq.
  - intros m. unfold has_inputs.
    destruct (decide (m = n)) as [->|Hm]; [|by rewrite Hother].
    rewrite Hn', Hi'. fold node. fold inputs.
    by rewrite !container_truthy.
  - unfold has_inputs. fold node. fold inputs. by rewrite !container_truthy.
Qed.

Lemma set_input_changes (allowed : list (string * string)) (w : JsVal)
    (n f : string) (v : JsVal) (w' : JsVal) :
  (n, f) ∈ allowed → set_input w n f v = Ok w' → changes_only allowed w w'.
Proof.
  intros Hin (E1 & E2 & E3 & E4 & E5 & _)%set_input_effect.
  repeat split; [done| |done|done|].
  - intros m Hm. apply E2. intros ->. apply Hm.
    apply list_elem_of_fmap. by exists (n, f).
  - intros m g Hmg. apply E5. by intros [= -> ->].
Qed.

Lemma assign_prop_container (b : JsVal) (k : string) (v : JsVal) :
  is_container b = true →
  assign_prop number_to_string b k v = Ok (put_prop b k v).
Proof. by destruct b. Qed.

(** An assignment of the value a field already has changes nothing. *)
Lemma set_input_same (w : JsVal) (n f : string) (v : JsVal) :
  is_container (get_prop (get_prop w n) "inputs") = true →
  has_own (get_prop (get_prop w n) "inputs") f v →
  set_input w n f v = Ok w.
Proof.
  intros Hc Hf. unfold RunPod.set_input.
  pose proof (get_container_base _ _ Hc) as Hnode.
  rewrite assign_prop_container by done. simpl.
  rewrite (put_has_own _ f v) by done.
  rewrite (put_has_own _ "inputs") by by apply get_has_own.
  by rewrite put_has_own by by apply get_has_own.
Qed.

(** After an assignment the field is an own property with that value. *)
Lemma set_input_has_own (w : JsVal) (n f : string) (v : JsVal) (w' : JsVal) :
  set_input w n f v = Ok w' →
  is_container (get_prop (get_prop w' n) "inputs") = true
  ∧ has_own (get_prop (get_prop w' n) "inputs") f v
  ∧ (∀ g x, g ≠ f → has_own (get_prop (get_prop w n) "inputs") g x →
            has_own (get_prop (get_prop w' n) "inputs") g x).
Proof.
  intros [Hc ->]%set_input_Ok.
  pose proof (get_container_base _ _ Hc) as Hnode.
  rewrite get_put_back by done. rewrite get_put_back by done.
  split; [by rewrite container_put|]. split.
  - by apply has_own_put.
  - intros g x Hg Hx. apply has_own_put_ne; [congruence | done].
Qed.

Lemma changes_only_mono (allowed allowed' : list (string * string)) (w w' : JsVal) :
  allowed ⊆ allowed' → changes_only allowed w w' → changes_only allowed' w w'.
Proof.
  intros Hsub (A1 & A2 & A3 & A4 & A5). repeat split; [done| |done|done|].
  - intros n Hn. apply A2. intros [[n' f] [-> Hin]]%list_elem_of_fmap.
    apply Hn, list_elem_of_fmap. exists (n', f). split; [done | by apply Hsub].
  - intros n f Hnf. apply A5. intros Hin. by apply Hnf, Hsub.
Qed.

Ltac in_list := apply list_elem_of_In; simpl; tauto.

(** A guarded pair of assignments, and a guarded single one. *)
Lemma guarded_pair_changes (cond : bool) (w : JsVal) (n f1 f2 : string)
    (v1 v2 : JsVal) (w' : JsVal) :
  (if cond then w1 ← set_input w n f1 v1; set_input w1 n f2 v2 else Ok w) = Ok w' →
  changes_only [(n, f1); (n, f2)] w w'.
Proof.
  destruct cond; [|intros [= <-]; apply changes_only_refl].
  destruct (set_input w n f1 v1) as [w1|] eqn:E1; simpl; [|done].
  intros E2. eapply changes_only_trans; eapply set_input_changes; try eassumption;
    in_list.
Qed.

Lemma guarded_single_changes (cond : bool) (w : JsVal) (n f : string)
    (v : JsVal) (w' : JsVal) :
  (if cond then set_input w n f v else Ok w) = Ok w' →
  changes_only [(n, f)] w w'.
Proof.
  destruct cond; [|intros [= <-]; apply changes_only_refl].
  intros E. eapply set_input_changes; [|eassumption]. in_list.
Qed.

Lemma patch_positive_changes (prompt : string) (w w' : JsVal) :
  patch_positive prompt w = Ok w' →
  changes_only [("111", "text"); ("111", "prompt")] w w'.
Proof. apply guarded_pair_changes. Qed.

Lemma patch_negative_changes (w w' : JsVal) :
  patch_negative w = Ok w' →
  changes_only [("110", "text"); ("110", "prompt")] w w'.
Proof. apply guarded_pair_changes. Qed.

Lemma patch_unet_changes (w w' : JsVal) :
  patch_unet w = Ok w' →
  changes_only [("37", "unet_name"); ("37", "weight_dtype")] w w'.
Proof. apply guarded_pair_changes. Qed.

Lemma patch_clip_changes (w w' : JsVal) :
  patch_clip w = Ok w' →
  changes_only [("38", "clip_name"); ("38", "type")] w w'.
Proof. apply guarded_pair_changes. Qed.

Lemma patch_vae_changes (w w' : JsVal) :
  patch_vae w = Ok w' → changes_only [("39", "vae_name")] w w'.
Proof. apply guarded_single_changes. Qed.

Lemma patch_shift_changes (w w' : JsVal) :
  patch_shift w = Ok w' → changes_only [("66", "shift")] w w'.
Proof. apply guarded_single_changes. Qed.

Lemma patch_strength_changes (w w' : JsVal) :
  patch_strength w = Ok w' → changes_only [("75", "strength")] w w'.
Proof. apply guarded_single_changes. Qed.

Lemma patch_seed_changes (seed : Z) (w w' : JsVal) :
  patch_seed seed w = Ok w' → changes_only [("3", "seed")] w w'.
Proof. apply guarded_single_changes. Qed.

#[local] Abbreviation patch_rest := (patch_rest number_to_string).

Lemma patch_loaders_split (prompt : string) (w : JsVal) :
  patch_loaders prompt w
  = w1 ← patch_positive prompt w; w2 ← patch_negative w1; patch_rest w2.
Proof. reflexivity. Qed.

Lemma patch_rest_changes (w w' : JsVal) :
  patch_rest w = Ok w' →
  changes_only [("37", "unet_name"); ("37", "weight_dtype");
                ("38", "clip_name"); ("38", "type"); ("39", "vae_name");
                ("66", "shift"); ("75", "strength")] w w'.
Proof.
  unfold Targets.patch_rest.
  destruct (patch_unet w) as [w1|] eqn:E1; simpl; [|done].
  destruct (patch_clip w1) as [w2|] eqn:E2; simpl; [|done].
  destruct (patch_vae w2) as [w3|] eqn:E3; simpl; [|done].
  destruct (patch_shift w3) as [w4|] eqn:E4; simpl; [|done].
  intros E5.
  apply patch_unet_changes in E1. apply patch_clip_changes in E2.
  apply patch_vae_changes in E3. apply patch_shift_changes in E4.
  apply patch_strength_changes in E5.
  do 4 (eapply changes_only_trans;
        [eapply changes_only_mono; [|eassumption]; intros ? ?%list_elem_of_In;
         apply list_elem_of_In; simpl in *; tauto|]).
  eapply changes_only_mono; [|eassumption]. intros ? ?%list_elem_of_In.
  apply list_elem_of_In; simpl in *; tauto.
Qed.

Ltac not_in_list := intros ?%list_elem_of_In; simpl in *; intuition discriminate.

Lemma guarded_pair_has_inputs (cond : bool) (w : JsVal) (n f1 f2 : string)
    (v1 v2 : JsVal) (w' : JsVal) :
  (if cond then w1 ← set_input w n f1 v1; set_input w1 n f2 v2 else Ok w) = Ok w' →
  ∀ m, has_inputs w' m = has_inputs w m.
Proof.
  destruct cond; [|by intros [= <-]].
  destruct (set_input w n f1 v1) as [w1|] eqn:E1; simpl; [|done].
  intros E2 m.
  apply set_input_effect in E1 as (_ & _ & _ & _ & _ & _ & H1 & _).
  apply set_input_effect in E2 as (_ & _ & _ & _ & _ & _ & H2 & _).
  by rewrite H2, H1.
Qed.

(** Two assignments to one node, done again, change nothing more. *)
Lemma pair_idempotent (w : JsVal) (n f1 f2 : string) (v1 v2 : JsVal) (w' : JsVal) :
  f1 ≠ f2 →
  (w1 ← set_input w n f1 v1; set_input w1 n f2 v2) = Ok w' →
  has_inputs w' n = true
  ∧ (w1 ← set_input w' n f1 v1; set_input w1 n f2 v2) = Ok w'
  ∧ (f1 ≠ "length" → f2 ≠ "length" →
     input_of w' n f1 = v1 ∧ input_of w' n f2 = v2).
Proof.
  intros Hf.
  destruct (set_input w n f1 v1) as [w1|] eqn:E1; simpl; [|done].
  intros E2.
  pose proof (set_input_has_own _ _ _ _ _ E1) as (_ & Ho1 & _).
  pose proof (set_input_has_own _ _ _ _ _ E2) as (Hc & Ho2 & Hkeep).
  pose proof (set_input_effect _ _ _ _ _ E1) as (_ & _ & _ & _ & _ & Hv1 & _ & _).
  pose proof (set_input_effect _ _ _ _ _ E2) as (_ & _ & _ & _ & Hfr & Hv2 & Hh & Hh1).
  split; [by rewrite Hh|]. split.
  - rewrite (set_input_same w' n f1 v1); [|done|by apply Hkeep].
    simpl. by apply set_input_same.
  - intros L1 L2. split; [|by apply Hv2].
    rewrite Hfr; [by apply Hv1 | congruence].
Qed.

(** C9. The injection of the negative prompt, applied to its own result,
    returns that result unchanged, and so does that of the positive
    prompt; where node 110 (node 111) has [inputs], its [text] and [prompt]
    are the empty string (the prompt) afterwards, and they still are in
    the workflow [buildWorkflow] returns. *)
Theorem prompt_injection_idempotent (prompt : string) (w w1 : JsVal) :
  (patch_negative w = Ok w1 →
     patch_negative w1 = Ok w1
     ∧ (has_inputs w "110" = true →
        input_of w1 "110" "text" = JStr EmptyString
        ∧ input_of w1 "110" "prompt" = JStr EmptyString))
  ∧ (patch_positive prompt w = Ok w1 →
     patch_positive prompt w1 = Ok w1
     ∧ (has_inputs w "111" = true →
        input_of w1 "111" "text" = JStr prompt
        ∧ input_of w1 "111" "prompt" = JStr prompt))
  ∧ (∀ workflowData template random calls imageBase64 calls',
       load_workflow workflowData = Ok template →
       buildWorkflow workflowData random calls prompt imageBase64 = (Ok w1, calls') →
       (has_inputs template "110" = true →
        input_of w1 "110" "text" = JStr EmptyString
        ∧ input_of w1 "110" "prompt" = JStr EmptyString)
       ∧ (has_inputs template "111" = true →
          input_of w1 "111" "text" = JStr prompt
          ∧ input_of w1 "111" "prompt" = JStr prompt)).
Proof.
  split; [|split].
  - unfold RunPod.patch_negative.
    destruct (has_inputs w "110") eqn:Hh.
    + intros E. apply pair_idempotent in E as (Hh' & E' & Hv); [|done].
      rewrite Hh'. split; [done|]. intros _. by apply Hv.
    + intros [= <-]. by rewrite Hh.
  - unfold RunPod.patch_positive.
    destruct (has_inputs w "111") eqn:Hh.
    + intros E. apply pair_idempotent in E as (Hh' & E' & Hv); [|done].
      rewrite Hh'. split; [done|]. intros _. by apply Hv.
    + intros [= <-]. by rewrite Hh.
  - intros workflowData template random calls imageBase64 calls' Hload.
    unfold RunPod.buildWorkflow. rewrite Hload. simpl.
    rewrite patch_loaders_split.
    destruct (patch_positive prompt template) as [wa|] eqn:Ea; simpl; [|done].
    destruct (patch_negative wa) as [wb|] eqn:Eb; simpl; [|done].
    destruct (patch_rest wb) as [wc|] eqn:Ec; simpl; [|done].
    intros [= Es _].
    pose proof (patch_negative_changes _ _ Eb) as (_ & _ & _ & _ & Fb).
    pose proof (patch_rest_changes _ _ Ec) as (_ & _ & _ & _ & Fc).
    pose proof (patch_seed_changes _ _ _ Es) as (_ & _ & _ & _ & Fs).
    split.
    + intros Hh.
      assert (Hhb : has_inputs wa "110" = true).
      { by rewrite (guarded_pair_has_inputs _ _ _ _ _ _ _ _ Ea). }
      unfold RunPod.patch_negative in Eb. rewrite Hhb in Eb.
      apply pair_idempotent in Eb as (_ & _ & Hv); [|done].
      destruct Hv as [Hv1 Hv2]; [done|done|].
      rewrite !Fs, !Fc by not_in_list. done.
    + intros Hh.
      unfold RunPod.patch_positive in Ea. rewrite Hh in Ea.
      apply pair_idempotent in Ea as (_ & _ & Hv); [|done].
      destruct Hv as [Hv1 Hv2]; [done|done|].
      rewrite !Fs, !Fc, !Fb by not_in_list. done.
Qed.

Lemma not_targeted (n : string) : n ∉ targeted_nodes → n ∉ assigned.*1.
Proof.
  intros Hn Hin. apply Hn. apply list_elem_of_In in Hin. apply list_elem_of_In.
  simpl in *. tauto.
Qed.

Lemma has_inputs_absent (w : JsVal) (n : string) :
  truthy (get_prop w n) = false → has_inputs w n = false.
Proof. unfold has_inputs. by intros ->. Qed.

(** C6. Between the template and the workflow [buildWorkflow] returns:
    the node identifiers are the same, in number and order; every node
    the function does not name is identical; every node keeps its field
    names and every field beside [inputs]; inside [inputs] every field the
    function does not assign is as it was. A patch whose node is absent
    returns the workflow as it is, without an exception, and when none of
    the named nodes is there the build returns the template itself. *)
Theorem buildWorkflow_leaves_the_rest (workflowData : option JsVal)
    (random : nat → Double) (calls : nat) (prompt : string)
    (imageBase64 : option string) (w w' : JsVal) (calls' : nat) :
  load_workflow workflowData = Ok w →
  buildWorkflow workflowData random calls prompt imageBase64 = (Ok w', calls') →
  (own_keys w' = own_keys w
   ∧ (∀ n, n ∉ targeted_nodes → get_prop w' n = get_prop w n)
   ∧ (∀ n, own_keys (get_prop w' n) = own_keys (get_prop w n))
   ∧ (∀ n f, f ≠ "inputs" → get_prop (get_prop w' n) f = get_prop (get_prop w n) f)
   ∧ (∀ n f, (n, f) ∉ assigned → input_of w' n f = input_of w n f))
  ∧ (∀ v : JsVal,
       (truthy (get_prop v "111") = false → patch_positive prompt v = Ok v)
       ∧ (truthy (get_prop v "110") = false → patch_negative v = Ok v)
       ∧ (truthy (get_prop v "37") = false → patch_unet v = Ok v)
       ∧ (truthy (get_prop v "38") = false → patch_clip v = Ok v)
       ∧ (truthy (get_prop v "39") = false → patch_vae v = Ok v)
       ∧ (truthy (get_prop v "66") = false → patch_shift v = Ok v)
       ∧ (truthy (get_prop v "75") = false → patch_strength v = Ok v)
       ∧ (∀ seed, truthy (get_prop v "3") = false → patch_seed seed v = Ok v))
  ∧ ((∀ n, n ∈ targeted_nodes → truthy (get_prop w n) = false) → w' = w).
Proof.
  intros Hload. unfold RunPod.buildWorkflow. rewrite Hload. simpl.
  rewrite patch_loaders_split.
  assert (Habsent : ∀ v : JsVal,
       (truthy (get_prop v "111") = false → patch_positive prompt v = Ok v)
       ∧ (truthy (get_prop v "110") = false → patch_negative v = Ok v)
       ∧ (truthy (get_prop v "37") = false → patch_unet v = Ok v)
       ∧ (truthy (get_prop v "38") = false → patch_clip v = Ok v)
       ∧ (truthy (get_prop v "39") = false → patch_vae v = Ok v)
       ∧ (truthy (get_prop v "66") = false → patch_shift v = Ok v)
       ∧ (truthy (get_prop v "75") = false → patch_strength v = Ok v)
       ∧ (∀ seed, truthy (get_prop v "3") = false → patch_seed seed v = Ok v)).
  { intros v.
    unfold RunPod.patch_positive, RunPod.patch_negative, RunPod.patch_unet,
      RunPod.patch_clip, RunPod.patch_vae, RunPod.patch_shift,
      RunPod.patch_strength, RunPod.patch_seed.
    repeat split; intros; by rewrite has_inputs_absent. }
  destruct (patch_positive prompt w) as [wa|] eqn:Ea; simpl; [|done].
  destruct (patch_negative wa) as [wb|] eqn:Eb; simpl; [|done].
  destruct (patch_rest wb) as [wc|] eqn:Ec; simpl; [|done].
  intros [= Es _].
  split; [|split; [exact Habsent|]].
  - assert (Hall : changes_only assigned w w').
    { apply patch_positive_changes in Ea. apply patch_negative_changes in Eb.
      apply patch_rest_changes in Ec. apply patch_seed_changes in Es.
      do 3 (eapply changes_only_trans;
            [eapply changes_only_mono; [|eassumption]; intros ? ?%list_elem_of_In;
             apply list_elem_of_In; simpl in *; tauto|]).
      eapply changes_only_mono; [|eassumption]. intros ? ?%list_elem_of_In.
      apply list_elem_of_In; simpl in *; tauto. }
    destruct Hall as (A1 & A2 & A3 & A4 & A5).
    repeat split; try done. intros n Hn. by apply A2, not_targeted.
  - intros Hnone.
    assert (Hin : ∀ n, In n targeted_nodes → truthy (get_prop w n) = false).
    { intros n Hn. by apply Hnone, list_elem_of_In. }
    simpl in Hin.
    rewrite (proj1 (Habsent w)) in Ea by (apply Hin; tauto).
    injection Ea as <-.
    rewrite (proj1 (proj2 (Habsent w))) in Eb by (apply Hin; tauto).
    injection Eb as <-.
    unfold Targets.patch_rest in Ec.
    destruct (Habsent w) as (_ & _ & H37 & H38 & H39 & H66 & H75 & H3).
    rewrite H37 in Ec by (apply Hin; tauto). simpl in Ec.
    rewrite H38 in Ec by (apply Hin; tauto). simpl in Ec.
    rewrite H39 in Ec by (apply Hin; tauto). simpl in Ec.
    rewrite H66 in Ec by (apply Hin; tauto). simpl in Ec.
    rewrite H75 in Ec by (apply Hin; tauto). injection Ec as <-.
    rewrite H3 in Es by (apply Hin; tauto). by injection Es as <-.
Qed.

Lemma build_seed (workflowData : option JsVal)
    (random : nat → Double) (calls : nat) (prompt : string)
    (imageBase64 : option string) (w' : JsVal) (calls' : nat) :
  buildWorkflow workflowData random calls prompt imageBase64 = (Ok w', calls') →
  calls' = S calls
  ∧ (has_inputs w' "3" = true →
     input_of w' "3" "seed" = JNum (inject_Z (random_seed (random calls)))).
Proof.
  unfold RunPod.buildWorkflow.
  destruct (load_workflow workflowData ≫= patch_loaders prompt) as [w|] eqn:E;
    [|done].
  intros [= Es <-]. split; [done|].
  unfold RunPod.patch_seed in Es.
  destruct (has_inputs w "3") eqn:Hh.
  - intros _.
    apply set_input_effect in Es as (_ & _ & _ & _ & _ & Hv & _). by apply Hv.
  - injection Es as <-. by rewrite Hh.
Qed.

(** C8. A build that returns has called [Math.random()] once more, and
    the seed it computes from that value, a double below one, is an integer
    in [[0, 10^15)] within [17/16] of the exact product of that value and
    [10^15]; where node 3 of the result has [inputs], its [seed] is that
    integer, whatever the template held there. The next build takes the
    next value of [Math.random()] and computes its seed from it in the
    same way: when the two values are [3 / 10^15] apart the two seeds
    differ, in the order of the values, and so do the [seed] fields of the
    two workflows. *)
Theorem seed_fresh_and_in_range (workflowData : option JsVal)
    (random : nat → Double) (calls : nat) (prompt : string)
    (imageBase64 : option string) (w' : JsVal) (calls' : nat) :
  double_valid (random calls) → below_one (random calls) →
  buildWorkflow workflowData random calls prompt imageBase64 = (Ok w', calls') →
  (0 <= random_seed (random calls) < 10 ^ 15)%Z
  ∧ calls' = S calls
  ∧ (has_inputs w' "3" = true →
     input_of w' "3" "seed" = JNum (inject_Z (random_seed (random calls))))
  ∧ Draws.near_product (random_seed (random calls)) (random calls)
  ∧ (∀ w'' calls'',
       double_valid (random calls') → below_one (random calls') →
       buildWorkflow workflowData random calls' prompt imageBase64
       = (Ok w'', calls'') →
       calls'' = S (S calls)
       ∧ (has_inputs w'' "3" = true →
          input_of w'' "3" "seed"
          = JNum (inject_Z (random_seed (random (S calls)))))
       ∧ Draws.near_product (random_seed (random (S calls))) (random (S calls))
       ∧ (Draws.apart (random calls) (random (S calls)) →
          (random_seed (random calls) < random_seed (random (S calls)))%Z)
       ∧ (Draws.apart (random (S calls)) (random calls) →
          (random_seed (random (S calls)) < random_seed (random calls))%Z)
       ∧ (Draws.apart (random calls) (random (S calls))
          ∨ Draws.apart (random (S calls)) (random calls) →
          has_inputs w' "3" = true → has_inputs w'' "3" = true →
          input_of w' "3" "seed" ≠ input_of w'' "3" "seed")).
Proof.
  intros Hvalid Hbelow Hbuild.
  destruct (build_seed _ _ _ _ _ _ _ Hbuild) as [-> Hseed].
  pose proof (Seed.random_seed_near _ Hvalid Hbelow) as Hnear.
  split; [by apply Seed.random_seed_range|].
  split; [done|]. split; [done|]. split; [done|].
  intros w'' calls'' Hvalid' Hbelow' Hbuild'.
  destruct (build_seed _ _ _ _ _ _ _ Hbuild') as [-> Hseed'].
  pose proof (Seed.random_seed_near _ Hvalid' Hbelow') as Hnear'.
  assert (Hlt : Draws.apart (random calls) (random (S calls)) →
                (random_seed (random calls) < random_seed (random (S calls)))%Z).
  { intros Hap.
    by apply (Seed.seeds_of_draws_apart (random calls) (random (S calls)));
      [apply Hbelow|apply Hbelow'|..]. }
  assert (Hgt : Draws.apart (random (S calls)) (random calls) →
                (random_seed (random (S calls)) < random_seed (random calls))%Z).
  { intros Hap.
    by apply (Seed.seeds_of_draws_apart (random (S calls)) (random calls));
      [apply Hbelow'|apply Hbelow|..]. }
  split_and!; try done.
  intros Hap H3 H3'. rewrite (Hseed H3), (Hseed' H3').
  intros [= Heq]. destruct Hap as [Hap|Hap]; [apply Hlt in Hap|apply Hgt in Hap]; lia.
Qed.

End WithNumberFormat.

Lemma sample_build_eq : sample_build = (Ok sample_built, 1).
Proof. vm_compute. reflexivity. Defined.

Lemma buildWorkflow_leaves_the_rest_witness :
  own_keys sample_built = ["3"; "110"; "111"; "60"]
  ∧ get_prop sample_built "60"
    = JObj [("class_type", JStr "SaveImage");
            ("inputs", JObj [("filename_prefix", JStr "out")])]
  ∧ input_of sample_built "3" "steps" = JNum (inject_Z 4)
  ∧ patch_unet sample_number_format sample_built = Ok sample_built.
Proof.
  destruct (buildWorkflow_leaves_the_rest sample_number_format
              (Some sample_template) sample_random 0 "a red cat" None
              sample_template sample_built 1 eq_refl sample_build_eq)
    as ((K & N & _ & _ & F) & A & _).
  split; [exact K|]. split; [|split].
  - apply (N "60"). intros Hin%list_elem_of_In. simpl in Hin.
    intuition discriminate.
  - apply (F "3" "steps"). intros Hin%list_elem_of_In. simpl in Hin.
    intuition discriminate.
  - apply (proj1 (proj2 (proj2 (A sample_built)))). reflexivity.
Defined.

Lemma seed_fresh_and_in_range_witness :
  (0 <= random_seed (sample_random 0) < 10 ^ 15)%Z
  ∧ input_of sample_built "3" "seed" = JNum (inject_Z 999999999999999)
  ∧ ∃ w'', buildWorkflow sample_number_format (Some sample_template)
             sample_random 1 "a red cat" None = (Ok w'', 2%nat)
           ∧ input_of w'' "3" "seed" = JNum (inject_Z 500000000000000)
           ∧ input_of sample_built "3" "seed" ≠ input_of w'' "3" "seed".
Proof.
  assert (Hv : double_valid (sample_random 0)) by (vm_compute; intuition discriminate).
  assert (Hb : below_one (sample_random 0)) by (vm_compute; intuition discriminate).
  assert (Hv' : double_valid (sample_random 1)) by (vm_compute; intuition discriminate).
  assert (Hb' : below_one (sample_random 1)) by (vm_compute; intuition discriminate).
  destruct (seed_fresh_and_in_range sample_number_format
              (Some sample_template) sample_random 0 "a red cat" None
              sample_built 1 Hv Hb sample_build_eq) as (R & _ & S & _ & Next).
  split; [exact R|]. split; [apply S; reflexivity|].
  destruct (buildWorkflow sample_number_format (Some sample_template)
              sample_random 1 "a red cat" None) as [[w''|e] n] eqn:E;
    [|by vm_compute in E].
  destruct (Next w'' n Hv' Hb' eq_refl) as (-> & S' & _ & _ & _ & Hne).
  assert (H3 : has_inputs w'' "3" = true).
  { vm_compute in E. injection E as <-. reflexivity. }
  exists w''. split; [done|]. split; [by apply S'|].
  apply Hne; [|reflexivity|exact H3].
  right. vm_compute. discriminate.
Defined.

Lemma prompt_injection_idempotent_witness :
  patch_negative sample_number_format sample_built = Ok sample_built
  ∧ input_of sample_built "110" "text" = JStr EmptyString
  ∧ input_of sample_built "110" "prompt" = JStr EmptyString
  ∧ input_of sample_built "111" "text" = JStr "a red cat"
  ∧ input_of sample_built "111" "prompt" = JStr "a red cat".
Proof.
  destruct (prompt_injection_idempotent sample_number_format "a red cat"
              sample_built sample_built) as (Hn & _ & Hb).
  destruct (prompt_injection_idempotent sample_number_format "a red cat"
              sample_template sample_built) as (_ & _ & Hb').
  destruct (Hb' (Some sample_template) sample_template sample_random 0%nat None 1%nat
              eq_refl sample_build_eq) as (N & P).
  split; [apply Hn; reflexivity|].
  destruct (N eq_refl) as [N1 N2]. destruct (P eq_refl) as [P1 P2].
  repeat split; assumption.
Defined.

End Parameterizer.

(** ** The poll loops *)

Module Poller.
Import Js RunPod Signals.

Local Open Scope Z_scope.

(** Fuel beyond the number of polls the budget allows is never used up. *)
Lemma executeAsync_loop_returns (fuel : nat) (remote : nat → PollStep)
    (jobId : JsVal) (startTime : Z) (i : nat) (now : Z) :
  (0 < fuel)%nat →
  10 * 60 * 1000 - (now - startTime) <= 5000 * (Z.of_nat fuel - 1) →
  (executeAsync_loop fuel remote jobId startTime i now).2 ≠ OutOfFuel.
Proof.
  revert i now. induction fuel as [|fuel IH]; intros i now Hpos Hfuel; [lia|].
  cbn [executeAsync_loop].
  destruct (Z.ltb_spec (now - startTime) (10 * 60 * 1000)) as [Hlt|Hge]; [|done].
  destruct (getJobStatus (remote i)) as [job|e]; [|done].
  case_bool_decide.
  { simpl. by destruct (processOutput (job_data job)). }
  case_bool_decide; [done|].
  specialize (IH (S i)
    (now + Z.of_N (latency (remote i)) + 5000 + Z.of_N (oversleep (remote i)))).
  destruct (executeAsync_loop fuel remote jobId startTime (S i) _) as [rest c].
  simpl in *. apply IH; lia.
Qed.

Lemma waitForCompletion_loop_returns (fuel : nat) (remote : nat → PollStep)
    (jobId : JsVal) (maxWaitTime startTime : Z) (i : nat) (now : Z) :
  (0 < fuel)%nat →
  maxWaitTime - (now - startTime) <= 2000 * (Z.of_nat fuel - 1) →
  (waitForCompletion_loop fuel remote jobId maxWaitTime startTime i now).2 ≠ OutOfFuel.
Proof.
  revert i now. induction fuel as [|fuel IH]; intros i now Hpos Hfuel; [lia|].
  cbn [waitForCompletion_loop].
  destruct (Z.ltb_spec (now - startTime) maxWaitTime) as [Hlt|Hge]; [|done].
  destruct (getJobStatus (remote i)) as [job|e]; [|done].
  case_bool_decide.
  { simpl. by destruct (processOutput (job_data job)). }
  destruct (_ || _); [done|].
  specialize (IH (S i)
    (now + Z.of_N (latency (remote i)) + 2000 + Z.of_N (oversleep (remote i)))).
  destruct (waitForCompletion_loop fuel remote jobId maxWaitTime startTime (S i) _)
    as [rest c].
  simpl in *. apply IH; lia.
Qed.

(** More fuel does not change a run that has ended. *)
Lemma executeAsync_loop_fuel (fuel fuel' : nat) (remote : nat → PollStep)
    (jobId : JsVal) (startTime : Z) (i : nat) (now : Z) :
  (fuel <= fuel')%nat →
  (executeAsync_loop fuel remote jobId startTime i now).2 ≠ OutOfFuel →
  executeAsync_loop fuel' remote jobId startTime i now
  = executeAsync_loop fuel remote jobId startTime i now.
Proof.
  revert fuel' i now. induction fuel as [|fuel IH]; intros fuel' i now Hle; [done|].
  destruct fuel' as [|fuel']; [lia|]. cbn [executeAsync_loop].
  destruct (_ <? _); [|done].
  destruct (getJobStatus (remote i)) as [job|e]; [|done].
  case_bool_decide; [done|]. case_bool_decide; [done|].
  specialize (IH fuel' (S i)
    (now + Z.of_N (latency (remote i)) + 5000 + Z.of_N (oversleep (remote i)))).
  destruct (executeAsync_loop fuel remote jobId startTime (S i) _) as [rest c].
  intros Hc. simpl in Hc. rewrite IH; [done | lia | done].
Qed.

Lemma with_warnings_app (startTime : Z) (l1 l2 : list PollEvent) :
  with_warnings startTime (l1 ++ l2)
  = with_warnings startTime l1 ++ with_warnings startTime l2.
Proof. apply flat_map_app. Qed.

Lemma queued_late_observed (startTime : Z) (st : RemoteStatus) (now : Z) :
  queued_late startTime (Observed st now)
  = bool_decide (st = IN_QUEUE) && (15000 <? now - startTime).
Proof. by destruct st. Qed.

(** C7, as the code has it. In the loop of [executeAsync] the cold-start
    warning comes after exactly those replies that find the job in the
    queue more than 15 seconds after the start of polling; it changes
    nothing else: without the warnings the trace is that of the loop that
    has no such check, and both loops end the same way. The loop of
    [waitForCompletion] gives no such warning. *)
Theorem cold_start_warning_of_executeAsync (fuel : nat) (remote : nat → PollStep)
    (jobId : JsVal) (maxWaitTime startTime : Z) (i : nat) (now : Z) :
  executeAsync_loop fuel remote jobId startTime i now
  = (with_warnings startTime
       (executeAsync_loop_silent fuel remote jobId startTime i now).1,
     (executeAsync_loop_silent fuel remote jobId startTime i now).2)
  ∧ forallb (λ e, negb (is_cold_start e))
      (executeAsync_loop_silent fuel remote jobId startTime i now).1 = true
  ∧ forallb (λ e, negb (is_cold_start e))
      (waitForCompletion_loop fuel remote jobId maxWaitTime startTime i now).1 = true.
Proof.
  split; [|split].
  - revert i now. induction fuel as [|fuel IH]; intros i now; [done|].
    cbn [executeAsync_loop executeAsync_loop_silent].
    destruct (_ <? _); [|done].
    destruct (getJobStatus (remote i)) as [job|e]; [|done].
    case_bool_decide as Hc.
    { simpl. rewrite Hc. done. }
    case_bool_decide as Hf.
    { simpl. rewrite Hf. done. }
    rewrite IH.
    destruct (executeAsync_loop_silent fuel remote jobId startTime (S i) _)
      as [rest c].
    cbn [fst snd]. f_equal.
    change ([StatusRequest jobId; ?o] ++ rest)
      with ([StatusRequest jobId] ++ [o] ++ rest).
    rewrite !with_warnings_app. cbn [with_warnings flat_map queued_late app].
    fold (queued_late startTime
            (Observed (job_status job) (now + Z.of_N (latency (remote i))))).
    rewrite queued_late_observed. by destruct (_ && _).
  - revert i now. induction fuel as [|fuel IH]; intros i now; [done|].
    cbn [executeAsync_loop_silent].
    destruct (_ <? _); [|done].
    destruct (getJobStatus (remote i)) as [job|e]; [|done].
    case_bool_decide; [done|]. case_bool_decide; [done|].
    specialize (IH (S i)
      (now + Z.of_N (latency (remote i)) + 5000 + Z.of_N (oversleep (remote i)))).
    by destruct (executeAsync_loop_silent fuel remote jobId startTime (S i) _).
  - revert i now. induction fuel as [|fuel IH]; intros i now; [done|].
    cbn [waitForCompletion_loop].
    destruct (_ <? _); [|done].
    destruct (getJobStatus (remote i)) as [job|e]; [|done].
    case_bool_decide; [done|]. destruct (_ || _); [done|].
    specialize (IH (S i)
      (now + Z.of_N (latency (remote i)) + 2000 + Z.of_N (oversleep (remote i)))).
    by destruct (waitForCompletion_loop fuel remote jobId maxWaitTime startTime (S i) _).
Qed.

(** C7 as stated fails for [waitForCompletion]: the job is still queued at
    the polls from 16 seconds on, and no warning is given in the run. *)
Lemma waitForCompletion_gives_no_warning :
  let run := waitForCompletion 200 (steady queued_job) (JStr "r1") 300000 0 in
  existsb (queued_late 0) run.1 = true
  ∧ existsb is_cold_start run.1 = false
  ∧ run.2 = Thrown "Job timed out waiting for completion".
Proof. vm_compute. repeat split. Qed.

(** [waitForCompletion] stops at the first terminal status, and fails with
    the status and the message when it is not [COMPLETED]. *)
Lemma waitForCompletion_stops_at_terminal (fuel : nat) (remote : nat → PollStep)
    (jobId : JsVal) (maxWaitTime startTime : Z) (i : nat) (now : Z)
    (st : RemoteStatus) (rest : list PollEvent) :
  after_terminal (waitForCompletion_loop fuel remote jobId maxWaitTime startTime i now).1
  = Some (st, rest) →
  rest = []
  ∧ (st ≠ COMPLETED →
     ∃ job, job_status job = st
            ∧ (waitForCompletion_loop fuel remote jobId maxWaitTime startTime i now).2
              = Thrown ("Job " +:+ toLowerCase (status_name st) +:+ ": "
                        +:+ error_or_unknown job)).
Proof.
  revert i now. induction fuel as [|fuel IH]; intros i now; [done|].
  cbn [waitForCompletion_loop].
  destruct (_ <? _); [|done].
  destruct (getJobStatus (remote i)) as [job|e]; [|done].
  case_bool_decide as Hc.
  { simpl. rewrite Hc. simpl. by intros [= <- <-]. }
  destruct (_ || _) eqn:Hterm.
  { simpl. destruct (job_status job) eqn:Hst; try done;
      intros [= <- <-]; (split; [done|]); intros _; exists job; by rewrite Hst. }
  specialize (IH (S i)
    (now + Z.of_N (latency (remote i)) + 2000 + Z.of_N (oversleep (remote i)))).
  destruct (waitForCompletion_loop fuel remote jobId maxWaitTime startTime (S i) _)
    as [more c].
  simpl in *. destruct (job_status job); try done; by destruct Hc.
Qed.

(** C1, where the code departs from it: the job is reported [CANCELLED] at
    the first poll of [executeAsync], 119 more status queries follow, one
    every 5 seconds until the 10 minutes are over, and the call fails with
    the timeout message, which carries neither the status nor the remote
    error. [waitForCompletion] on the same replies stops at the first. *)
Theorem executeAsync_polls_on_after_cancelled :
  let run := executeAsync_try 200 (Ok (JObj [("id", JStr "r1")]))
               (steady cancelled_job) 0 in
  ((λ r, (r.1, length (requests r.2))) <$> after_terminal run.1
   = Some (CANCELLED, 119%nat))
  ∧ execution_failed run.2
    = Thrown "RunPod execution failed: Job timed out waiting for completion"
  ∧ waitForCompletion 200 (steady cancelled_job) (JStr "r1") 300000 0
    = ([StatusRequest (JStr "r1"); Observed CANCELLED 0],
       Thrown "Job cancelled: cancelled by user").
Proof. vm_compute. repeat split. Qed.


End Poller.

(** ** The job store *)

Module Store.
Import Js Server Samples.

Local Open Scope Z_scope.

Lemma sweep_fold_lookup (oneHourAgo : Z) (acc jobStore : gmap string JobRecord)
    (k : string) :
  map_fold (λ jobId job store,
              if startedAt job <? oneHourAgo then delete jobId store else store)
           acc jobStore !! k
  = match jobStore !! k with
    | Some job => if startedAt job <? oneHourAgo then None else acc !! k
    | None => acc !! k
    end.
Proof.
  revert k. apply (map_fold_weak_ind (λ r m, ∀ k, r !! k = match m !! k with
    | Some job => if startedAt job <? oneHourAgo then None else acc !! k
    | None => acc !! k end)).
  - intros k. by rewrite lookup_empty.
  - intros i x m r Hi IH k. destruct (decide (k = i)) as [->|Hne].
    + rewrite lookup_insert_eq. destruct (startedAt x <? oneHourAgo).
      * by rewrite lookup_delete_eq.
      * by rewrite IH, Hi.
    + rewrite lookup_insert_ne by done. rewrite <- IH.
      destruct (startedAt x <? oneHourAgo); [by rewrite lookup_delete_ne | done].
Qed.

(** The sweep removes the records older than an hour and keeps the others
    as they are. *)
Lemma sweep_lookup (now : Z) (jobStore : gmap string JobRecord) (k : string) :
  sweep now jobStore !! k
  = match jobStore !! k with
    | Some job => if startedAt job <? now - 60 * 60 * 1000 then None else Some job
    | None => None
    end.
Proof.
  unfold sweep. rewrite sweep_fold_lookup.
  destruct (jobStore !! k) as [job|] eqn:Hk; [|done].
  by destruct (startedAt job <? _).
Qed.

Lemma step_write (jobStore : gmap string JobRecord) (e : StoreEvent) (j : string) :
  written e = Some j → step jobStore e !! j = record_written e.
Proof.
  destruct e as [j' now|j' now|j' now [r|msg]|now]; simpl; try done;
    intros [= ->]; unfold set_pending, set_processing; by rewrite lookup_insert_eq.
Qed.

Lemma step_other (jobStore : gmap string JobRecord) (e : StoreEvent) (j k : string) :
  written e = Some j → j ≠ k → step jobStore e !! k = jobStore !! k.
Proof.
  destruct e as [j' now|j' now|j' now [r|msg]|now]; simpl; try done;
    intros [= ->] Hne; unfold set_pending, set_processing;
    by rewrite lookup_insert_ne.
Qed.

(** C3, as the code has it. The record is created at submission with
    [startedAt] the time of submission, and every later write of the
    background task stores a record whose [startedAt] is the time of that
    write. The sweep, due every 10 minutes, removes exactly the records
    whose stored [startedAt] lies more than one hour back and leaves the
    others as they are; nothing else removes a record. *)
Theorem record_removed_only_by_sweep :
  (∀ j now jobStore,
     set_pending j now jobStore !! j
     = Some {| status := pending; result := None; error := None; startedAt := now |})
  ∧ (∀ j now jobStore, startedAt <$> set_processing j now jobStore !! j = Some now)
  ∧ (∀ j now r jobStore, startedAt <$> settle j now r jobStore !! j = Some now)
  ∧ (∀ now jobStore j,
       sweep now jobStore !! j = None
       ↔ jobStore !! j = None
         ∨ ∃ job, jobStore !! j = Some job ∧ 60 * 60 * 1000 < now - startedAt job)
  ∧ (∀ now jobStore j job,
       sweep now jobStore !! j = Some job → jobStore !! j = Some job)
  ∧ (∀ e jobStore j,
       (∀ now, e ≠ Swept now) → is_Some (jobStore !! j) →
       is_Some (step jobStore e !! j))
  ∧ (∀ boot k, sweep_due boot (S k) - sweep_due boot k = 10 * 60 * 1000).
Proof.
  split; [|split; [|split; [|split; [|split; [|split]]]]].
  - intros j now jobStore. apply lookup_insert_eq.
  - intros j now jobStore. unfold set_processing. by rewrite lookup_insert_eq.
  - intros j now [r|msg] jobStore; simpl; by rewrite lookup_insert_eq.
  - intros now jobStore j. rewrite sweep_lookup. split.
    + destruct (jobStore !! j) as [job|]; [|by left].
      destruct (Z.ltb_spec (startedAt job) (now - 60 * 60 * 1000)); [|done].
      intros _. right. exists job. split; [done | lia].
    + intros [->|(job & -> & Hold)]; [done|].
      destruct (Z.ltb_spec (startedAt job) (now - 60 * 60 * 1000)); [done | lia].
  - intros now jobStore j job. rewrite sweep_lookup.
    destruct (jobStore !! j) as [job'|]; [|done].
    by destruct (startedAt job' <? _).
  - intros e jobStore j Hns [job Hj].
    destruct (written e) as [j'|] eqn:He.
    + destruct (decide (j' = j)) as [->|Hne].
      * rewrite (step_write _ _ _ He).
        destruct e as [| |? ? []|]; simpl in *; try done; by eexists.
      * rewrite (step_other _ _ _ _ He Hne). by eexists.
    + destruct e; try done. by destruct (Hns now).
  - intros boot k. unfold sweep_due, sweep_period. lia.
Qed.

(** That job is gone at a sweep 100 minutes after submission. *)
Lemma record_removed_only_by_sweep_witness :
  sweep 6000000 (run sample_events ∅) !! "job_0_k3x9" = None.
Proof.
  apply (proj1 (proj2 (proj2 (proj2 record_removed_only_by_sweep)))).
  right. eexists. split; [apply lookup_insert_eq|]. simpl. lia.
Defined.

(** C3 as stated fails: the hour is not counted from the creation of the
    record at submission. The job submitted at 0 and completed at 30
    minutes is kept by the sweep at 70 minutes, more than an hour after
    its submission, with [startedAt] at 30 minutes. *)
Lemma retention_not_from_submission :
  let jobStore := run (sample_events ++ [Swept 4200000]) ∅ in
  status <$> jobStore !! "job_0_k3x9" = Some completed
  ∧ startedAt <$> jobStore !! "job_0_k3x9" = Some 1800000
  ∧ startedAt <$> run [Submitted "job_0_k3x9" 0] ∅ !! "job_0_k3x9" = Some 0
  ∧ 60 * 60 * 1000 < 4200000 - 0.
Proof. vm_compute. repeat split. Qed.

End Store.

(** ** From the poll loop to the job record *)

Module Orchestration.
Import Js RunPod Signals Server Samples.

Local Open Scope Z_scope.




Example scenario_completed :
  (λ job, (Server.status job, res_images <$> result job)) <$> background completes_second
  = Some (completed, Some [JStr "aGVsbG8="]).
Proof. vm_compute. reflexivity. Qed.

Example scenario_failed :
  (λ job, (Server.status job, error job)) <$> background fails_first
  = Some (failed, Some "RunPod execution failed: Job failed: OOM")
  ∧ length (requests (executeAsync_try 200 (Ok (JObj [("id", JStr "r1")]))
                        fails_first 0).1) = 1%nat.
Proof. vm_compute. split; reflexivity. Qed.

End Orchestration.

(** ** More on the poll loops *)

Module PollRuns.
Import Js RunPod Signals Traces.

Local Open Scope Z_scope.

(** The normalizer returns on a job of [interface RunPodJob]. *)
Lemma processOutput_job_data (job : RunPodJob) :
  ∃ r, processOutput (job_data job) = Ok r
       ∧ jobId r = JStr (job_id job)
       ∧ (success r = true → RunPod.status r = Some (JStr (status_name (job_status job)))).
Proof.
  unfold processOutput, processOutput_try.
  destruct (extract_images (job_data job)) as [imgs|msg]; simpl;
    eexists; (split; [reflexivity|]); simpl; by split.
Qed.

(** The reply on which the loop of [executeAsync] ends. *)
Lemma first_settled_reply (fuel : nat) (remote : nat → PollStep)
    (jobId : JsVal) (startTime : Z) (i : nat) (now : Z)
    (st : RemoteStatus) (rest : list PollEvent) :
  after_status settles (executeAsync_loop fuel remote jobId startTime i now).1
  = Some (st, rest) →
  rest = []
  ∧ ∃ k job,
      (i ≤ k)%nat ∧ reply (remote k) = Ok job ∧ job_status job = st
      ∧ (∀ m, (i ≤ m < k)%nat →
           ∃ earlier, reply (remote m) = Ok earlier
                      ∧ settles (job_status earlier) = false)
      ∧ (st = COMPLETED →
         (executeAsync_loop fuel remote jobId startTime i now).2
         = completion_of (processOutput (job_data job))
         ∧ ∃ r, processOutput (job_data job) = Ok r
                ∧ RunPod.jobId r = JStr (job_id job))
      ∧ (st = FAILED →
         (executeAsync_loop fuel remote jobId startTime i now).2
         = Thrown ("Job failed: " +:+ error_or_unknown job)).
Proof.
  revert i now. induction fuel as [|fuel IH]; intros i now; [done|].
  cbn [executeAsync_loop]. destruct (_ <? _); [|done].
  unfold getJobStatus.
  destruct (reply (remote i)) as [job|e] eqn:Hreply; [|done].
  case_bool_decide as Hc.
  { simpl. rewrite Hc. simpl. intros [= <- <-]. split; [done|].
    exists i, job. split_and!; [lia|done|done|intros m; lia| |done].
    intros _. split; [done|].
    destruct (processOutput_job_data job) as (r & Hr & Hid & _). by exists r. }
  case_bool_decide as Hf.
  { simpl. rewrite Hf. simpl. intros [= <- <-]. split; [done|].
    exists i, job. split_and!; [lia|done|done|intros m; lia|done|done]. }
  assert (Hs : settles (job_status job) = false) by by destruct (job_status job).
  specialize (IH (S i)
    (now + Z.of_N (latency (remote i)) + 5000 + Z.of_N (oversleep (remote i)))).
  destruct (executeAsync_loop fuel remote jobId startTime (S i) _) as [more c].
  simpl in *. rewrite Hs.
  intros Hafter.
  assert (Hmore : after_status settles more = Some (st, rest)).
  { revert Hafter. by destruct (_ && _). }
  destruct (IH Hmore) as (-> & k & found & Hk & Hr & Hst & Hbefore & Hdone & Hfail).
  split; [done|]. exists k, found.
  split_and!; [lia|done|done| |done|done].
  intros m Hm. destruct (decide (m = i)) as [->|Hne].
  - by exists job.
  - apply Hbefore. lia.
Qed.

(** X1. The loop of [executeAsync] ends at the first reply [COMPLETED] or
    [FAILED], whenever it comes: nothing follows it in the trace, and it
    is the reply to the first query that finds the job in one of these two
    states. On [COMPLETED] the call returns what the normalizer makes of
    the job of that reply, with its identifier; on [FAILED] it throws
    ["Job failed: "] with the error of that reply. *)
Theorem executeAsync_stops_when_settled (fuel : nat) (remote : nat → PollStep)
    (jobId : JsVal) (startTime : Z) (i : nat) (now : Z)
    (st : RemoteStatus) (rest : list PollEvent) :
  after_status settles (executeAsync_loop fuel remote jobId startTime i now).1
  = Some (st, rest) →
  rest = []
  ∧ ∃ k job,
      (i ≤ k)%nat ∧ reply (remote k) = Ok job ∧ job_status job = st
      ∧ (∀ m, (i ≤ m < k)%nat →
           ∃ earlier, reply (remote m) = Ok earlier
                      ∧ settles (job_status earlier) = false)
      ∧ (st = COMPLETED →
         (executeAsync_loop fuel remote jobId startTime i now).2
         = completion_of (processOutput (job_data job))
         ∧ ∃ r, processOutput (job_data job) = Ok r
                ∧ RunPod.jobId r = JStr (job_id job))
      ∧ (st = FAILED →
         (executeAsync_loop fuel remote jobId startTime i now).2
         = Thrown ("Job failed: " +:+ error_or_unknown job)).
Proof. apply first_settled_reply. Qed.

(** The first reply comes 20 minutes after the start, and says completed. *)
Lemma executeAsync_stops_when_settled_witness :
  (executeAsync_loop 5 (λ i, {| latency := 1200000; oversleep := 0;
                                 reply := (Samples.completes_second (S i)).(reply) |})
     (JStr "r1") 0 0 0).2
  = Returned Samples.sample_result.
Proof.
  destruct (executeAsync_stops_when_settled 5
              (λ i, {| latency := 1200000; oversleep := 0;
                       reply := (Samples.completes_second (S i)).(reply) |})
              (JStr "r1") 0 0 0 COMPLETED [] eq_refl)
    as (_ & k & job & _ & _ & _ & _ & Hc & _).
  destruct (Hc eq_refl) as (_ & r & Hr & _). vm_compute. reflexivity.
Defined.

Lemma requests_cons_request (jobId : JsVal) (events : list PollEvent) :
  requests (StatusRequest jobId :: events) = StatusRequest jobId :: requests events.
Proof. done. Qed.

Lemma requests_cons_other (e : PollEvent) (events : list PollEvent) :
  is_request e = false → requests (e :: events) = requests events.
Proof. intros He. unfold requests. rewrite filter_cons_False; [done|]. by rewrite He. Qed.

Lemma polls_left_step (budget interval elapsed elapsed' : Z) :
  0 < interval → elapsed < budget → elapsed + interval <= elapsed' →
  (S (polls_left budget interval elapsed') <= polls_left budget interval elapsed)%nat.
Proof.
  intros Hi Hlt Hle. unfold polls_left.
  assert (H1 : (budget - elapsed' + interval - 1) / interval
               <= (budget - elapsed + interval - 1) / interval - 1).
  { replace ((budget - elapsed + interval - 1) / interval - 1)
      with ((budget - elapsed + interval - 1 + (-1) * interval) / interval)
      by (rewrite Z.div_add; lia).
    apply Z.div_le_mono; lia. }
  assert (H2 : 1 <= (budget - elapsed + interval - 1) / interval).
  { apply Z.div_le_lower_bound; lia. }
  lia.
Qed.

Lemma executeAsync_requests_bound (fuel : nat) (remote : nat → PollStep)
    (jobId : JsVal) (startTime : Z) (i : nat) (now : Z) :
  (length (requests (executeAsync_loop fuel remote jobId startTime i now).1)
   <= polls_left (10 * 60 * 1000) 5000 (now - startTime))%nat.
Proof.
  revert i now. induction fuel as [|fuel IH]; intros i now; [simpl; lia|].
  cbn [executeAsync_loop].
  destruct (Z.ltb_spec (now - startTime) (10 * 60 * 1000)) as [Hlt|Hge];
    [|simpl; lia].
  assert (Hone : (1 <= polls_left (10 * 60 * 1000) 5000 (now - startTime))%nat).
  { pose proof (polls_left_step (10 * 60 * 1000) 5000 (now - startTime)
                  (now - startTime + 5000)). lia. }
  destruct (getJobStatus (remote i)) as [job|e]; [|done].
  case_bool_decide; [done|]. case_bool_decide; [done|].
  specialize (IH (S i)
    (now + Z.of_N (latency (remote i)) + 5000 + Z.of_N (oversleep (remote i)))).
  pose proof (polls_left_step (10 * 60 * 1000) 5000 (now - startTime)
                (now + Z.of_N (latency (remote i)) + 5000
                 + Z.of_N (oversleep (remote i)) - startTime)) as Hstep.
  destruct (executeAsync_loop fuel remote jobId startTime (S i) _) as [more c].
  cbn [fst app] in *. rewrite requests_cons_request, requests_cons_other by done.
  assert (Hcold : ∀ cold, (cold = [] ∨ cold = [ColdStartWarning]) →
                          requests (cold ++ more) = requests more).
  { intros cold [->| ->]; [done|]. by apply requests_cons_other. }
  rewrite Hcold by (destruct (_ && _); auto). simpl. lia.
Qed.

Lemma waitForCompletion_requests_bound (fuel : nat) (remote : nat → PollStep)
    (jobId : JsVal) (maxWaitTime startTime : Z) (i : nat) (now : Z) :
  (length (requests
             (waitForCompletion_loop fuel remote jobId maxWaitTime startTime i now).1)
   <= polls_left maxWaitTime 2000 (now - startTime))%nat.
Proof.
  revert i now. induction fuel as [|fuel IH]; intros i now; [simpl; lia|].
  cbn [waitForCompletion_loop].
  destruct (Z.ltb_spec (now - startTime) maxWaitTime) as [Hlt|Hge]; [|simpl; lia].
  assert (Hone : (1 <= polls_left maxWaitTime 2000 (now - startTime))%nat).
  { pose proof (polls_left_step maxWaitTime 2000 (now - startTime)
                  (now - startTime + 2000)). lia. }
  destruct (getJobStatus (remote i)) as [job|e]; [|done].
  case_bool_decide; [done|]. destruct (_ || _); [done|].
  specialize (IH (S i)
    (now + Z.of_N (latency (remote i)) + 2000 + Z.of_N (oversleep (remote i)))).
  pose proof (polls_left_step maxWaitTime 2000 (now - startTime)
                (now + Z.of_N (latency (remote i)) + 2000
                 + Z.of_N (oversleep (remote i)) - startTime)) as Hstep.
  destruct (waitForCompletion_loop fuel remote jobId maxWaitTime startTime (S i) _)
    as [more c].
  cbn [fst app] in *. rewrite requests_cons_request, requests_cons_other by done.
  simpl. lia.
Qed.

Lemma executeAsync_observed_times (fuel : nat) (remote : nat → PollStep)
    (jobId : JsVal) (startTime : Z) (i : nat) (now : Z) (k : nat) (t : Z) :
  observed_times (executeAsync_loop fuel remote jobId startTime i now).1 !! k = Some t →
  now + 5000 * Z.of_nat k <= t.
Proof.
  revert i now k. induction fuel as [|fuel IH]; intros i now k; [done|].
  cbn [executeAsync_loop]. destruct (_ <? _); [|done].
  destruct (getJobStatus (remote i)) as [job|e]; [|done].
  case_bool_decide.
  { destruct k as [|[|k]]; simpl; try done. intros [= <-]. lia. }
  case_bool_decide.
  { destruct k as [|[|k]]; simpl; try done. intros [= <-]. lia. }
  specialize (IH (S i)
    (now + Z.of_N (latency (remote i)) + 5000 + Z.of_N (oversleep (remote i)))).
  destruct (executeAsync_loop fuel remote jobId startTime (S i) _) as [more c].
  cbn [fst] in *.
  assert (Hcold : ∀ cold, (cold = [] ∨ cold = [ColdStartWarning]) →
    observed_times ([StatusRequest jobId;
                     Observed (job_status job) (now + Z.of_N (latency (remote i)))]
                    ++ cold ++ more)
    = (now + Z.of_N (latency (remote i))) :: observed_times more).
  { by intros cold [->| ->]. }
  rewrite Hcold by (destruct (_ && _); auto).
  destruct k as [|k]; simpl.
  - intros [= <-]. lia.
  - intros Hk%IH. lia.
Qed.

Lemma waitForCompletion_observed_times (fuel : nat) (remote : nat → PollStep)
    (jobId : JsVal) (maxWaitTime startTime : Z) (i : nat) (now : Z) (k : nat) (t : Z) :
  observed_times
    (waitForCompletion_loop fuel remote jobId maxWaitTime startTime i now).1 !! k
  = Some t →
  now + 2000 * Z.of_nat k <= t.
Proof.
  revert i now k. induction fuel as [|fuel IH]; intros i now k; [done|].
  cbn [waitForCompletion_loop]. destruct (_ <? _); [|done].
  destruct (getJobStatus (remote i)) as [job|e]; [|done].
  case_bool_decide.
  { destruct k as [|[|k]]; simpl; try done. intros [= <-]. lia. }
  destruct (_ || _).
  { destruct k as [|[|k]]; simpl; try done. intros [= <-]. lia. }
  specialize (IH (S i)
    (now + Z.of_N (latency (remote i)) + 2000 + Z.of_N (oversleep (remote i)))).
  destruct (waitForCompletion_loop fuel remote jobId maxWaitTime startTime (S i) _)
    as [more c].
  cbn [fst] in *. destruct k as [|k]; simpl.
  - intros [= <-]. lia.
  - intros Hk%IH. lia.
Qed.

(** X2. A call of [executeAsync] makes at most 120 status queries and a
    call of [waitForCompletion] at most one per 2 seconds of its budget
    (none when the budget is not positive); the [k]-th reply comes no
    earlier than [k] poll intervals after the start; and either loop ends
    once the model has fuel for one query more than that. *)
Theorem poll_budget (fuel : nat) (remote : nat → PollStep) (jobId : JsVal)
    (maxWaitTime startTime : Z) :
  (length (requests (executeAsync_loop fuel remote jobId startTime 0 startTime).1)
   <= 120)%nat
  ∧ (∀ k t, observed_times
              (executeAsync_loop fuel remote jobId startTime 0 startTime).1 !! k
            = Some t → startTime + 5000 * Z.of_nat k <= t)
  ∧ ((121 <= fuel)%nat →
     (executeAsync_loop fuel remote jobId startTime 0 startTime).2 ≠ OutOfFuel)
  ∧ (length (requests (waitForCompletion fuel remote jobId maxWaitTime startTime).1)
     <= polls_left maxWaitTime 2000 0)%nat
  ∧ (maxWaitTime <= 0 →
     requests (waitForCompletion fuel remote jobId maxWaitTime startTime).1 = [])
  ∧ (∀ k t, observed_times
              (waitForCompletion fuel remote jobId maxWaitTime startTime).1 !! k
            = Some t → startTime + 2000 * Z.of_nat k <= t)
  ∧ ((polls_left maxWaitTime 2000 0 < fuel)%nat →
     (waitForCompletion fuel remote jobId maxWaitTime startTime).2 ≠ OutOfFuel).
Proof.
  pose proof (executeAsync_requests_bound fuel remote jobId startTime 0 startTime) as B1.
  pose proof (waitForCompletion_requests_bound fuel remote jobId maxWaitTime
                startTime 0 startTime) as B2.
  rewrite Z.sub_diag in B1, B2.
  change (polls_left (10 * 60 * 1000) 5000 0) with 120%nat in B1.
  split_and!.
  - exact B1.
  - intros k t. apply executeAsync_observed_times.
  - intros Hfuel. apply Poller.executeAsync_loop_returns; lia.
  - exact B2.
  - intros Hm. unfold waitForCompletion.
    assert ((maxWaitTime - 0 + 2000 - 1) / 2000 < 1)
      by (apply Z.div_lt_upper_bound; lia).
    unfold polls_left in B2.
    destruct (requests (waitForCompletion_loop _ _ _ _ _ _ _).1);
      [done | simpl in B2; lia].
  - intros k t. apply waitForCompletion_observed_times.
  - intros Hfuel. apply Poller.waitForCompletion_loop_returns; [lia|].
    unfold polls_left in Hfuel.
    assert (maxWaitTime - 0 + 2000 - 1
            < 2000 * ((maxWaitTime - 0 + 2000 - 1) / 2000 + 1)).
    { pose proof (Z.mul_succ_div_gt (maxWaitTime - 0 + 2000 - 1) 2000). lia. }
    lia.
Qed.

(** A budget of 5 seconds, the job queued for good: three queries. *)
Lemma poll_budget_witness :
  (waitForCompletion 10 (steady queued_job) (JStr "r1") 5000 0).2
  ≠ OutOfFuel.
Proof.
  apply (proj2 (proj2 (proj2 (proj2 (proj2 (proj2
           (poll_budget 10 (steady queued_job) (JStr "r1") 5000 0))))))).
  vm_compute. lia.
Defined.

Lemma not_query_failure_timeout (e : string) :
  Thrown timeout_message ≠ Thrown ("Failed to get job status: " +:+ e).
Proof. intros [= H]. Qed.

Lemma last_after_reply (jobId : JsVal) (o : PollEvent) (cold more : list PollEvent) :
  is_request o = false →
  cold = [] ∨ cold = [ColdStartWarning] →
  last (StatusRequest jobId :: o :: cold ++ more) = Some (StatusRequest jobId) →
  more ≠ [] ∧ last more = Some (StatusRequest jobId).
Proof.
  intros Ho Hcold.
  change (StatusRequest jobId :: o :: cold ++ more)
    with ([StatusRequest jobId; o] ++ cold ++ more).
  rewrite !last_app. destruct (last more) as [x|] eqn:Hm.
  - intros [= ->]. split; [|done]. by intros ->.
  - destruct Hcold as [-> | ->]; simpl; intros [= ->]; done.
Qed.

Lemma executeAsync_query_failure (fuel : nat) (remote : nat → PollStep)
    (jobId : JsVal) (startTime : Z) (i : nat) (now : Z) :
  ((executeAsync_loop fuel remote jobId startTime i now).1 = [] →
   (executeAsync_loop fuel remote jobId startTime i now).2 = OutOfFuel
   ∨ (executeAsync_loop fuel remote jobId startTime i now).2 = Thrown timeout_message)
  ∧ ((∃ e, (executeAsync_loop fuel remote jobId startTime i now).2
           = Thrown ("Failed to get job status: " +:+ e))
     ↔ last (executeAsync_loop fuel remote jobId startTime i now).1
       = Some (StatusRequest jobId)).
Proof.
  revert i now. induction fuel as [|fuel IH]; intros i now.
  { simpl. split; [by left|]. split; [by intros [e ?] | done]. }
  cbn [executeAsync_loop]. destruct (_ <? _).
  2:{ simpl. split; [by right|]. split; [|done].
      intros [e He]. by apply not_query_failure_timeout in He. }
  unfold getJobStatus. destruct (reply (remote i)) as [job|e0].
  2:{ simpl. split; [done|]. split; [done|]. intros _. by exists e0. }
  case_bool_decide.
  { simpl. split; [done|]. split; [|done].
    destruct (processOutput_job_data job) as (r & -> & _). by intros [e ?]. }
  case_bool_decide.
  { simpl. split; [done|]. split; [|done]. intros [e [= He]]. }
  specialize (IH (S i)
    (now + Z.of_N (latency (remote i)) + 5000 + Z.of_N (oversleep (remote i)))).
  destruct (executeAsync_loop fuel remote jobId startTime (S i) _) as [more c].
  cbn [fst snd app] in *. destruct IH as [IH1 IH2].
  split; [done|]. split.
  - intros Hq. apply IH2 in Hq as Hl.
    change (StatusRequest jobId :: ?o :: ?cold ++ more)
      with ([StatusRequest jobId; o] ++ cold ++ more).
    by rewrite !last_app, Hl.
  - intros Hl. apply last_after_reply in Hl as [_ Hl]; [by apply IH2|done|].
    destruct (_ && _); auto.
Qed.

Lemma waitForCompletion_query_failure (fuel : nat) (remote : nat → PollStep)
    (jobId : JsVal) (maxWaitTime startTime : Z) (i : nat) (now : Z) :
  (∃ e, (waitForCompletion_loop fuel remote jobId maxWaitTime startTime i now).2
        = Thrown ("Failed to get job status: " +:+ e))
  ↔ last (waitForCompletion_loop fuel remote jobId maxWaitTime startTime i now).1
    = Some (StatusRequest jobId).
Proof.
  revert i now. induction fuel as [|fuel IH]; intros i now.
  { simpl. split; [by intros [e ?] | done]. }
  cbn [waitForCompletion_loop]. destruct (_ <? _).
  2:{ simpl. split; [|done].
      intros [e He]. by apply not_query_failure_timeout in He. }
  unfold getJobStatus. destruct (reply (remote i)) as [job|e0].
  2:{ simpl. split; [done|]. intros _. by exists e0. }
  case_bool_decide.
  { simpl. split; [|done].
    destruct (processOutput_job_data job) as (r & -> & _). by intros [e ?]. }
  destruct (_ || _).
  { simpl. split; [|done]. intros [e [= He]]. }
  specialize (IH (S i)
    (now + Z.of_N (latency (remote i)) + 2000 + Z.of_N (oversleep (remote i)))).
  destruct (waitForCompletion_loop fuel remote jobId maxWaitTime startTime (S i) _)
    as [more c].
  cbn [fst snd app] in *. split.
  - intros Hq. apply IH in Hq as Hl.
    change (StatusRequest jobId :: ?o :: more)
      with ([StatusRequest jobId; o] ++ more).
    by rewrite last_app, Hl.
  - intros Hl.
    apply (last_after_reply jobId _ [] more) in Hl as [_ Hl]; [by apply IH|done|auto].
Qed.

(** X3. A status query that fails is the last thing either loop does: the
    run ends with the error of [getJobStatus] exactly when the trace ends
    on a query without reply; no query is made again. *)
Theorem failed_query_ends_run (fuel : nat) (remote : nat → PollStep)
    (jobId : JsVal) (maxWaitTime startTime : Z) (i : nat) (now : Z) :
  ((∃ e, (executeAsync_loop fuel remote jobId startTime i now).2
         = Thrown ("Failed to get job status: " +:+ e))
   ↔ last (executeAsync_loop fuel remote jobId startTime i now).1
     = Some (StatusRequest jobId))
  ∧ ((∃ e, (waitForCompletion_loop fuel remote jobId maxWaitTime startTime i now).2
           = Thrown ("Failed to get job status: " +:+ e))
     ↔ last (waitForCompletion_loop fuel remote jobId maxWaitTime startTime i now).1
       = Some (StatusRequest jobId)).
Proof.
  split.
  - apply executeAsync_query_failure.
  - apply waitForCompletion_query_failure.
Qed.

(** The second query meets a network error. *)
Lemma failed_query_ends_run_witness :
  let remote i := {| latency := 10; oversleep := 3;
                     reply := match i with
                              | 1%nat => Throw "Network Error"
                              | _ => Ok queued_job
                              end |} in
  last (executeAsync_loop 10 remote (JStr "r1") 0 0 0).1 = Some (StatusRequest (JStr "r1"))
  ∧ length (requests (executeAsync_loop 10 remote (JStr "r1") 0 0 0).1) = 2%nat.
Proof.
  intros remote. split; [|reflexivity].
  apply (proj1 (failed_query_ends_run 10 remote (JStr "r1") 0 0 0 0)).
  exists "Network Error". reflexivity.
Defined.

(** X4. [waitForCompletion] ends at the first reply with a terminal
    status, whenever it comes: nothing follows it in the trace, and it is
    the reply to the first query that finds the job in a terminal state.
    On [COMPLETED] the call returns what the normalizer makes of the job
    of that reply; on [FAILED], [CANCELLED] and [TIMED_OUT] it throws a
    message made of the status in lower case and the error of that
    reply. *)
Theorem waitForCompletion_stops_when_terminal (fuel : nat) (remote : nat → PollStep)
    (jobId : JsVal) (maxWaitTime startTime : Z) (i : nat) (now : Z)
    (st : RemoteStatus) (rest : list PollEvent) :
  after_terminal (waitForCompletion_loop fuel remote jobId maxWaitTime startTime i now).1
  = Some (st, rest) →
  rest = []
  ∧ ∃ k job,
      (i ≤ k)%nat ∧ reply (remote k) = Ok job ∧ job_status job = st
      ∧ (∀ m, (i ≤ m < k)%nat →
           ∃ earlier, reply (remote m) = Ok earlier
                      ∧ terminal (job_status earlier) = false)
      ∧ (st = COMPLETED →
         (waitForCompletion_loop fuel remote jobId maxWaitTime startTime i now).2
         = completion_of (processOutput (job_data job))
         ∧ ∃ r, processOutput (job_data job) = Ok r
                ∧ RunPod.jobId r = JStr (job_id job))
      ∧ (st ≠ COMPLETED →
         (waitForCompletion_loop fuel remote jobId maxWaitTime startTime i now).2
         = Thrown ("Job " +:+ toLowerCase (status_name st) +:+ ": "
                   +:+ error_or_unknown job)).
Proof.
  revert i now. induction fuel as [|fuel IH]; intros i now; [done|].
  cbn [waitForCompletion_loop].
  destruct (_ <? _); [|done].
  unfold getJobStatus.
  destruct (reply (remote i)) as [job|e] eqn:Hreply; [|done].
  case_bool_decide as Hc.
  { simpl. rewrite Hc. simpl. intros [= <- <-]. split; [done|].
    exists i, job. split_and!; [lia|done|done|intros m; lia| |done].
    intros _. split; [done|].
    destruct (processOutput_job_data job) as (r & Hr & Hid & _). by exists r. }
  destruct (_ || _) eqn:Hterm.
  { simpl. destruct (job_status job) eqn:Hst; try done;
      intros [= <- <-]; (split; [done|]); exists i, job;
      (split_and!; [lia|done|done|intros m; lia|done|done]). }
  assert (Hs : terminal (job_status job) = false).
  { destruct (job_status job); try done; by destruct Hc. }
  specialize (IH (S i)
    (now + Z.of_N (latency (remote i)) + 2000 + Z.of_N (oversleep (remote i)))).
  destruct (waitForCompletion_loop fuel remote jobId maxWaitTime startTime (S i) _)
    as [more c].
  simpl in *. rewrite Hs. intros Hmore.
  destruct (IH Hmore) as (-> & k & found & Hk & Hr & Hst & Hbefore & Hdone & Hfail).
  split; [done|]. exists k, found.
  split_and!; [lia|done|done| |done|done].
  intros m Hm. destruct (decide (m = i)) as [->|Hne].
  - by exists job.
  - apply Hbefore. lia.
Qed.

(** The job is reported [TIMED_OUT] at the first poll. *)
Lemma waitForCompletion_stops_when_terminal_witness :
  (waitForCompletion_loop 10
     (steady {| job_id := "r1"; job_status := TIMED_OUT; job_output := None;
                job_error := None |})
     (JStr "r1") 300000 0 0 0).2
  = Thrown "Job timed_out: Unknown error".
Proof.
  destruct (waitForCompletion_stops_when_terminal 10
     (steady {| job_id := "r1"; job_status := TIMED_OUT; job_output := None;
                job_error := None |})
     (JStr "r1") 300000 0 0 0 TIMED_OUT [] eq_refl)
    as (_ & k & job & _ & Hreply & _ & _ & _ & H).
  injection Hreply as <-. apply H. discriminate.
Defined.

End PollRuns.

(** ** More on the normalizer *)

Module Extracts.
Import Js RunPod Picks.

Lemma push_flat_pick (acc : list JsVal) (img : JsVal) :
  nullish img = false →
  push_flat_image acc img = Ok (acc ++ option_list (flat_pick img)).
Proof.
  intros Hn. unfold push_flat_image, flat_pick, read_prop. rewrite Hn.
  destruct (is_string img); [done|]. simpl.
  destruct (truthy (get_prop img "data")); simpl; [done|]. by rewrite app_nil_r.
Qed.

Lemma push_flat_nullish (acc : list JsVal) (img : JsVal) :
  nullish img = true → push_flat_image acc img = Throw (read_error img "data").
Proof.
  by destruct img.
Qed.

Lemma push_node_pick (acc : list JsVal) (img : JsVal) :
  nullish img = false →
  push_node_image acc img = Ok (acc ++ option_list (node_pick img)).
Proof.
  intros Hn. unfold push_node_image, node_pick, read_prop. rewrite Hn.
  destruct (is_string img); [done|]. simpl.
  destruct (truthy (get_prop img "data")); simpl; [done|].
  destruct (truthy (js_or _ _)); simpl; [done|]. by rewrite app_nil_r.
Qed.

Lemma push_node_nullish (acc : list JsVal) (img : JsVal) :
  nullish img = true → push_node_image acc img = Throw (read_error img "data").
Proof.
  by destruct img.
Qed.

Lemma forEach_picks (push : list JsVal → JsVal → outcome (list JsVal))
    (pick : JsVal → option JsVal) (elems acc : list JsVal) :
  (∀ acc img, nullish img = false → push acc img = Ok (acc ++ option_list (pick img))) →
  (∀ acc img, nullish img = true → push acc img = Throw (read_error img "data")) →
  forEach push elems acc
  = match first_nullish elems with
    | Some bad => Throw (read_error bad "data")
    | None => Ok (acc ++ omap pick elems)
    end.
Proof.
  intros Hok Hbad. revert acc.
  induction elems as [|img elems IH]; intros acc.
  { simpl. by rewrite app_nil_r. }
  unfold first_nullish in *. cbn [forEach list_find].
  destruct (nullish img) eqn:Hn.
  - rewrite (Hbad _ _ Hn). by rewrite decide_True.
  - rewrite (Hok _ _ Hn). rewrite decide_False by done. simpl.
    rewrite IH. destruct (list_find _ elems) as [[k bad]|]; simpl; [done|].
    destruct (pick img); simpl; by rewrite <- ?app_assoc.
Qed.

Lemma length_omap_le {A B : Type} (f : A → option B) (l : list A) :
  length (omap f l) ≤ length l.
Proof. induction l as [|x l IH]; csimpl; [done|]. destruct (f x); simpl; lia. Qed.

(** X5. In an [output.images] array every string is kept, every other
    element gives its truthy [data] or nothing, in order, so that never
    more images come out than the array has elements; and the normalizer
    fails, with the message of the [TypeError] and no image, exactly when
    an element is [null] or [undefined]. The elements of the [images] of a
    node go the same way, with [image] and [base64] tried after [data]. *)
Theorem flat_array_element_by_element (data : JsVal)
    (fields : list (string * JsVal)) (elems : list JsVal)
    (extra : list (string * JsVal)) :
  nullish data = false →
  get_prop data "output" = JObj fields →
  assoc_get "images" fields = Some (JArr elems extra) →
  processOutput data
  = Ok match first_nullish elems with
       | None =>
           {| success := true; jobId := get_prop data "id";
              message := "Image generation completed successfully";
              images := omap flat_pick elems;
              status := Some (get_prop data "status") |}
       | Some bad =>
           {| success := false; jobId := get_prop data "id";
              message := "Failed to process output: " +:+ read_error bad "data";
              images := []; status := None |}
       end
  ∧ length (omap flat_pick elems) ≤ length elems
  ∧ (∀ acc, forEach push_node_image elems acc
            = match first_nullish elems with
              | Some bad => Throw (read_error bad "data")
              | None => Ok (acc ++ omap node_pick elems)
              end).
Proof.
  intros Hn Hout Himgs. split; [|split].
  - unfold processOutput, processOutput_try, extract_images, read_prop.
    rewrite Hn. cbn [mbind outcome_bind]. rewrite Hout.
    cbn [truthy get_prop]. rewrite Himgs. cbn [default from_option id is_array array_elems].
    rewrite (forEach_picks _ flat_pick);
      [|apply push_flat_pick|apply push_flat_nullish].
    by destruct (first_nullish elems).
  - apply length_omap_le.
  - intros acc. apply forEach_picks; [apply push_node_pick|apply push_node_nullish].
Qed.

(** A string, an object with [data], a number, an object without. *)
Lemma flat_array_element_by_element_witness :
  processOutput
    (Shapes.response "r1"
       (JObj [("images",
               JArr [JStr "a"; JObj [("data", JStr "b"); ("type", JStr "base64")];
                     JNum (inject_Z 7); JObj [("image", JStr "c")]] [])]))
  = Ok {| success := true; jobId := JStr "r1";
          message := "Image generation completed successfully";
          images := [JStr "a"; JStr "b"]; status := Some (JStr "COMPLETED") |}.
Proof.
  apply (proj1 (flat_array_element_by_element
           (Shapes.response "r1"
              (JObj [("images",
                      JArr [JStr "a"; JObj [("data", JStr "b"); ("type", JStr "base64")];
                            JNum (inject_Z 7); JObj [("image", JStr "c")]] [])]))
           [("images",
             JArr [JStr "a"; JObj [("data", JStr "b"); ("type", JStr "base64")];
                   JNum (inject_Z 7); JObj [("image", JStr "c")]] [])]
           [JStr "a"; JObj [("data", JStr "b"); ("type", JStr "base64")];
            JNum (inject_Z 7); JObj [("image", JStr "c")]]
           [] eq_refl eq_refl eq_refl)).
Defined.

End Extracts.

(** ** The first shape that applies *)

Module FirstShape.
Import Js RunPod Shapes Picks.





End FirstShape.

(** ** The service: construction and the synchronous call *)

Module ServiceFacts.
Import Js RunPod Service.

(** X6. A service that was constructed is initialised: [init] returns
    [true] on it, its key and endpoint are not empty, its base address is
    the configured one followed by the endpoint, and a key given in the
    configuration has precedence over the environment. *)
Theorem constructed_service_passes_init (env : Environment) (default_path : string)
    (config : option PartialConfig) (path : option string) (service : RunPodService) :
  constructor env default_path config path = Ok service →
  init service = Ok true
  ∧ apiKey (Service.config service) ≠ EmptyString
  ∧ endpointId (Service.config service) ≠ EmptyString
  ∧ service_baseUrl service
    = baseUrl (Service.config service) +:+ "/" +:+ endpointId (Service.config service)
  ∧ (∀ key, given config given_apiKey = Some key → key ≠ EmptyString →
            apiKey (Service.config service) = key)
  ∧ (given config given_apiKey = None →
     ∀ key, RUNPOD_API_KEY env = Some key → apiKey (Service.config service) = key).
Proof.
  unfold constructor. cbn [apiKey endpointId baseUrl].
  destruct (String.eqb_spec (or_string (given config given_apiKey)
                               (or_string (RUNPOD_API_KEY env) EmptyString))
              EmptyString) as [|Hk]; [done|].
  destruct (String.eqb_spec (or_string (given config given_endpointId)
                               (or_string (RUNPOD_ENDPOINT_ID env) EmptyString))
              EmptyString) as [|He]; [done|].
  intros [= <-]. unfold init. cbn.
  destruct (String.eqb_spec (or_string (given config given_apiKey)
                               (or_string (RUNPOD_API_KEY env) EmptyString))
              EmptyString); [done|].
  destruct (String.eqb_spec (or_string (given config given_endpointId)
                               (or_string (RUNPOD_ENDPOINT_ID env) EmptyString))
              EmptyString); [done|].
  split_and!; try done.
  - intros key -> Hkey. simpl. by destruct (String.eqb_spec key EmptyString).
  - intros -> key Henv. simpl. rewrite Henv. simpl.
    destruct (String.eqb_spec key EmptyString) as [->|]; [|done].
    rewrite Henv in Hk. by simpl in Hk.
Qed.

(** The key comes from the environment, the endpoint from the argument. *)
Lemma constructed_service_passes_init_witness :
  init {| config := {| apiKey := "rp_key"; endpointId := "ep1";
                       baseUrl := "https://api.runpod.ai/v2" |};
          service_baseUrl := "https://api.runpod.ai/v2/ep1";
          workflowPath := "/app/workflow-image-edit.json" |}
  = Ok true.
Proof.
  apply (constructed_service_passes_init
           {| RUNPOD_API_KEY := Some "rp_key"; RUNPOD_ENDPOINT_ID := None;
              RUNPOD_API_URL := None |}
           "/app/workflow-image-edit.json"
           (Some {| given_apiKey := None; given_endpointId := Some "ep1";
                    given_baseUrl := None |})
           None).
  reflexivity.
Defined.

(** X7. The image [executeSync] posts always starts with ["data:"]: an
    argument that does is passed as it is, any other gets the PNG prefix,
    and doing it twice changes nothing more. [executeAsync] posts the
    argument as it is. Both post the workflow unchanged under
    [input.workflow]. *)
Theorem sync_image_is_a_data_uri (workflow : JsVal) (img : string) :
  img ≠ EmptyString →
  String.prefix "data:" (data_uri img) = true
  ∧ data_uri (data_uri img) = data_uri img
  ∧ (String.prefix "data:" img = true → data_uri img = img)
  ∧ posted_image (executeSync_payload workflow (Some img)) = JStr (data_uri img)
  ∧ posted_image (executeAsync_payload workflow (Some img)) = JStr img
  ∧ get_prop (get_prop (executeSync_payload workflow (Some img)) "input") "workflow"
    = workflow
  ∧ get_prop (get_prop (executeAsync_payload workflow (Some img)) "input") "workflow"
    = workflow.
Proof.
  intros Hne.
  assert (Hp : String.prefix "data:" (data_uri img) = true).
  { unfold data_uri. destruct (String.prefix "data:" img) eqn:E; [done|].
    reflexivity. }
  split_and!.
  - exact Hp.
  - unfold data_uri at 1. by rewrite Hp.
  - intros H. unfold data_uri. by rewrite H.
  - unfold executeSync_payload.
    destruct (String.eqb_spec img EmptyString); [done|]. reflexivity.
  - unfold executeAsync_payload.
    destruct (String.eqb_spec img EmptyString); [done|]. reflexivity.
  - unfold executeSync_payload.
    destruct (String.eqb_spec img EmptyString); [done|]. reflexivity.
  - reflexivity.
Qed.

Lemma sync_image_is_a_data_uri_witness :
  posted_image (executeSync_payload (JObj []) (Some "aGVsbG8="))
  = JStr "data:image/png;base64,aGVsbG8=".
Proof.
  apply (sync_image_is_a_data_uri (JObj []) "aGVsbG8="). discriminate.
Defined.

(** X8. [executeSync] does not look at the status of the job: for every
    response body that is not [null] or [undefined] it returns a result
    and throws nothing, and for a body without [output] that result is a
    success with no images, whatever [status] and [error] say. A failed
    request, and a body that is [null], end in an error that starts with
    ["RunPod execution failed: "]. *)
Theorem executeSync_ignores_status (data : JsVal) :
  nullish data = false →
  (∃ r, execution_failed (executeSync_try (Ok data)) = Returned r)
  ∧ (truthy (get_prop data "output") = false →
     execution_failed (executeSync_try (Ok data))
     = Returned {| success := true; jobId := get_prop data "id";
                   message := "Image generation completed successfully";
                   images := []; status := Some (get_prop data "status") |})
  ∧ (∀ e, execution_failed (executeSync_try (Throw e))
          = Thrown ("RunPod execution failed: " +:+ e))
  ∧ execution_failed (executeSync_try (Ok JNull))
    = Thrown "RunPod execution failed: Cannot read properties of null (reading 'id')".
Proof.
  intros Hn.
  assert (Hread : ∀ k, read_prop data k = Ok (get_prop data k)).
  { intros k. unfold read_prop. by rewrite Hn. }
  split_and!; try done.
  - unfold executeSync_try. rewrite Hread.
    unfold processOutput, processOutput_try.
    destruct (extract_images data); simpl; rewrite ?Hread; simpl; by eexists.
  - intros Hout. unfold executeSync_try. rewrite Hread.
    unfold processOutput, processOutput_try, extract_images.
    rewrite !Hread. simpl. rewrite Hout. simpl. by rewrite ?Hread.
Qed.

(** The remote side answers that the job failed. *)
Lemma executeSync_ignores_status_witness :
  execution_failed
    (executeSync_try (Ok (JObj [("id", JStr "r1"); ("status", JStr "FAILED");
                                ("error", JStr "OOM")])))
  = Returned {| success := true; jobId := JStr "r1";
                message := "Image generation completed successfully";
                images := []; status := Some (JStr "FAILED") |}.
Proof.
  apply (proj1 (proj2 (executeSync_ignores_status
           (JObj [("id", JStr "r1"); ("status", JStr "FAILED");
                  ("error", JStr "OOM")]) eq_refl))).
  reflexivity.
Defined.

End ServiceFacts.

(** ** The workflow, node by node *)

Module Builds.
Import Js RunPod Targets Samples JsFacts NodeView.

Section WithNumberFormat.

Variable number_to_string : Q → string.

#[local] Abbreviation set_input := (set_input number_to_string).
#[local] Abbreviation patch_positive := (patch_positive number_to_string).
#[local] Abbreviation patch_negative := (patch_negative number_to_string).
#[local] Abbreviation patch_unet := (patch_unet number_to_string).
#[local] Abbreviation patch_clip := (patch_clip number_to_string).
#[local] Abbreviation patch_vae := (patch_vae number_to_string).
#[local] Abbreviation patch_shift := (patch_shift number_to_string).
#[local] Abbreviation patch_strength := (patch_strength number_to_string).
#[local] Abbreviation patch_seed := (patch_seed number_to_string).
#[local] Abbreviation patch_loaders := (patch_loaders number_to_string).
#[local] Abbreviation buildWorkflow := (buildWorkflow number_to_string).

(** One assignment, seen from the nodes. *)
Lemma set_input_node (w : JsVal) (n f : string) (v : JsVal) (w' : JsVal) :
  set_input w n f v = Ok w' →
  get_prop w' n = assign_inputs (get_prop w n) f v
  ∧ (∀ m, m ≠ n → get_prop w' m = get_prop w m)
  ∧ is_container (get_prop (get_prop w n) "inputs") = true.
Proof.
  intros [Hc ->]%Parameterizer.set_input_Ok.
  pose proof (get_container_base _ _ Hc) as Hnode.
  split_and!; [|by intros m Hm; apply get_put_ne|done].
  by rewrite get_put_back.
Qed.

Lemma assign_inputs_container (node : JsVal) (f : string) (v : JsVal) :
  is_container (get_prop node "inputs") = true →
  is_container (get_prop (assign_inputs node f v) "inputs") = true.
Proof.
  intros Hc. unfold assign_inputs. rewrite get_put_back by done.
  by rewrite container_put.
Qed.

Lemma guarded_pair_node (cond : bool) (w : JsVal) (n f1 f2 : string)
    (v1 v2 : JsVal) (w' : JsVal) :
  (if cond then w1 ← set_input w n f1 v1; set_input w1 n f2 v2 else Ok w) = Ok w' →
  get_prop w' n
  = (if cond then assign_inputs (assign_inputs (get_prop w n) f1 v1) f2 v2
     else get_prop w n)
  ∧ (∀ m, m ≠ n → get_prop w' m = get_prop w m)
  ∧ (cond = true → is_container (get_prop (get_prop w n) "inputs") = true).
Proof.
  destruct cond; [|by intros [= <-]].
  destruct (set_input w n f1 v1) as [w1|] eqn:E1; simpl; [|done].
  intros E2.
  apply set_input_node in E1 as (N1 & O1 & C1).
  apply set_input_node in E2 as (N2 & O2 & C2).
  split_and!; [by rewrite N2, N1| |done].
  intros m Hm. by rewrite O2, O1.
Qed.

Lemma guarded_single_node (cond : bool) (w : JsVal) (n f : string)
    (v : JsVal) (w' : JsVal) :
  (if cond then set_input w n f v else Ok w) = Ok w' →
  get_prop w' n = (if cond then assign_inputs (get_prop w n) f v else get_prop w n)
  ∧ (∀ m, m ≠ n → get_prop w' m = get_prop w m)
  ∧ (cond = true → is_container (get_prop (get_prop w n) "inputs") = true).
Proof.
  destruct cond; [|by intros [= <-]].
  intros (N & O & C)%set_input_node. by split_and!.
Qed.

(** The build, node by node. *)
Lemma build_nodewise (workflowData : option JsVal) (random : nat → Double)
    (calls : nat) (prompt : string) (imageBase64 : option string)
    (template w' : JsVal) (calls' : nat) (n : string) :
  load_workflow workflowData = Ok template →
  buildWorkflow workflowData random calls prompt imageBase64 = (Ok w', calls') →
  get_prop w' n
  = built_node prompt (random_seed (random calls)) n (get_prop template n)
  ∧ (patched n (get_prop template n) = true →
     is_container (get_prop (get_prop template n) "inputs") = true).
Proof.
  intros Hload. unfold RunPod.buildWorkflow. rewrite Hload. simpl.
  unfold RunPod.patch_loaders.
  destruct (patch_positive prompt template) as [w1|] eqn:E1; simpl; [|done].
  destruct (patch_negative w1) as [w2|] eqn:E2; simpl; [|done].
  destruct (patch_unet w2) as [w3|] eqn:E3; simpl; [|done].
  destruct (patch_clip w3) as [w4|] eqn:E4; simpl; [|done].
  destruct (patch_vae w4) as [w5|] eqn:E5; simpl; [|done].
  destruct (patch_shift w5) as [w6|] eqn:E6; simpl; [|done].
  destruct (patch_strength w6) as [w7|] eqn:E7; simpl; [|done].
  intros [= E8 _].
  apply guarded_pair_node in E1 as (N1 & O1 & C1).
  apply guarded_pair_node in E2 as (N2 & O2 & C2).
  apply guarded_pair_node in E3 as (N3 & O3 & C3).
  apply guarded_pair_node in E4 as (N4 & O4 & C4).
  apply guarded_single_node in E5 as (N5 & O5 & C5).
  apply guarded_single_node in E6 as (N6 & O6 & C6).
  apply guarded_single_node in E7 as (N7 & O7 & C7).
  apply guarded_single_node in E8 as (N8 & O8 & C8).
  unfold has_inputs, input_of in *.
  destruct (decide (n = "111")) as [->|H1].
  { rewrite ?O8, ?O7, ?O6, ?O5, ?O4, ?O3, ?O2 by discriminate.
    rewrite N1. split; [|exact C1].
    unfold built_node, patched, node_has_inputs. simpl.
    by match goal with |- (if ?c then _ else _) = _ => destruct c end. }
  destruct (decide (n = "110")) as [->|H2].
  { rewrite ?O8, ?O7, ?O6, ?O5, ?O4, ?O3 by discriminate.
    rewrite N2. rewrite ?O1 in * by discriminate. split; [|exact C2].
    unfold built_node, patched, node_has_inputs. simpl.
    by match goal with |- (if ?c then _ else _) = _ => destruct c end. }
  destruct (decide (n = "37")) as [->|H3].
  { rewrite ?O8, ?O7, ?O6, ?O5, ?O4 by discriminate.
    rewrite N3. rewrite ?O2, ?O1 in * by discriminate. split; [|exact C3].
    unfold built_node, patched, node_has_inputs, node_input. simpl.
    by match goal with |- (if ?c then _ else _) = _ => destruct c end. }
  destruct (decide (n = "38")) as [->|H4].
  { rewrite ?O8, ?O7, ?O6, ?O5 by discriminate.
    rewrite N4. rewrite ?O3, ?O2, ?O1 in * by discriminate. split; [|exact C4].
    unfold built_node, patched, node_has_inputs, node_input. simpl.
    by match goal with |- (if ?c then _ else _) = _ => destruct c end. }
  destruct (decide (n = "39")) as [->|H5].
  { rewrite ?O8, ?O7, ?O6 by discriminate.
    rewrite N5. rewrite ?O4, ?O3, ?O2, ?O1 in * by discriminate.
    split; [|exact C5].
    unfold built_node, patched, node_has_inputs, node_input. simpl.
    by match goal with |- (if ?c then _ else _) = _ => destruct c end. }
  destruct (decide (n = "66")) as [->|H6].
  { rewrite ?O8, ?O7 by discriminate.
    rewrite N6. rewrite ?O5, ?O4, ?O3, ?O2, ?O1 in * by discriminate.
    split; [|exact C6].
    unfold built_node, patched, node_has_inputs, node_input. simpl.
    by match goal with |- (if ?c then _ else _) = _ => destruct c end. }
  destruct (decide (n = "75")) as [->|H7].
  { rewrite ?O8 by discriminate.
    rewrite N7. rewrite ?O6, ?O5, ?O4, ?O3, ?O2, ?O1 in * by discriminate.
    split; [|exact C7].
    unfold built_node, patched, node_has_inputs, node_input. simpl.
    by match goal with |- (if ?c then _ else _) = _ => destruct c end. }
  destruct (decide (n = "3")) as [->|H8].
  { rewrite N8. rewrite ?O7, ?O6, ?O5, ?O4, ?O3, ?O2, ?O1 in * by discriminate.
    split; [|exact C8].
    unfold built_node, patched, node_has_inputs. simpl.
    by match goal with |- (if ?c then _ else _) = _ => destruct c end. }
  rewrite O8, O7, O6, O5, O4, O3, O2, O1 by done.
  unfold built_node, patched.
  repeat match goal with
    | |- context [String.eqb n ?s] =>
        destruct (String.eqb_spec n s) as [?|_]; [done|]
    end.
  by simpl.
Qed.

Lemma node_input_assign_eq (node : JsVal) (f : string) (v : JsVal) :
  is_container (get_prop node "inputs") = true → f ≠ "length" →
  node_input (assign_inputs node f v) f = v.
Proof.
  intros Hc Hf. unfold node_input, assign_inputs.
  rewrite get_put_back by done. by apply get_put_eq.
Qed.

Lemma node_input_assign_ne (node : JsVal) (f g : string) (v : JsVal) :
  is_container (get_prop node "inputs") = true → f ≠ g →
  node_input (assign_inputs node f v) g = node_input node g.
Proof.
  intros Hc Hf. unfold node_input, assign_inputs.
  rewrite get_put_back by done. by apply get_put_ne.
Qed.

(** X9. The workflow [buildWorkflow] returns is the template changed node
    by node: under each identifier stands what the patch of that
    identifier makes of the template's node, whatever the other nodes are,
    and [Math.random()] has been called once. *)
Theorem build_is_node_by_node (workflowData : option JsVal)
    (random : nat → Double) (calls : nat) (prompt : string)
    (imageBase64 : option string) (template w' : JsVal) (calls' : nat) :
  load_workflow workflowData = Ok template →
  buildWorkflow workflowData random calls prompt imageBase64 = (Ok w', calls') →
  calls' = S calls
  ∧ ∀ n, get_prop w' n
         = built_node prompt (random_seed (random calls)) n (get_prop template n).
Proof.
  intros Hload Hbuild. split.
  - revert Hbuild. unfold RunPod.buildWorkflow.
    destruct (load_workflow workflowData ≫= _); by intros [= _ <-].
  - intros n. by eapply build_nodewise.
Qed.

#[local] Ltac fold_inputs :=
  repeat match goal with
    | |- context [get_prop (get_prop ?x "inputs") ?f] =>
        change (get_prop (get_prop x "inputs") f) with (node_input x f)
    end.

(** X10. In the workflow that is returned, a loader node (37, 38, 39)
    whose [inputs] has a truthy [filename] carries that file name under
    the name the server expects ([unet_name], [clip_name], [vae_name]),
    beside the fixed [weight_dtype] and [type], and still has its
    [filename]; nodes 66 and 75 carry their [value] as [shift] and
    [strength] whenever it is not [undefined], a zero included. *)
Theorem loader_fields_translated (workflowData : option JsVal)
    (random : nat → Double) (calls : nat) (prompt : string)
    (imageBase64 : option string) (template w' : JsVal) (calls' : nat) :
  load_workflow workflowData = Ok template →
  buildWorkflow workflowData random calls prompt imageBase64 = (Ok w', calls') →
  (∀ n field, (n, field) ∈ [("37", "unet_name"); ("38", "clip_name"); ("39", "vae_name")] →
     has_inputs template n = true →
     truthy (input_of template n "filename") = true →
     input_of w' n field = input_of template n "filename"
     ∧ input_of w' n "filename" = input_of template n "filename")
  ∧ (has_inputs template "37" = true →
     truthy (input_of template "37" "filename") = true →
     input_of w' "37" "weight_dtype" = JStr "default")
  ∧ (has_inputs template "38" = true →
     truthy (input_of template "38" "filename") = true →
     input_of w' "38" "type" = JStr "qwen_image")
  ∧ (∀ n field, (n, field) ∈ [("66", "shift"); ("75", "strength")] →
     has_inputs template n = true →
     input_of template n "value" ≠ JUndefined →
     input_of w' n field = input_of template n "value"
     ∧ input_of w' n "value" = input_of template n "value").
Proof.
  intros Hload Hbuild.
  assert (Hn : ∀ n,
    get_prop w' n
    = built_node prompt (random_seed (random calls)) n (get_prop template n)
    ∧ (patched n (get_prop template n) = true →
       is_container (get_prop (get_prop template n) "inputs") = true))
    by (intros n; by eapply build_nodewise).
  assert (Hdef : ∀ v, v ≠ JUndefined → defined v = true) by by intros [].
  unfold has_inputs, input_of.
  split_and!.
  - intros n field Hin Hi Hf.
    destruct (Hn n) as [-> Hc].
    rewrite !elem_of_cons, elem_of_nil in Hin.
    destruct Hin as [[= -> ->]|[[= -> ->]|[[= -> ->]|[]]]];
      unfold built_node, patched, node_has_inputs, node_input in *;
      simpl in *; rewrite Hi, Hf in *; simpl in *; specialize (Hc eq_refl);
      fold_inputs;
      (split;
       rewrite ?node_input_assign_ne, ?node_input_assign_eq
         by (try apply assign_inputs_container; done); done).
  - intros Hi Hf. destruct (Hn "37") as [-> Hc].
    unfold built_node, patched, node_has_inputs, node_input in *;
      simpl in *; rewrite Hi, Hf in *; simpl in *; specialize (Hc eq_refl).
    fold_inputs.
    apply node_input_assign_eq; [by apply assign_inputs_container|done].
  - intros Hi Hf. destruct (Hn "38") as [-> Hc].
    unfold built_node, patched, node_has_inputs, node_input in *;
      simpl in *; rewrite Hi, Hf in *; simpl in *; specialize (Hc eq_refl).
    fold_inputs.
    apply node_input_assign_eq; [by apply assign_inputs_container|done].
  - intros n field Hin Hi Hf%Hdef.
    destruct (Hn n) as [-> Hc].
    rewrite !elem_of_cons, elem_of_nil in Hin.
    destruct Hin as [[= -> ->]|[[= -> ->]|[]]];
      unfold built_node, patched, node_has_inputs, node_input in *;
      simpl in *; rewrite Hi, Hf in *; simpl in *; specialize (Hc eq_refl);
      fold_inputs;
      (split;
       rewrite ?node_input_assign_ne, ?node_input_assign_eq
         by (try apply assign_inputs_container; done); done).
Qed.

Lemma set_input_container (w : JsVal) (n f : string) (v : JsVal) :
  is_container (get_prop (get_prop w n) "inputs") = true →
  ∃ w', set_input w n f v = Ok w'.
Proof.
  intros Hc. unfold RunPod.set_input.
  rewrite Parameterizer.assign_prop_container by done. by eexists.
Qed.

Lemma guarded_pair_succeeds (cond : bool) (w : JsVal) (n f1 f2 : string)
    (v1 v2 : JsVal) :
  (cond = true → is_container (get_prop (get_prop w n) "inputs") = true) →
  ∃ w', (if cond then w1 ← set_input w n f1 v1; set_input w1 n f2 v2 else Ok w)
        = Ok w'.
Proof.
  destruct cond; [|by eexists]. intros Hc. specialize (Hc eq_refl).
  destruct (set_input_container w n f1 v1 Hc) as [w1 E1]. rewrite E1. simpl.
  apply set_input_container.
  apply set_input_node in E1 as (-> & _ & _).
  by apply assign_inputs_container.
Qed.

Lemma guarded_single_succeeds (cond : bool) (w : JsVal) (n f : string) (v : JsVal) :
  (cond = true → is_container (get_prop (get_prop w n) "inputs") = true) →
  ∃ w', (if cond then set_input w n f v else Ok w) = Ok w'.
Proof.
  destruct cond; [|by eexists]. intros Hc. by apply set_input_container, Hc.
Qed.

(** X11. Once the template is loaded, [buildWorkflow] returns a workflow
    exactly when, in every node it assigns to, [inputs] is an object or an
    array; it throws when a named node has a truthy [inputs] that is
    neither, a string or a number say. *)
Theorem build_succeeds_iff_inputs_are_objects (workflowData : option JsVal)
    (random : nat → Double) (calls : nat) (prompt : string)
    (imageBase64 : option string) (template : JsVal) :
  load_workflow workflowData = Ok template →
  (∃ w', buildWorkflow workflowData random calls prompt imageBase64
         = (Ok w', S calls))
  ↔ (∀ n, patched n (get_prop template n) = true →
          is_container (get_prop (get_prop template n) "inputs") = true).
Proof.
  intros Hload. split.
  { intros [w' Hbuild] n. by eapply build_nodewise. }
  intros Hall. unfold RunPod.buildWorkflow. rewrite Hload. simpl.
  unfold RunPod.patch_loaders.
  destruct (guarded_pair_succeeds (has_inputs template "111") template "111"
              "text" "prompt" (JStr prompt) (JStr prompt)) as [w1 E1].
  { apply (Hall "111"). }
  change (patch_positive prompt template = Ok w1) in E1. rewrite E1. simpl.
  apply guarded_pair_node in E1 as (_ & O1 & _).
  destruct (guarded_pair_succeeds (has_inputs w1 "110") w1 "110"
              "text" "prompt" (JStr EmptyString) (JStr EmptyString)) as [w2 E2].
  { unfold has_inputs. rewrite ?O1 by discriminate. apply (Hall "110"). }
  change (patch_negative w1 = Ok w2) in E2. rewrite E2. simpl.
  apply guarded_pair_node in E2 as (_ & O2 & _).
  destruct (guarded_pair_succeeds
              (has_inputs w2 "37" && truthy (input_of w2 "37" "filename")) w2 "37"
              "unet_name" "weight_dtype" (input_of w2 "37" "filename")
              (JStr "default")) as [w3 E3].
  { unfold has_inputs, input_of. rewrite ?O2, ?O1 by discriminate.
    apply (Hall "37"). }
  change (patch_unet w2 = Ok w3) in E3. rewrite E3. simpl.
  apply guarded_pair_node in E3 as (_ & O3 & _).
  destruct (guarded_pair_succeeds
              (has_inputs w3 "38" && truthy (input_of w3 "38" "filename")) w3 "38"
              "clip_name" "type" (input_of w3 "38" "filename")
              (JStr "qwen_image")) as [w4 E4].
  { unfold has_inputs, input_of. rewrite ?O3, ?O2, ?O1 by discriminate.
    apply (Hall "38"). }
  change (patch_clip w3 = Ok w4) in E4. rewrite E4. simpl.
  apply guarded_pair_node in E4 as (_ & O4 & _).
  destruct (guarded_single_succeeds
              (has_inputs w4 "39" && truthy (input_of w4 "39" "filename")) w4 "39"
              "vae_name" (input_of w4 "39" "filename")) as [w5 E5].
  { unfold has_inputs, input_of. rewrite ?O4, ?O3, ?O2, ?O1 by discriminate.
    apply (Hall "39"). }
  change (patch_vae w4 = Ok w5) in E5. rewrite E5. simpl.
  apply guarded_single_node in E5 as (_ & O5 & _).
  destruct (guarded_single_succeeds
              (has_inputs w5 "66" && defined (input_of w5 "66" "value")) w5 "66"
              "shift" (input_of w5 "66" "value")) as [w6 E6].
  { unfold has_inputs, input_of.
    rewrite ?O5, ?O4, ?O3, ?O2, ?O1 by discriminate. apply (Hall "66"). }
  change (patch_shift w5 = Ok w6) in E6. rewrite E6. simpl.
  apply guarded_single_node in E6 as (_ & O6 & _).
  destruct (guarded_single_succeeds
              (has_inputs w6 "75" && defined (input_of w6 "75" "value")) w6 "75"
              "strength" (input_of w6 "75" "value")) as [w7 E7].
  { unfold has_inputs, input_of.
    rewrite ?O6, ?O5, ?O4, ?O3, ?O2, ?O1 by discriminate. apply (Hall "75"). }
  change (patch_strength w6 = Ok w7) in E7. rewrite E7. simpl.
  apply guarded_single_node in E7 as (_ & O7 & _).
  destruct (guarded_single_succeeds (has_inputs w7 "3") w7 "3" "seed"
              (JNum (inject_Z (random_seed (random calls))))) as [w8 E8].
  { unfold has_inputs.
    rewrite ?O7, ?O6, ?O5, ?O4, ?O3, ?O2, ?O1 by discriminate. apply (Hall "3"). }
  exists w8. f_equal. exact E8.
Qed.

End WithNumberFormat.

Lemma build_is_node_by_node_witness :
  ∃ w', buildWorkflow sample_number_format (Some sample_template)
          sample_random 0 "a red cat" None
        = (Ok w', 1%nat)
        ∧ get_prop w' "3"
          = built_node "a red cat" (random_seed (sample_random 0)) "3"
              (get_prop sample_template "3")
        ∧ get_prop w' "60" = get_prop sample_template "60".
Proof.
  destruct (buildWorkflow sample_number_format (Some sample_template)
              sample_random 0 "a red cat" None)
    as [[w'|e] calls'] eqn:E; [|by vm_compute in E].
  pose proof (build_is_node_by_node sample_number_format (Some sample_template)
                sample_random 0 "a red cat" None sample_template w' calls'
                eq_refl E) as [-> Hn].
  exists w'. split; [done|]. split; [apply Hn|].
  rewrite Hn. reflexivity.
Defined.

Lemma loader_fields_translated_witness :
  ∃ w', buildWorkflow sample_number_format (Some loader_template)
          sample_random 0 "a red cat" None
        = (Ok w', 1%nat)
        ∧ input_of w' "37" "unet_name" = JStr "qwen_edit.safetensors"
        ∧ input_of w' "37" "weight_dtype" = JStr "default"
        ∧ input_of w' "38" "type" = JStr "qwen_image"
        ∧ input_of w' "66" "shift" = JNum (inject_Z 0).
Proof.
  destruct (buildWorkflow sample_number_format (Some loader_template)
              sample_random 0 "a red cat" None)
    as [[w'|e] calls'] eqn:E; [|by vm_compute in E].
  assert (calls' = 1%nat) as ->.
  { revert E. unfold RunPod.buildWorkflow.
    destruct (load_workflow _ ≫= _); by intros [= _ <-]. }
  pose proof (loader_fields_translated sample_number_format
                (Some loader_template) sample_random 0
                "a red cat" None loader_template w' 1 eq_refl E)
    as (Hl & H37 & H38 & Hv).
  exists w'. split_and!; [done| | | |].
  - apply (Hl "37" "unet_name"); [by left|done|done].
  - by apply H37.
  - by apply H38.
  - apply (Hv "66" "shift"); [by left|done|done].
Defined.

Lemma build_succeeds_iff_inputs_are_objects_witness :
  (∃ w', buildWorkflow sample_number_format (Some sample_template)
           sample_random 0 "a red cat" None
         = (Ok w', 1%nat))
  ∧ ¬ (∃ w', buildWorkflow sample_number_format (Some broken_template)
               sample_random 0 "a red cat" None
             = (Ok w', 1%nat))
  ∧ patched "111" (get_prop broken_template "111") = true.
Proof.
  split_and!.
  - apply (build_succeeds_iff_inputs_are_objects sample_number_format
             (Some sample_template) sample_random 0 "a red cat" None
             sample_template eq_refl).
    intros n. unfold patched.
    repeat match goal with
      | |- context [String.eqb n ?s] =>
          destruct (String.eqb_spec n s) as [->|_]; [by vm_compute|]
      end.
    done.
  - intros H.
    destruct (build_succeeds_iff_inputs_are_objects sample_number_format
                (Some broken_template) sample_random 0 "a red cat" None
                broken_template eq_refl)
      as [Hfwd _].
    by specialize (Hfwd H "111" eq_refl).
  - reflexivity.
Defined.

End Builds.

(** ** How a call of [executeAsync] can fail *)

Module Failures.
Import Js RunPod Signals Samples.

Local Open Scope Z_scope.

(** What the loop of [executeAsync] throws. *)
Lemma executeAsync_loop_thrown (fuel : nat) (remote : nat → PollStep)
    (jobId : JsVal) (startTime : Z) (i : nat) (now : Z) (e : string) :
  (executeAsync_loop fuel remote jobId startTime i now).2 = Thrown e →
  e = timeout_message
  ∨ (∃ k t, reply (remote k) = Throw t ∧ e = "Failed to get job status: " +:+ t)
  ∨ (∃ k job, reply (remote k) = Ok job ∧ job_status job = FAILED
              ∧ e = "Job failed: " +:+ error_or_unknown job).
Proof.
  revert i now. induction fuel as [|fuel IH]; intros i now; [done|].
  cbn [executeAsync_loop].
  destruct (_ <? _); [|intros [= <-]; by left].
  unfold getJobStatus. destruct (reply (remote i)) as [job|t] eqn:Hr.
  - case_bool_decide as Hc.
    { destruct (PollRuns.processOutput_job_data job) as (r & -> & _). done. }
    case_bool_decide as Hf.
    { intros [= <-]. right. right. by exists i, job. }
    destruct (executeAsync_loop fuel remote jobId startTime (S i) _)
      as [rest c] eqn:E.
    intros Hc'. simpl in Hc'. subst c.
    eapply IH. by rewrite E.
  - intros [= <-]. right. left. by exists i, t.
Qed.

(** X12. Every failure of [executeAsync] is one of these: the workflow
    could not be built, and then the error is passed on as it is and
    nothing was sent or asked; or the message starts with
    ["RunPod execution failed: "] and goes on with the error of the POST,
    the error of reading [id] off its answer, a failed status query, the
    remote error of a job that [FAILED], or the timeout. With fuel for
    more than 120 rounds the model of the call always ends. *)
Theorem executeAsync_failure_causes (number_to_string : Q → string) (fuel : nat)
    (workflowData : option JsVal) (random : nat → Double) (calls : nat)
    (prompt : string) (imageBase64 : option string)
    (post : outcome JsVal) (remote : nat → PollStep) (startTime : Z)
    (events : list PollEvent) (c : Completion) (calls' : nat) :
  executeAsync number_to_string fuel workflowData random calls prompt imageBase64
    post remote startTime = (events, c, calls') →
  ((120 < fuel)%nat → c ≠ OutOfFuel)
  ∧ ∀ e, c = Thrown e →
      (buildWorkflow number_to_string workflowData random calls prompt imageBase64
       = (Throw e, calls') ∧ events = [])
      ∨ ∃ e', e = "RunPod execution failed: " +:+ e'
          ∧ (post = Throw e'
             ∨ (∃ data, post = Ok data ∧ read_prop data "id" = Throw e')
             ∨ e' = timeout_message
             ∨ (∃ k t, reply (remote k) = Throw t
                       ∧ e' = "Failed to get job status: " +:+ t)
             ∨ (∃ k job, reply (remote k) = Ok job ∧ job_status job = FAILED
                         ∧ e' = "Job failed: " +:+ error_or_unknown job)).
Proof.
  unfold executeAsync.
  destruct (buildWorkflow _ _ _ _ _ _) as [[w|msg] n] eqn:Hb.
  - destruct (executeAsync_try fuel post remote startTime) as [evs c0] eqn:Ht.
    intros [= <- <- <-]. unfold executeAsync_try in Ht.
    split.
    + intros Hfuel.
      destruct post as [data|pe]; simpl in Ht; [|by simplify_eq].
      destruct (read_prop data "id") as [jobId|re]; [|by simplify_eq].
      pose proof (Poller.executeAsync_loop_returns fuel remote jobId startTime
                    0%nat startTime ltac:(lia) ltac:(lia)) as Hret.
      rewrite Ht in Hret. simpl in Hret. by destruct c0.
    + intros e He. right.
      destruct c0 as [r|e0|]; simpl in He; try done. injection He as <-.
      exists e0. split; [done|].
      destruct post as [data|pe]; simpl in Ht; [|left; by simplify_eq].
      destruct (read_prop data "id") as [jobId|re] eqn:Hid.
      * pose proof (executeAsync_loop_thrown fuel remote jobId startTime
                      0%nat startTime e0) as Hl.
        rewrite Ht in Hl. destruct (Hl eq_refl) as [?|[?|?]]; eauto 10.
      * right. left. exists data. by simplify_eq.
  - intros [= <- <- <-]. split; [done|].
    intros e [= <-]. by left.
Qed.

Lemma executeAsync_failure_causes_witness :
  (executeAsync sample_number_format 200 (Some sample_template) sample_random 0
     "a red cat" None (Ok (JObj [("id", JStr "r1")])) fails_first 0).1.2
  = Thrown "RunPod execution failed: Job failed: OOM"
  ∧ (executeAsync sample_number_format 200 None sample_random 0
       "a red cat" None (Ok (JObj [("id", JStr "r1")])) fails_first 0)
    = ([], Thrown "Failed to load ComfyUI workflow file", 0%nat).
Proof.
  pose proof (executeAsync_failure_causes sample_number_format 200
                (Some sample_template) sample_random 0 "a red cat" None
                (Ok (JObj [("id", JStr "r1")])) fails_first 0 _ _ _ eq_refl)
    as [_ H].
  split; reflexivity.
Defined.

End Failures.

(** ** The handlers of the server *)

Module HandlerFacts.
Import Js RunPod Server Handlers Signals Samples Traces.

Local Open Scope Z_scope.

(** X13. A record stays in the store for an hour after its last write,
    and the status endpoint answers from it whatever RunPod would say; one
    of the periodic sweeps of the following ten minutes removes it, and
    from then on a status request for the identifier is passed on to
    RunPod. *)
Theorem record_lifetime (boot : Z) (jobStore : gmap string JobRecord)
    (j : string) (job : JobRecord) :
  jobStore !! j = Some job →
  boot <= startedAt job →
  (∀ now remote, now - startedAt job <= 60 * 60 * 1000 →
     sweep now jobStore !! j = Some job
     ∧ status_handler j (sweep now jobStore) remote
       = FromStore j (status job) (result job) (error job))
  ∧ ∃ k, startedAt job + 60 * 60 * 1000 < sweep_due boot k
         ∧ sweep_due boot k <= startedAt job + 70 * 60 * 1000
         ∧ sweep (sweep_due boot k) jobStore !! j = None
         ∧ ∀ remote, status_handler j (sweep (sweep_due boot k) jobStore) remote
                     = match getJobStatus remote with
                       | Ok found => FromRunPod found
                       | Throw e => StatusFailed e
                       end.
Proof.
  intros Hj Hboot. split.
  - intros now remote Hnow.
    assert (Hs : sweep now jobStore !! j = Some job).
    { rewrite Store.sweep_lookup, Hj.
      destruct (Z.ltb_spec (startedAt job) (now - 60 * 60 * 1000)); [lia|done]. }
    split; [done|]. unfold status_handler. by rewrite Hs.
  - set (d := startedAt job + 60 * 60 * 1000 - boot).
    exists (Z.to_nat (d / 600000)).
    assert (Hd : 0 <= d / 600000) by (apply Z.div_pos; lia).
    pose proof (Z.div_mod d 600000 ltac:(lia)) as Hdm.
    pose proof (Z.mod_pos_bound d 600000 ltac:(lia)) as Hm.
    assert (Hdue : sweep_due boot (Z.to_nat (d / 600000))
                   = boot + (d / 600000 + 1) * 600000).
    { unfold sweep_due, sweep_period. lia. }
    assert (Hgt : startedAt job + 60 * 60 * 1000
                  < sweep_due boot (Z.to_nat (d / 600000))) by (rewrite Hdue; lia).
    assert (Hs : sweep (sweep_due boot (Z.to_nat (d / 600000))) jobStore !! j = None).
    { rewrite Store.sweep_lookup, Hj.
      destruct (Z.ltb_spec (startedAt job)
                  (sweep_due boot (Z.to_nat (d / 600000)) - 60 * 60 * 1000));
        [done|lia]. }
    split_and!; [done|rewrite Hdue; lia|done|].
    intros remote. unfold status_handler. by rewrite Hs.
Qed.

Lemma record_lifetime_witness :
  let jobStore := run sample_events ∅ in
  sweep 5400000 jobStore !! "job_0_k3x9" = jobStore !! "job_0_k3x9"
  ∧ ∃ k, sweep_due 0 k <= 1800000 + 70 * 60 * 1000
         ∧ sweep (sweep_due 0 k) jobStore !! "job_0_k3x9" = None.
Proof.
  intros jobStore.
  destruct (jobStore !! "job_0_k3x9") as [job|] eqn:Hj; [|by vm_compute in Hj].
  assert (Hat : startedAt job = 1800000) by (vm_compute in Hj; by simplify_eq).
  destruct (record_lifetime 0 jobStore "job_0_k3x9" job Hj ltac:(lia))
    as [Hkeep (k & _ & Hle & Hgone & _)].
  split.
  - apply (Hkeep 5400000 (steady queued_job 0%nat)). lia.
  - exists k. split; [lia|done].
Defined.

(** X14. The loop of the sweep, which deletes from the map it iterates
    over, keeps exactly the records that are not older than an hour, as a
    filter would; two sweeps in a row leave what the later of the two
    leaves alone, in either order. *)
Theorem sweep_is_a_filter (now now' : Z) (jobStore : gmap string JobRecord) :
  sweep now jobStore
  = filter (λ entry, ¬ (startedAt entry.2 < now - 60 * 60 * 1000)) jobStore
  ∧ sweep now' (sweep now jobStore) = sweep (Z.max now now') jobStore
  ∧ sweep now (sweep now jobStore) = sweep now jobStore.
Proof.
  assert (Hcomp : ∀ a b, sweep b (sweep a jobStore) = sweep (Z.max a b) jobStore).
  { intros a b. apply map_eq. intros k. rewrite !Store.sweep_lookup.
    destruct (jobStore !! k) as [job|]; [|done].
    destruct (Z.ltb_spec (startedAt job) (a - 60 * 60 * 1000));
      destruct (Z.ltb_spec (startedAt job) (Z.max a b - 60 * 60 * 1000));
      try destruct (Z.ltb_spec (startedAt job) (b - 60 * 60 * 1000));
      try done; lia. }
  split_and!.
  - apply map_eq. intros k. rewrite Store.sweep_lookup.
    destruct (jobStore !! k) as [job|] eqn:Hk.
    + destruct (Z.ltb_spec (startedAt job) (now - 60 * 60 * 1000)).
      * symmetry. apply map_lookup_filter_None. right.
        intros job' Hk' Hn. simpl in Hn. simplify_eq. lia.
      * symmetry. apply map_lookup_filter_Some. split; [done|]. simpl. lia.
    + symmetry. apply map_lookup_filter_None. by left.
  - apply Hcomp.
  - rewrite Hcomp. by rewrite Z.max_id.
Qed.

(** The three ways the handler of [/api/generate] ends its turn. *)
Lemma generate_handler_cases (body : JsVal) (t_id t_pending t_processing : Z)
    (suffix : string) (jobStore jobStore' : gmap string JobRecord)
    (answer : GenerateAnswer) (bg : option Background) :
  generate_handler body t_id t_pending t_processing suffix jobStore
  = Ok (answer, jobStore', bg) →
  match answer with
  | JobStarted j said =>
      j = mint_job_id t_id suffix
      ∧ said = "pending"
      ∧ (∀ remote, status_handler j jobStore' remote
                   = FromStore j processing None None)
      ∧ startedAt <$> jobStore' !! j = Some t_processing
      ∧ (∀ k, k ≠ j → jobStore' !! k = jobStore !! k)
      ∧ ∃ p, get_prop body "prompt" = JStr p ∧ p ≠ EmptyString
             ∧ bg = Some {| bg_job := j; bg_prompt := JStr p;
                            bg_image := get_prop body "image" |}
  | PromptRequired =>
      jobStore' = jobStore ∧ bg = None ∧ truthy (get_prop body "prompt") = false
  | StartFailed details =>
      jobStore' = jobStore ∧ bg = None
      ∧ details = "prompt.substring is not a function"
      ∧ is_string (get_prop body "prompt") = false
  end.
Proof.
  unfold generate_handler.
  destruct (read_prop body "prompt") as [prompt|e] eqn:Hp; simpl; [|done].
  destruct (read_prop body "image") as [image|e] eqn:Hi; simpl; [|done].
  assert (Hprompt : get_prop body "prompt" = prompt).
  { revert Hp. unfold read_prop. destruct (nullish body); by intros [= <-]. }
  assert (Himage : get_prop body "image" = image).
  { revert Hi. unfold read_prop. destruct (nullish body); by intros [= <-]. }
  destruct (truthy prompt) eqn:Ht; simpl.
  - destruct prompt as [| | | |p| |]; simpl;
      try (intros [= <- <- <-]; by rewrite Hprompt).
    intros [= <- <- <-].
    split_and!; try done.
    + intros remote. unfold status_handler, set_processing.
      by rewrite lookup_insert_eq.
    + unfold set_processing. by rewrite lookup_insert_eq.
    + intros k Hk. unfold set_processing, set_pending.
      by rewrite !lookup_insert_ne.
    + exists p. rewrite Hprompt, Himage. split_and!; [done| |done].
      intros ->. done.
  - intros [= <- <- <-]. by rewrite Hprompt.
Qed.

Lemma generate_turn_cases (number_to_string : Q → string)
    (workflowData : option JsVal) (random : nat → Double) (calls : nat)
    (body : JsVal) (t_id t_pending t_processing t_failed : Z) (suffix : string)
    (jobStore jobStore' : gmap string JobRecord)
    (answer : GenerateAnswer) (bg : option Background) :
  generate_turn number_to_string workflowData random calls body
    t_id t_pending t_processing t_failed suffix jobStore
  = Ok (answer, jobStore', bg) →
  match answer with
  | JobStarted j said =>
      j = mint_job_id t_id suffix
      ∧ said = "pending"
      ∧ (∀ k, k ≠ j → jobStore' !! k = jobStore !! k)
      ∧ ∃ p, get_prop body "prompt" = JStr p ∧ p ≠ EmptyString
             ∧ match (buildWorkflow number_to_string workflowData random calls
                        p None).1 with
               | Ok _ =>
                   (∀ remote, status_handler j jobStore' remote
                              = FromStore j processing None None)
                   ∧ startedAt <$> jobStore' !! j = Some t_processing
                   ∧ bg = Some {| bg_job := j; bg_prompt := JStr p;
                                  bg_image := get_prop body "image" |}
               | Throw e =>
                   (∀ remote, status_handler j jobStore' remote
                              = FromStore j failed None (Some e))
                   ∧ startedAt <$> jobStore' !! j = Some t_failed
                   ∧ bg = None
               end
  | PromptRequired =>
      jobStore' = jobStore ∧ bg = None ∧ truthy (get_prop body "prompt") = false
  | StartFailed details =>
      jobStore' = jobStore ∧ bg = None
      ∧ details = "prompt.substring is not a function"
      ∧ is_string (get_prop body "prompt") = false
  end.
Proof.
  unfold generate_turn.
  destruct (generate_handler body t_id t_pending t_processing suffix jobStore)
    as [[[answer0 store0] bg0]|e] eqn:Hh; simpl; [|done].
  pose proof (generate_handler_cases _ _ _ _ _ _ _ _ _ Hh) as Hcases.
  unfold rejected_at_once.
  destruct answer0 as [| |j said].
  - destruct Hcases as (-> & -> & Ht). by intros [= <- <- <-].
  - destruct Hcases as (-> & -> & Hd & Hs). by intros [= <- <- <-].
  - destruct Hcases as (-> & -> & Hst & Hat & Hother & p & Hp & Hne & ->).
    simpl.
    destruct (buildWorkflow number_to_string workflowData random calls p None).1
      as [w|e] eqn:Hb.
    + intros [= <- <- <-]. split_and!; try done. exists p. rewrite Hb. by split_and!.
    + intros [= <- <- <-]. split_and!; try done.
      * intros k Hk. unfold settle. rewrite lookup_insert_ne by done.
        by apply Hother.
      * exists p. rewrite Hb. split_and!; try done.
        -- intros remote. unfold status_handler, settle.
           by rewrite lookup_insert_eq.
        -- unfold settle. by rewrite lookup_insert_eq.
Qed.

(** X15. A request to [/api/generate] that is refused, for a missing or
    empty prompt or for a prompt that is not a string, leaves the store as
    it is and starts nothing. One that is accepted is answered with the
    new identifier and the status ["pending"], but when its turn is over
    the record already says [processing], or [failed] with the error of
    [buildWorkflow] when the workflow cannot be built from the prompt:
    that is what the first status request finds; no other record has
    changed. *)
Theorem generate_handler_turn (number_to_string : Q → string)
    (workflowData : option JsVal) (random : nat → Double) (calls : nat)
    (body : JsVal) (t_id t_pending t_processing t_failed : Z) (suffix : string)
    (jobStore jobStore' : gmap string JobRecord)
    (answer : GenerateAnswer) (bg : option Background) :
  generate_turn number_to_string workflowData random calls body
    t_id t_pending t_processing t_failed suffix jobStore
  = Ok (answer, jobStore', bg) →
  match answer with
  | JobStarted j said =>
      j = mint_job_id t_id suffix
      ∧ said = "pending"
      ∧ (∀ k, k ≠ j → jobStore' !! k = jobStore !! k)
      ∧ ∃ p, get_prop body "prompt" = JStr p ∧ p ≠ EmptyString
             ∧ match (buildWorkflow number_to_string workflowData random calls
                        p None).1 with
               | Ok _ =>
                   (∀ remote, status_handler j jobStore' remote
                              = FromStore j processing None None)
                   ∧ startedAt <$> jobStore' !! j = Some t_processing
                   ∧ bg = Some {| bg_job := j; bg_prompt := JStr p;
                                  bg_image := get_prop body "image" |}
               | Throw e =>
                   (∀ remote, status_handler j jobStore' remote
                              = FromStore j failed None (Some e))
                   ∧ startedAt <$> jobStore' !! j = Some t_failed
                   ∧ bg = None
               end
  | PromptRequired =>
      jobStore' = jobStore ∧ bg = None ∧ truthy (get_prop body "prompt") = false
  | StartFailed details =>
      jobStore' = jobStore ∧ bg = None
      ∧ details = "prompt.substring is not a function"
      ∧ is_string (get_prop body "prompt") = false
  end.
Proof. apply generate_turn_cases. Qed.

(** The template is there, and the template is missing. *)
Lemma generate_handler_turn_witness :
  (∃ jobStore' bg,
     generate_turn sample_number_format (Some sample_template) sample_random 0
       generate_body 0 0 1 2 "k3x9" ∅
     = Ok (JobStarted "job_0_k3x9" "pending", jobStore', bg)
     ∧ status_handler "job_0_k3x9" jobStore' (steady queued_job 0%nat)
       = FromStore "job_0_k3x9" processing None None)
  ∧ ∃ jobStore' bg,
      generate_turn sample_number_format None sample_random 0
        generate_body 0 0 1 2 "k3x9" ∅
      = Ok (JobStarted "job_0_k3x9" "pending", jobStore', bg)
      ∧ status_handler "job_0_k3x9" jobStore' (steady queued_job 0%nat)
        = FromStore "job_0_k3x9" failed None
            (Some "Failed to load ComfyUI workflow file").
Proof.
  split.
  - eexists _, _. split; [reflexivity|].
    destruct (generate_handler_turn sample_number_format (Some sample_template)
                sample_random 0 generate_body 0 0 1 2 "k3x9" ∅ _ _ _ eq_refl)
      as (_ & _ & _ & p & [= <-] & _ & H).
    apply H.
  - eexists _, _. split; [reflexivity|].
    destruct (generate_handler_turn sample_number_format None
                sample_random 0 generate_body 0 0 1 2 "k3x9" ∅ _ _ _ eq_refl)
      as (_ & _ & _ & p & [= <-] & _ & H).
    apply H.
Defined.

(** X16. When the reply on which [executeAsync] ends says [COMPLETED],
    at whatever poll, but the output of that job makes the search for
    images throw, the call still returns, with [success] false, the
    message of the exception and no image; and the record the background
    task then stores (the count of the key's use not throwing) is
    [completed], with a result whose [success] is true, the message of a
    completed generation and no image. *)
Theorem unreadable_output_stored_as_completed (fuel : nat) (data : JsVal)
    (runpodId : JsVal) (remote : nat → PollStep) (startTime : Z)
    (rest : list PollEvent) :
  read_prop data "id" = Ok runpodId →
  after_status settles (executeAsync_try fuel (Ok data) remote startTime).1
  = Some (COMPLETED, rest) →
  ∃ k job,
    reply (remote k) = Ok job ∧ job_status job = COMPLETED
    ∧ (∀ m, (m < k)%nat →
         ∃ earlier, reply (remote m) = Ok earlier
                    ∧ settles (job_status earlier) = false)
    ∧ ∀ msg,
        extract_images (job_data job) = Throw msg →
        ∃ r, execution_failed (executeAsync_try fuel (Ok data) remote startTime).2
             = Returned r
             ∧ success r = false
             ∧ message r = "Failed to process output: " +:+ msg
             ∧ images r = []
             ∧ ∀ j t_done t_failed jobStore,
                 resume j t_done t_failed (Ok r) (Ok ()) jobStore !! j
                 = Some {| status := completed;
                           result := Some {| res_success := true;
                                             res_jobId := JStr (job_id job);
                                             res_runpodJobId := JStr (job_id job);
                                             res_message := "✅ Image generation completed!";
                                             res_images := [] |};
                           error := None; startedAt := t_done |}.
Proof.
  intros Hid. unfold executeAsync_try. simpl. rewrite Hid. intros Hafter.
  destruct (PollRuns.first_settled_reply _ _ _ _ _ _ _ _ Hafter)
    as (_ & k & job & _ & Hreply & Hst & Hbefore & Hdone & _).
  exists k, job. split_and!; [done|done| |].
  { intros m Hm. apply Hbefore. lia. }
  intros msg Hex. destruct (Hdone eq_refl) as [-> _].
  unfold processOutput, processOutput_try. rewrite Hex. simpl.
  eexists. split; [reflexivity|]. split_and!; try done.
  intros j t_done t_failed jobStore. unfold resume, settle.
  by rewrite lookup_insert_eq.
Qed.

(** The job is queued at the first poll and completed, with a node output
    that is [null], at the second. *)
Lemma unreadable_output_stored_as_completed_witness :
  let remote := λ i : nat,
    {| latency := 0; oversleep := 0;
       reply := Ok match i with
                   | O => queued_job
                   | _ => {| job_id := "r1"; job_status := COMPLETED;
                             job_output := Some (JObj [("9", JNull)]);
                             job_error := None |}
                   end |} in
  ∃ r, execution_failed
         (executeAsync_try 5 (Ok (JObj [("id", JStr "r1")])) remote 0).2
       = Returned r
       ∧ success r = false
       ∧ message r
         = "Failed to process output: Cannot read properties of null (reading 'images')".
Proof.
  intros remote.
  destruct (unreadable_output_stored_as_completed 5
              (JObj [("id", JStr "r1")]) (JStr "r1") remote 0 [] eq_refl eq_refl)
    as (k & job & Hreply & Hst & Hbefore & H).
  assert (Hk : k = 1%nat).
  { destruct k as [|[|k]]; [|done|].
    - injection Hreply as <-. discriminate Hst.
    - destruct (Hbefore 1%nat ltac:(lia)) as (earlier & Hearlier & Hs).
      injection Hearlier as <-. discriminate Hs. }
  subst k. injection Hreply as <-.
  destruct (H _ eq_refl) as (r & Hr & Hs & Hm & _).
  by exists r.
Defined.

(** X17. The second prompt of [/api/generate-dual] is not used as a
    prompt: the handler passes it to [execute] in the place of the image,
    so the body posted to RunPod carries it as the input image, as it is,
    and the workflow in that body is the one built from the first prompt
    alone. *)
Theorem second_prompt_is_posted_as_image (number_to_string : Q → string)
    (workflowData : option JsVal) (random : nat → Double) (calls : nat)
    (body prompt imageBase64 : JsVal) :
  generate_dual_handler body = Ok (DualExecute prompt imageBase64) →
  ∃ prompt1 prompt2,
    get_prop body "prompt1" = JStr prompt1 ∧ prompt = JStr prompt1
    ∧ get_prop body "prompt2" = JStr prompt2 ∧ imageBase64 = JStr prompt2
    ∧ prompt1 ≠ EmptyString ∧ prompt2 ≠ EmptyString
    ∧ ∀ workflow calls',
        buildWorkflow number_to_string workflowData random calls prompt1 None
        = (Ok workflow, calls') →
        ∃ payload,
          Service.executeAsync_posted number_to_string workflowData random calls
            prompt1 (Some prompt2) = Some payload
          ∧ get_prop (get_prop payload "input") "workflow" = workflow
          ∧ Service.posted_image payload = JStr prompt2.
Proof.
  unfold generate_dual_handler.
  destruct (read_prop body "prompt1") as [p1|e] eqn:H1; simpl; [|done].
  destruct (read_prop body "prompt2") as [p2|e] eqn:H2; simpl; [|done].
  assert (Hp1 : get_prop body "prompt1" = p1).
  { revert H1. unfold read_prop. destruct (nullish body); by intros [= <-]. }
  assert (Hp2 : get_prop body "prompt2" = p2).
  { revert H2. unfold read_prop. destruct (nullish body); by intros [= <-]. }
  destruct (truthy p1) eqn:Ht1; simpl; [|done].
  destruct (truthy p2) eqn:Ht2; simpl; [|done].
  destruct p1 as [| | | |s1| |]; simpl; try done.
  destruct p2 as [| | | |s2| |]; simpl; try done.
  intros [= <- <-]. exists s1, s2.
  split_and!; try done; try (intros ->; done).
  intros workflow calls' Hb. unfold Service.executeAsync_posted.
  change (buildWorkflow number_to_string workflowData random calls s1 (Some s2))
    with (buildWorkflow number_to_string workflowData random calls s1 None).
  rewrite Hb. eexists. split; [reflexivity|].
  unfold Service.executeAsync_payload.
  destruct (String.eqb_spec s2 EmptyString) as [->|]; [done|]. by split.
Qed.

Lemma second_prompt_is_posted_as_image_witness :
  ∃ payload,
    Service.executeAsync_posted sample_number_format (Some sample_template)
      sample_random 0 "a red cat" (Some "on a sofa") = Some payload
    ∧ Service.posted_image payload = JStr "on a sofa".
Proof.
  destruct (second_prompt_is_posted_as_image sample_number_format
              (Some sample_template) sample_random 0
              (JObj [("prompt1", JStr "a red cat"); ("prompt2", JStr "on a sofa")])
              (JStr "a red cat") (JStr "on a sofa") eq_refl)
    as (p1 & p2 & _ & [= <-] & _ & [= <-] & _ & _ & H).
  destruct (buildWorkflow sample_number_format (Some sample_template)
              sample_random 0 "a red cat" None) as [[w|e] n] eqn:Hb;
    [|by vm_compute in Hb].
  destruct (H w n eq_refl) as (payload & Hp & _ & Hi).
  by exists payload.
Defined.

Lemma pretty_N_go_plain (x : N) (s : string) :
  (∀ t u, s ≠ t +:+ "_" +:+ u) →
  ∀ t u, pretty_N_go x s ≠ t +:+ "_" +:+ u.
Proof.
  revert s. induction (N.lt_wf_0 x) as [x _ IH]. intros s Hs.
  destruct (decide (x = 0%N)) as [->|Hx]; [by rewrite pretty_N_go_0|].
  rewrite pretty_N_go_step by lia.
  apply IH; [apply N.div_lt; lia|].
  intros t u. destruct t as [|c t]; simpl.
  - unfold pretty_N_char. intros [= Hc _]. revert Hc.
    by repeat case_match.
  - intros [= _ Hrest]. by apply (Hs t u).
Qed.

Lemma pretty_Z_plain (x : Z) (t u : string) : pretty x ≠ t +:+ "_" +:+ u.
Proof.
  assert (HN : ∀ (n : N) t u, pretty n ≠ t +:+ "_" +:+ u).
  { intros n t' u'. unfold pretty, pretty_N.
    destruct (decide (n = 0%N)).
    - destruct t' as [|? [|? ?]]; by simpl.
    - apply pretty_N_go_plain. intros [|? ?] ?; by simpl. }
  unfold pretty at 1, pretty_Z. destruct x as [|p|p].
  - destruct t as [|? [|? ?]]; by simpl.
  - apply (HN (Npos p)).
  - destruct t as [|c t]; simpl; [done|].
    intros [= _ Hrest]. by apply (HN (Npos p) t u).
Qed.

Lemma split_at_first_underscore (s1 s2 t1 t2 : string) :
  (∀ t u, s1 ≠ t +:+ "_" +:+ u) → (∀ t u, s2 ≠ t +:+ "_" +:+ u) →
  s1 +:+ "_" +:+ t1 = s2 +:+ "_" +:+ t2 → s1 = s2 ∧ t1 = t2.
Proof.
  revert s2. induction s1 as [|c s1 IH]; intros s2 H1 H2.
  - destruct s2 as [|c s2]; cbn.
    + intros [= H]. by subst.
    + intros [= <- Hrest]. by destruct (H2 EmptyString s2).
  - destruct s2 as [|c' s2]; cbn.
    + intros [= -> Hrest]. by destruct (H1 EmptyString s1).
    + intros [= <- Hrest].
      destruct (IH s2) as [-> ->]; [| |done|done].
      * intros t u ->. by apply (H1 (String c t) u).
      * intros t u ->. by apply (H2 (String c t) u).
Qed.

(** X18. The identifier [/api/generate] hands out tells the time and the
    suffix it was made of: two identifiers are the same only when both the
    millisecond and the random suffix are the same. In that case the
    second request replaces the record of the first, whose status the
    first caller then reads as the second job's. *)
Theorem job_ids_collide_only_on_time_and_suffix (t t' : Z) (suffix suffix' : string) :
  (mint_job_id t suffix = mint_job_id t' suffix' ↔ t = t' ∧ suffix = suffix')
  ∧ ∀ body body' t1 t2 t1' t2' jobStore jobStore' jobStore'' bg bg' j j',
      generate_handler body t t1 t2 suffix jobStore
      = Ok (JobStarted j "pending", jobStore', bg) →
      generate_handler body' t' t1' t2' suffix' jobStore'
      = Ok (JobStarted j' "pending", jobStore'', bg') →
      (j = j' ↔ t = t' ∧ suffix = suffix')
      ∧ (j ≠ j' → jobStore'' !! j = jobStore' !! j)
      ∧ (j = j' → startedAt <$> jobStore'' !! j = Some t2').
Proof.
  assert (Hinj : mint_job_id t suffix = mint_job_id t' suffix'
                 ↔ t = t' ∧ suffix = suffix').
  { split; [|by intros [-> ->]].
    unfold mint_job_id. intros [= H].
    apply split_at_first_underscore in H as [Ht ->];
      [|apply pretty_Z_plain|apply pretty_Z_plain].
    by apply (inj pretty) in Ht. }
  split; [done|].
  intros body body' t1 t2 t1' t2' jobStore jobStore' jobStore'' bg bg' j j' H1 H2.
  apply generate_handler_cases in H1 as (-> & _ & _ & _ & _ & _).
  apply generate_handler_cases in H2 as (-> & _ & _ & Hat & Hother & _).
  split_and!; [done| |].
  - intros Hne. by apply Hother.
  - by intros ->.
Qed.

Lemma job_ids_collide_only_on_time_and_suffix_witness :
  mint_job_id 1700000000000 "k3x9" ≠ mint_job_id 1700000000000 "k3x8"
  ∧ mint_job_id 1700000000000 "k3x9" = "job_1700000000000_k3x9".
Proof.
  destruct (job_ids_collide_only_on_time_and_suffix 1700000000000 1700000000000
              "k3x9" "k3x8") as [[H _] _].
  split; [|reflexivity]. intros Heq. by destruct (H Heq).
Defined.

End HandlerFacts.

(** ** The keys and their quota *)

Module AuthFacts.
Import Js Auth.

Local Open Scope Z_scope.

Lemma checkKeyLimit_refuses (file : LimitsFile) (key : string) :
  allowed (checkKeyLimit file key) = false →
  ∃ keyData, loadKeyLimits file !! key = Some keyData
             ∧ limit keyData ≠ -1 ∧ limit keyData <= used keyData.
Proof.
  unfold checkKeyLimit, entry.
  destruct (loadKeyLimits file !! key) as [keyData|]; [|by case_bool_decide].
  destruct (Z.eqb_spec (limit keyData) (-1)); [done|].
  destruct (Z.geb_spec (used keyData) (limit keyData)); [|done].
  intros _. exists keyData. split_and!; [done|done|lia].
Qed.

(** X19. Apart from the health path, the middleware lets a request pass
    only with a key of the configured set, given as a string in the
    header or the query; with no key configured it lets none pass. It
    answers 429 only to a configured key whose entry has a limit that its
    count has reached, and never on the status and quota paths, where the
    limits file plays no part. *)
Theorem authenticateApiKey_decisions (VALID_API_KEYS : gset string)
    (file : LimitsFile) (path : string) (header query_key : JsVal) :
  path ≠ "/api/health" →
  (∀ apiKey quota,
     authenticateApiKey VALID_API_KEYS file path header query_key = Next apiKey quota →
     ∃ key, apiKey = Some key ∧ key ∈ VALID_API_KEYS
            ∧ js_or header query_key = JStr key)
  ∧ (VALID_API_KEYS = ∅ →
     ∃ code e m,
       authenticateApiKey VALID_API_KEYS file path header query_key = Denied code e m
       ∧ (code = 401 ∨ code = 403)%nat)
  ∧ (∀ e m,
       authenticateApiKey VALID_API_KEYS file path header query_key = Denied 429 e m →
       ∃ key keyData,
         js_or header query_key = JStr key ∧ key ∈ VALID_API_KEYS
         ∧ loadKeyLimits file !! key = Some keyData
         ∧ limit keyData ≠ -1 ∧ limit keyData <= used keyData
         ∧ String.prefix "/api/status" path = false ∧ path ≠ "/api/quota")
  ∧ (String.prefix "/api/status" path = true ∨ path = "/api/quota" →
     ∀ file',
       authenticateApiKey VALID_API_KEYS file' path header query_key
       = authenticateApiKey VALID_API_KEYS file path header query_key).
Proof.
  intros Hpath. unfold authenticateApiKey.
  destruct (String.eqb_spec path "/api/health") as [?|_]; [done|].
  destruct (js_or header query_key) as [| | | |key| |] eqn:Hkey;
    try (split_and!; [done|intros _; eexists _, _, _; split; [done|by left]
                      |done|done]).
  destruct (truthy (JStr key)) eqn:Ht; simpl;
    [|split_and!; [done|intros _; eexists _, _, _; split; [done|by left]
                   |done|done]].
  case_bool_decide as Hvalid; simpl;
    [|split_and!; [done|intros _; eexists _, _, _; split; [done|by right]
                   |done|done]].
  destruct (String.prefix "/api/status" path) eqn:Hs; simpl.
  { split_and!; try done.
    - intros ? ? [= <- <-]. by exists key.
    - intros ->. set_solver. }
  destruct (String.eqb_spec path "/api/quota") as [Hq|Hq]; simpl.
  { split_and!; try done.
    - intros ? ? [= <- <-]. by exists key.
    - intros ->. set_solver. }
  destruct (allowed (checkKeyLimit file key)) eqn:Ha; simpl.
  - split_and!; try done.
    + intros ? ? [= <- <-]. by exists key.
    + intros ->. set_solver.
    + by intros [|].
  - split_and!; try done.
    + intros ->. set_solver.
    + intros e m _.
      destruct (checkKeyLimit_refuses _ _ Ha) as (keyData & ? & ? & ?).
      by exists key, keyData.
    + by intros [|].
Qed.

Lemma authenticateApiKey_decisions_witness :
  authenticateApiKey {["k1"]}
    (Parsed {["k1" := {| name := "demo"; limit := 2; used := 2 |}]})
    "/api/status/job_0_k3x9" (JStr "k1") JUndefined
  = authenticateApiKey {["k1"]} Missing
      "/api/status/job_0_k3x9" (JStr "k1") JUndefined.
Proof.
  destruct (authenticateApiKey_decisions {["k1"]} Missing
              "/api/status/job_0_k3x9" (JStr "k1") JUndefined)
    as (_ & _ & _ & H); [done|].
  apply H. by left.
Defined.

(** X20. When the limits file is not there or cannot be read, every key
    passes the limit check, no request is answered 429, and counting a use
    changes nothing; the quota endpoint, which reads the file on its own,
    answers 500 for a file that cannot be read. *)
Theorem unreadable_limits_allow_every_key (VALID_API_KEYS : gset string)
    (file : LimitsFile) (path : string) (header query_key : JsVal) :
  file = Missing ∨ file = Unreadable →
  (∀ key, allowed (checkKeyLimit file key) = true)
  ∧ (∀ e m, authenticateApiKey VALID_API_KEYS file path header query_key
            ≠ Denied 429 e m)
  ∧ (∀ written key, key ∉ object_prototype →
       incrementKeyUsage written key file = file)
  ∧ (file = Unreadable → ∀ key, key ≠ EmptyString →
       quota_handler file (Some key) = QuotaFailed).
Proof.
  intros Hfile.
  assert (Hload : loadKeyLimits file = ∅) by by destruct Hfile as [->| ->].
  assert (Hall : ∀ key, allowed (checkKeyLimit file key) = true).
  { intros key. unfold checkKeyLimit, entry. rewrite Hload, lookup_empty.
    by case_bool_decide. }
  split_and!; [done| | |].
  - intros e m. unfold authenticateApiKey.
    destruct (String.eqb path "/api/health"); [done|].
    destruct (js_or header query_key) as [| | | |key| |]; try done.
    destruct (negb (truthy (JStr key))); [done|].
    destruct (negb (bool_decide (key ∈ VALID_API_KEYS))); [done|].
    destruct (negb _); [|done]. by rewrite Hall.
  - intros written key Hkey. unfold incrementKeyUsage, entry.
    rewrite Hload, lookup_empty. by rewrite bool_decide_eq_false_2.
  - intros -> key Hkey. unfold quota_handler.
    by destruct (String.eqb_spec key EmptyString).
Qed.

Lemma unreadable_limits_allow_every_key_witness :
  allowed (checkKeyLimit Unreadable "k1") = true
  ∧ incrementKeyUsage true "k1" Missing = Missing
  ∧ quota_handler Unreadable (Some "k1") = QuotaFailed.
Proof.
  destruct (unreadable_limits_allow_every_key ∅ Unreadable "/api/generate"
              (JStr "k1") JUndefined (or_intror eq_refl)) as (Ha & _ & _ & Hq).
  destruct (unreadable_limits_allow_every_key ∅ Missing "/api/generate"
              (JStr "k1") JUndefined (or_introl eq_refl)) as (_ & _ & Hi & _).
  split_and!; [apply Ha| |by apply Hq].
  apply Hi. apply (bool_decide_unpack _). vm_compute. exact I.
Defined.










End AuthFacts.

(** ** The record of a job that completed *)

Module Lifecycle.
Import Js RunPod Server Handlers Samples.

Local Open Scope Z_scope.

(** C4, where the code departs from it. The background task counts the
    use of the key inside the [try] that holds the completed write: when
    that call throws, the [catch] stores the record again, so that its
    status goes from [completed] to [failed], which is no step of
    [pending -> processing -> (completed | failed)], and the result is
    gone; otherwise the task writes once, [completed] or [failed]. So it
    is for the key [k1] and a [key-limits.json] in which the entry of
    [k1] is the number 5: the request is accepted and its record says
    [processing], the generation completes with one image, the count
    throws the [TypeError] of the assignment, and the record ends as
    [failed] with the message of that error. *)
Theorem completed_record_overwritten_as_failed :
  (∀ j t_done t_failed g e jobStore,
     resume j t_done t_failed (Ok g) (Throw e) jobStore
     = run [Settled j t_done (Ok g); Settled j t_failed (Throw e)] jobStore
     ∧ status <$> settle j t_done (Ok g) jobStore !! j = Some completed
     ∧ resume j t_done t_failed (Ok g) (Throw e) jobStore !! j
       = Some {| status := failed; result := None; error := Some e;
                 startedAt := t_failed |})
  ∧ ¬ advances completed failed
  ∧ (∀ j t_done t_failed g jobStore,
       resume j t_done t_failed (Ok g) (Ok ()) jobStore
       = run [Settled j t_done (Ok g)] jobStore)
  ∧ (∀ j t_done t_failed msg counted jobStore,
       resume j t_done t_failed (Throw msg) counted jobStore
       = run [Settled j t_done (Throw msg)] jobStore)
  ∧ (∀ sum, count_use sample_number_format number_limits "k1" sum
            = Throw "Cannot create property 'used' on number '5'")
  ∧ ∃ jobStore background,
      generate_turn sample_number_format (Some sample_template) sample_random 0
        generate_body 0 0 1 2 "k3x9" ∅
      = Ok (JobStarted "job_0_k3x9" "pending", jobStore, Some background)
      ∧ status <$> jobStore !! "job_0_k3x9" = Some processing
      ∧ status <$> settle "job_0_k3x9" 1800000 (Ok sample_result) jobStore
                   !! "job_0_k3x9"
        = Some completed
      ∧ ∀ sum,
          resume "job_0_k3x9" 1800000 1800001 (Ok sample_result)
            (count_use sample_number_format number_limits "k1" sum) jobStore
          !! "job_0_k3x9"
          = Some {| status := failed; result := None;
                    error := Some "Cannot create property 'used' on number '5'";
                    startedAt := 1800001 |}.
Proof.
  split_and!.
  - intros j t_done t_failed g e jobStore. split_and!; [done| |].
    + unfold settle. by rewrite lookup_insert_eq.
    + unfold resume, settle. by rewrite lookup_insert_eq.
  - inversion 1.
  - done.
  - done.
  - done.
  - eexists _, _. split; [reflexivity|]. split_and!.
    + unfold set_processing. by rewrite lookup_insert_eq.
    + unfold settle. by rewrite lookup_insert_eq.
    + intros sum. unfold resume, settle. simpl. by rewrite lookup_insert_eq.
Qed.

End Lifecycle.
